(** * Batphone Fingerprinter: audio callback, snapshot accessor, start/stop

    Shallow embedding of [Fingerprinter/Classes/Fingerprinter.cpp].

    - C [float] is IEEE binary32 and C [double] binary64, both carried by
      [spec_float] with the precision written out.
    - [int] and [unsigned int] are [Z] with the 32-bit wrap-around explicit.
    - Arrays are lists; a read or write outside an array is undefined in C
      and is reported as [Fault].
    - The objects the callback reaches through [CallbackData] pointers
      ([spectrogram], [fingerprint], [lock]) live in the [Fingerprinter]
      object itself, so they are single fields shared by the callback and by
      [getFingerprint]. *)

From Stdlib Require Import String.
From Stdlib Require Import ZArith QArith Qround List Bool Lia.
From Stdlib Require Import Floats.SpecFloat.
Import ListNotations.
Close Scope Q_scope.
Open Scope Z_scope.

Set Implicit Arguments.

(** ** Floating point *)

Module F32.
Definition prec : Z := 24.
Definition emax : Z := 128.
Definition of_Z (z : Z) : spec_float := binary_normalize prec emax z 0 false.
Definition add : spec_float -> spec_float -> spec_float := SFadd prec emax.
Definition mul : spec_float -> spec_float -> spec_float := SFmul prec emax.
Definition div : spec_float -> spec_float -> spec_float := SFdiv prec emax.
(** Rounding of a wider value to binary32 (a [double] literal given to a
    [float], for instance). *)
Definition round (x : spec_float) : spec_float :=
  match x with
  | S754_finite s m e => binary_normalize prec emax (cond_Zopp s (Zpos m)) e s
  | _ => x
  end.
Definition zero : spec_float := S754_zero false.
Definition one : spec_float := of_Z 1.
End F32.

Module F64.
Definition prec : Z := 53.
Definition emax : Z := 1024.
Definition of_Z (z : Z) : spec_float := binary_normalize prec emax z 0 false.
Definition mul : spec_float -> spec_float -> spec_float := SFmul prec emax.
Definition div : spec_float -> spec_float -> spec_float := SFdiv prec emax.
(** [float] to [double]: every binary32 value is a binary64 value. *)
Definition of_f32 (x : spec_float) : spec_float :=
  match x with
  | S754_finite s m e => binary_normalize prec emax (cond_Zopp s (Zpos m)) e s
  | _ => x
  end.
End F64.

(** Largest integer not above a finite value ([m * 2^e] with its sign);
    [0] for the values that have none. *)
Definition SFfloorZ (x : spec_float) : Z :=
  match x with
  | S754_finite s m e =>
      if 0 <=? e then cond_Zopp s (Zpos m) * 2 ^ e
      else Z.div (cond_Zopp s (Zpos m)) (2 ^ (- e))
  | _ => 0
  end.

(** Conversion of a floating value to an integer type: the fraction is
    dropped (rounding toward zero). *)
Definition SFtruncZ (x : spec_float) : Z :=
  match x with
  | S754_finite s m e =>
      if 0 <=? e then cond_Zopp s (Zpos m) * 2 ^ e
      else Z.quot (cond_Zopp s (Zpos m)) (2 ^ (- e))
  | _ => 0
  end.

(** [floor] of math.h, on [double]. *)
Definition floor (x : spec_float) : spec_float :=
  match x with
  | S754_finite _ _ _ => F64.of_Z (SFfloorZ x)
  | _ => x
  end.

Definition is_nan (x : spec_float) : bool :=
  match x with S754_nan => true | _ => false end.

(** ** 32-bit integers *)

Definition u32 (z : Z) : Z := z mod 2 ^ 32.
Definition s32 (z : Z) : Z := (z + 2 ^ 31) mod 2 ^ 32 - 2 ^ 31.
Definition int_range (z : Z) : Prop := - 2 ^ 31 <= z < 2 ^ 31.

(** ** Constants (Fingerprinter.cpp, lines 28-35) *)

Definition sampleRate : Z := 44100.
Definition specRes : Z := 1024.
(** [const float windowOffset = 0.01;] the literal is a [double]. *)
Definition windowOffset : spec_float :=
  F32.round (F64.div (F64.of_Z 1) (F64.of_Z 100)).
Definition accumulationNum : Z := 10.
Definition historyTime : Z := 10.
(** [historyTime / accumulationNum / windowOffset]: an unsigned division,
    then a binary32 division, then the conversion to [unsigned int]. *)
Definition historyCount : Z :=
  u32 (SFtruncZ (F32.div (F32.of_Z (u32 (historyTime / accumulationNum))) windowOffset)).
Definition freqCutoff : spec_float := F32.round (F64.of_Z 7000).
(** [specRes * freqCutoff / 22050.0]: a binary32 product, divided in
    binary64 by the [double] literal. *)
Definition fpLength : Z :=
  u32 (SFtruncZ (F64.div (F64.of_f32 (F32.mul (F32.of_Z specRes) freqCutoff))
                         (F64.of_Z 22050))).

(** The formulas of the data model, over the rationals:
    [specRes * freqCutoff / (sampleRate / 2)], of which a vector length keeps
    the whole part, and [historyTime / (accumulationNum * windowOffset)] with
    [windowOffset = 1/100]. *)
Definition fpLength_formula : Q :=
  (inject_Z specRes * inject_Z 7000 / (inject_Z sampleRate / inject_Z 2))%Q.
Definition historyCount_formula : Q :=
  (inject_Z historyTime / (inject_Z accumulationNum * (1 # 100)))%Q.

(** [int windowFrames = Fingerprinter::specRes;] *)
Definition windowFrames : Z := s32 specRes.
(** [int stepSize = floor(windowOffset * sampleRate);] *)
Definition stepSize : Z :=
  s32 (SFtruncZ (floor (F64.of_f32 (F32.mul windowOffset (F32.of_Z sampleRate))))).
(** [UInt32 log2FFTLength = log2f(specRes);] exact on a power of two. *)
Definition log2FFTLength : Z := Z.log2 specRes.
(** [callbackData->fbLen = 0.5 * sampleRate;] *)
Definition fbLen_setup : Z :=
  u32 (SFtruncZ (F64.mul (F64.div (F64.of_Z 1) (F64.of_Z 2)) (F64.of_Z sampleRate))).

(** ** Outcomes of the embedded code *)

Inductive exec (T : Type) : Type :=
| Done (x : T)
| Fault      (* an access outside an array: undefined behaviour in C *)
| Timeout.   (* the budget of the window loop ran out *)
Arguments Fault {T}.
Arguments Timeout {T}.

Definition bind {T U : Type} (m : exec T) (k : T -> exec U) : exec U :=
  match m with
  | Done x => k x
  | Fault => Fault
  | Timeout => Timeout
  end.

Notation "x <- m ;; k" := (bind m (fun x => k))
  (at level 61, m at next level, right associativity).
Notation "' p <- m ;; k" := (bind m (fun p => k))
  (at level 61, p pattern, m at next level, right associativity).

(** ** Arrays *)

Section Arrays.
Variable T : Type.

Definition len (buf : list T) : Z := Z.of_nat (length buf).

Definition in_bounds (buf : list T) (off n : Z) : bool :=
  (0 <=? off) && (0 <=? n) && (off + n <=? len buf).

(** The [n] elements at [buf + off]. *)
Definition load (buf : list T) (off n : Z) : exec (list T) :=
  if in_bounds buf off n
  then Done (firstn (Z.to_nat n) (skipn (Z.to_nat off) buf))
  else Fault.

(** [buf] with [src] written at [buf + off]. *)
Definition store (buf : list T) (off : Z) (src : list T) : exec (list T) :=
  if in_bounds buf off (len src)
  then Done (firstn (Z.to_nat off) buf ++ src
               ++ skipn (Z.to_nat off + length src) buf)
  else Fault.

(** [buf[i]] *)
Definition read (buf : list T) (i : Z) : exec T :=
  if 0 <=? i
  then match nth_error buf (Z.to_nat i) with
       | Some x => Done x
       | None => Fault
       end
  else Fault.

(** [memcpy(dst + doff, src + soff, n * sizeof(T))] *)
Definition memcpy (dst : list T) (doff : Z) (src : list T) (soff n : Z)
  : exec (list T) :=
  x <- load src soff n ;; store dst doff x.

Fixpoint zip_with (f : T -> T -> T) (a b : list T) : list T :=
  match a, b with
  | x :: a', y :: b' => f x y :: zip_with f a' b'
  | _, _ => []
  end.

(** Elements of even and of odd index. *)
Fixpoint evens (l : list T) : list T :=
  match l with
  | x :: _ :: l' => x :: evens l'
  | x :: [] => [x]
  | [] => []
  end.

Definition odds (l : list T) : list T :=
  match l with
  | _ :: l' => evens l'
  | [] => []
  end.
End Arrays.

(** ** Accelerate (vDSP) routines, unit strides

    The library is not part of the sources; each routine is given by the
    formula of its reference documentation. *)

(** [vDSP_vflt32(A, 1, C + coff, 1, N)]: integers to floats. *)
Definition vDSP_vflt32 (A : list Z) (C : list spec_float) (coff N : Z)
  : exec (list spec_float) :=
  a <- load A 0 N ;; store C coff (map F32.of_Z a).

(** [vDSP_vfilli(&v, C, 1, N)] *)
Definition vDSP_vfilli (v : Z) (C : list Z) (N : Z) : exec (list Z) :=
  _ <- load C 0 N ;; store C 0 (repeat v (Z.to_nat N)).

(** [vDSP_vfill(&v, C, 1, N)] *)
Definition vDSP_vfill (v : spec_float) (C : list spec_float) (N : Z)
  : exec (list spec_float) :=
  _ <- load C 0 N ;; store C 0 (repeat v (Z.to_nat N)).

(** [vDSP_vmul(A, 1, B, 1, C, 1, N)]: [C[i] = A[i] * B[i]]. *)
Definition vDSP_vmul (A B C : list spec_float) (N : Z) : exec (list spec_float) :=
  a <- load A 0 N ;; b <- load B 0 N ;; store C 0 (zip_with F32.mul a b).

(** [vDSP_vadd(A, 1, B, 1, C, 1, N)]: [C[i] = A[i] + B[i]]. *)
Definition vDSP_vadd (A B C : list spec_float) (N : Z) : exec (list spec_float) :=
  a <- load A 0 N ;; b <- load B 0 N ;; store C 0 (zip_with F32.add a b).

(** [vDSP_ctoz((COMPLEX* )C, 2, &Z, 1, N)]: [N] interleaved complex numbers,
    that is [2 * N] floats of [C], split into real and imaginary parts. *)
Definition vDSP_ctoz (C realp imagp : list spec_float) (N : Z)
  : exec (list spec_float * list spec_float) :=
  c <- load C 0 (2 * N) ;;
  re <- store realp 0 (evens c) ;;
  im <- store imagp 0 (odds c) ;;
  Done (re, im).

(** The squared magnitude of a complex number. *)
Definition squared_magnitude (r i : spec_float) : spec_float :=
  F32.add (F32.mul r r) (F32.mul i i).

(** [vDSP_zaspec(&Z, C, N)], the accumulating autospectrum:
    [C[i] += re[i]^2 + im[i]^2]. The routine adds to what [C] holds. *)
Definition vDSP_zaspec (realp imagp C : list spec_float) (N : Z)
  : exec (list spec_float) :=
  re <- load realp 0 N ;; im <- load imagp 0 N ;; c <- load C 0 N ;;
  store C 0 (zip_with F32.add c (zip_with squared_magnitude re im)).

(** [vDSP_vdbcon(A, 1, &B, C, 1, N, F)]: [C[i] = alpha * log10(A[i] / B)]
    with [alpha = 20] when the flag [F] is [1] (amplitude) and [10] when
    it is [0] (power); the logarithm is the platform's. *)
Definition dB (log10f : spec_float -> spec_float) (F : Z) (B x : spec_float)
  : spec_float :=
  F32.mul (F32.of_Z (if F =? 1 then 20 else 10)) (log10f (F32.div x B)).

Definition vDSP_vdbcon (log10f : spec_float -> spec_float)
    (A : list spec_float) (B : spec_float) (C : list spec_float) (N F : Z)
  : exec (list spec_float) :=
  a <- load A 0 N ;; store C 0 (map (dB log10f F B) a).

(** ** The platform

    What the callback calls and the sources at hand do not define: the
    in-place complex FFT of Accelerate, the logarithm behind [vDSP_vdbcon],
    and the [Spectrogram] class, of which only the header is at hand
    ([update] takes [freqBins] floats, [getSummary] fills a buffer with
    [freqBins] floats). They are parameters of the development. *)

Record Platform : Type := {
  Spectrogram : Type;
  update : Spectrogram -> list spec_float -> Spectrogram;
  getSummary : Spectrogram -> list spec_float;
  fft_zip : list spec_float -> list spec_float -> Z
            -> list spec_float * list spec_float;
  log10f : spec_float -> spec_float
}.

(** The FFT works in place and the summary has one entry per bin. *)
Definition platform_ok (P : Platform) : Prop :=
  (forall re im n,
      length (fst (fft_zip P re im n)) = length re /\
      length (snd (fft_zip P re im n)) = length im) /\
  (forall sp, len (getSummary P sp) = fpLength).

(** [20 * log10(x / accumulationNum)], as the platform computes it: what
    line 157 makes of an entry of the sum, its last argument being [1]. *)
Definition dB_of_average (P : Platform) (x : spec_float) : spec_float :=
  F32.mul (F32.of_Z 20) (log10f P (F32.div x (F32.of_Z accumulationNum))).

(** [10 * log10(x / accumulationNum)]: the power convention, which the
    comment of line 157 names. *)
Definition power_dB_of_average (P : Platform) (x : spec_float) : spec_float :=
  F32.mul (F32.of_Z 10) (log10f P (F32.div x (F32.of_Z accumulationNum))).

(** ** pthread mutex *)

Inductive mutex : Type :=
| MxInvalid   (* [pthread_mutex_init] failed *)
| MxFree
| MxHeld.

(** Returns once the caller owns the mutex; an invalid mutex is refused
    with [EINVAL]. *)
Definition pthread_mutex_lock (m : mutex) : Z * mutex :=
  match m with
  | MxInvalid => (22, MxInvalid)
  | _ => (0, MxHeld)
  end.

Definition pthread_mutex_unlock (m : mutex) : mutex :=
  match m with
  | MxInvalid => MxInvalid
  | _ => MxFree
  end.

(** ** Observable events, in program order *)

Inductive Event : Type :=
| EvStderr (msg : string)
| EvStdout (msg : string)
| EvLock (rc : Z)                      (* [pthread_mutex_lock] returned [rc] *)
| EvUnlock
| EvWindow (start : Z)                 (* a window read at [frameBuffer + start] *)
| EvUpdate (s : list spec_float)       (* [spectrogram->update(s)] *)
| EvGetSummary                         (* [getSummary] writes the fingerprint *)
| EvCopyOut.                           (* [getFingerprint] reads the fingerprint *)

(** [if( pthread_mutex_lock( l ) ) printf( "lock failed!\n" );] *)
Definition lock_events (rc : Z) : list Event :=
  EvLock rc :: (if rc =? 0 then [] else [EvStdout "lock failed!"%string]).

(** The mutex protocol read off a sequence of events: starting with the
    mutex held or not, every successful lock finds it free, every unlock finds
    it held, and the shared data ([update], [getSummary], the copy-out) are
    touched only while it is held. The result is whether it is held at the
    end, [None] when the protocol is broken. *)
Fixpoint discipline (held : bool) (ev : list Event) : option bool :=
  match ev with
  | [] => Some held
  | EvLock rc :: ev' =>
      if rc =? 0 then (if held then None else discipline true ev')
      else discipline held ev'
  | EvUnlock :: ev' => if held then discipline false ev' else None
  | EvUpdate _ :: ev' | EvGetSummary :: ev' | EvCopyOut :: ev' =>
      if held then discipline held ev' else None
  | _ :: ev' => discipline held ev'
  end.

(** ** State *)

(** [CallbackData], without the handles [rioUnit] and [fftsetup]; its
    pointers [spectrogram], [fingerprint] and [lock] designate the fields
    of the [Fingerprinter] below. *)
Record CallbackData : Type := {
  A : list spec_float;            (* scratch, [2 * specRes] floats *)
  hamm : list spec_float;         (* window function, [specRes] floats *)
  acc : list spec_float;          (* spectrum accumulator, [fpLength] floats *)
  accCount : Z;
  frameBuffer : list spec_float;
  fbIndex : Z;                    (* next space to be filled *)
  startIndex : Z;                 (* next window to be analysed *)
  fbLen : Z;
  realp : list spec_float;        (* [compl_buf.realp] *)
  imagp : list spec_float         (* [compl_buf.imagp] *)
}.

Section Pipeline.
Variable P : Platform.

Record Fingerprinter : Type := {
  unitIsRunning : bool;
  fingerprint : list spec_float;
  lock : mutex;
  spectrogram : Spectrogram P;
  cd : CallbackData
}.

Definition set_cd (w : Fingerprinter) (d : CallbackData) : Fingerprinter :=
  {| unitIsRunning := unitIsRunning w; fingerprint := fingerprint w;
     lock := lock w; spectrogram := spectrogram w; cd := d |}.

Definition set_lock (w : Fingerprinter) (m : mutex) : Fingerprinter :=
  {| unitIsRunning := unitIsRunning w; fingerprint := fingerprint w;
     lock := m; spectrogram := spectrogram w; cd := cd w |}.

Definition set_unitIsRunning (w : Fingerprinter) (b : bool) : Fingerprinter :=
  {| unitIsRunning := b; fingerprint := fingerprint w;
     lock := lock w; spectrogram := spectrogram w; cd := cd w |}.

Definition set_startIndex (d : CallbackData) (i : Z) : CallbackData :=
  {| A := A d; hamm := hamm d; acc := acc d; accCount := accCount d;
     frameBuffer := frameBuffer d; fbIndex := fbIndex d; startIndex := i;
     fbLen := fbLen d; realp := realp d; imagp := imagp d |}.

Definition set_acc (d : CallbackData) (a : list spec_float) (n : Z)
  : CallbackData :=
  {| A := A d; hamm := hamm d; acc := a; accCount := n;
     frameBuffer := frameBuffer d; fbIndex := fbIndex d;
     startIndex := startIndex d; fbLen := fbLen d;
     realp := realp d; imagp := imagp d |}.

(** ** The audio callback (lines 73-181) *)

(** Lines 104-114: when the samples to come do not fit, half a buffer is
    copied and both cursors are moved down by half the buffer length. *)
Definition make_room (d : CallbackData) (inNumberFrames : Z)
  : exec CallbackData :=
  if u32 (fbIndex d) >=? u32 (fbLen d - inNumberFrames) then
    (* memcpy(frameBuffer + fbLen/2, frameBuffer, sizeof(float)*fbLen/2) *)
    fb <- memcpy (frameBuffer d) (fbLen d / 2)
                 (frameBuffer d) 0 (4 * fbLen d / 2 / 4) ;;
    Done {| A := A d; hamm := hamm d; acc := acc d;
            accCount := accCount d; frameBuffer := fb;
            fbIndex := s32 (fbIndex d - fbLen d / 2);
            startIndex := s32 (startIndex d - fbLen d / 2);
            fbLen := fbLen d; realp := realp d; imagp := imagp d |}
  else Done d.

(** Lines 104-125: room is made in the frame buffer, the samples are
    converted and appended, and the caller's buffer is zeroed. *)
Definition append_frames (d : CallbackData) (inNumberFrames : Z)
    (data_ptr : list Z) : exec (CallbackData * list Z) :=
  d1 <- make_room d inNumberFrames ;;
  fb <- vDSP_vflt32 data_ptr (frameBuffer d1) (fbIndex d1) inNumberFrames ;;
  out <- vDSP_vfilli 0 data_ptr inNumberFrames ;;
  Done ({| A := A d1; hamm := hamm d1; acc := acc d1;
           accCount := accCount d1; frameBuffer := fb;
           fbIndex := s32 (fbIndex d1 + inNumberFrames);
           startIndex := startIndex d1;
           fbLen := fbLen d1; realp := realp d1; imagp := imagp d1 |}, out).

(** Lines 133-150: one window is copied to the scratch buffer, weighted
    and transformed; [vDSP_zaspec] adds the squared magnitudes to the
    scratch buffer, which still holds the weighted window, and the first
    [fpLength] floats of the buffer are added to the accumulator. *)
Definition analyze_window (d : CallbackData) : exec CallbackData :=
  a1 <- memcpy (A d) 0 (frameBuffer d) (startIndex d) specRes ;;
  a2 <- vDSP_vmul a1 (hamm d) a1 specRes ;;
  '(re, im) <- vDSP_ctoz a2 (realp d) (imagp d) specRes ;;
  re0 <- load re 0 (2 ^ log2FFTLength) ;;
  im0 <- load im 0 (2 ^ log2FFTLength) ;;
  re1 <- store re 0 (fst (fft_zip P re0 im0 log2FFTLength)) ;;
  im1 <- store im 0 (snd (fft_zip P re0 im0 log2FFTLength)) ;;
  a3 <- vDSP_zaspec re1 im1 a2 specRes ;;
  acc1 <- vDSP_vadd a3 (acc d) (acc d) fpLength ;;
  Done {| A := a3; hamm := hamm d; acc := acc1; accCount := accCount d;
          frameBuffer := frameBuffer d; fbIndex := fbIndex d;
          startIndex := startIndex d; fbLen := fbLen d;
          realp := re1; imagp := im1 |}.

(** How the body of the window loop ends: it falls through to the loop
    increment, or it returns from the callback. *)
Inductive flow : Type :=
| Next (w : Fingerprinter)
| Return (status : Z) (w : Fingerprinter).

(** [float reference = 1.0f * Fingerprinter::accumulationNum;] *)
Definition reference : spec_float := F32.mul F32.one (F32.of_Z accumulationNum).

(** [!(x >= 0 || x <= 0)] *)
Definition nan_test (x : spec_float) : bool :=
  negb (SFleb F32.zero x || SFleb x F32.zero).

(** Lines 152-177. *)
Definition accumulate (w : Fingerprinter) : exec (flow * list Event) :=
  let d := cd w in
  let count := s32 (accCount d + 1) in
  if u32 count >=? accumulationNum then
    let (rc, held) := pthread_mutex_lock (lock w) in
    acc2 <- vDSP_vdbcon (log10f P) (acc d) reference (acc d) fpLength 1 ;;
    x0 <- read acc2 0 ;;
    if nan_test x0 then
      Done (Return 0
              {| unitIsRunning := unitIsRunning w;
                 fingerprint := fingerprint w;
                 lock := pthread_mutex_unlock held;
                 spectrogram := spectrogram w;
                 cd := set_acc d acc2 count |},
            lock_events rc ++ [EvStdout "spectrum is NaN"%string; EvUnlock])
    else
      s <- load acc2 0 fpLength ;;
      let sp := update P (spectrogram w) s in
      fp <- store (fingerprint w) 0 (getSummary P sp) ;;
      acc3 <- vDSP_vfill F32.zero acc2 fpLength ;;
      Done (Next
              {| unitIsRunning := unitIsRunning w;
                 fingerprint := fp;
                 lock := pthread_mutex_unlock held;
                 spectrogram := sp;
                 cd := set_acc d acc3 0 |},
            lock_events rc ++ [EvUpdate s; EvGetSummary; EvUnlock])
  else Done (Next (set_cd w (set_acc d (acc d) count)), []).

(** The body of the [for] loop. *)
Definition window_step (w : Fingerprinter) : exec (flow * list Event) :=
  d <- analyze_window (cd w) ;;
  '(f, ev) <- accumulate (set_cd w d) ;;
  Done (f, EvWindow (startIndex (cd w)) :: ev).

(** [for( ; startIndex <= fbIndex-windowFrames; startIndex+=stepSize )] *)
Fixpoint analysis_loop (budget : nat) (w : Fingerprinter)
  : exec (Z * Fingerprinter * list Event) :=
  if startIndex (cd w) <=? s32 (fbIndex (cd w) - windowFrames) then
    match budget with
    | O => Timeout
    | S budget' =>
        r <- window_step w ;;
        match r with
        | (Return status w', ev) => Done (status, w', ev)
        | (Next w', ev) =>
            let w1 := set_cd w' (set_startIndex (cd w')
                                   (s32 (startIndex (cd w') + stepSize))) in
            '(status, w2, ev') <- analysis_loop budget' w1 ;;
            Done (status, w2, ev ++ ev')
        end
    end
  else Done (0, w, []).

(** Every turn of the loop moves [startIndex] forward, so this many turns
    are never used up. *)
Definition loop_budget (d : CallbackData) : nat :=
  Z.to_nat (s32 (fbIndex d - windowFrames) - startIndex d + 1).

(** [render] is what [AudioUnitRender] left in [ioData->mBuffers[0]], or
    [None] when it reported an error. The result carries the status, the
    caller's buffer as the callback leaves it, the state and the events. *)
Definition callback (w : Fingerprinter) (inNumberFrames : Z)
    (render : option (list Z))
  : exec (Z * option (list Z) * Fingerprinter * list Event) :=
  let ev0 := if inNumberFrames >? u32 windowFrames
             then [EvStderr "Error: buffer is too small."%string] else [] in
  match render with
  | None =>
      Done (1, None, w, ev0 ++ [EvStderr "Error: Callback: AudioUnitRender"%string])
  | Some data_ptr =>
      '(d, out) <- append_frames (cd w) inNumberFrames data_ptr ;;
      let w1 := set_cd w d in
      if fbIndex d <? windowFrames then Done (0, Some out, w1, ev0)
      else
        '(status, w2, ev) <- analysis_loop (loop_budget d) w1 ;;
        Done (status, Some out, w2, ev0 ++ ev)
  end.

(** ** The public members (lines 349-459) *)

(** The constructor, when the audio set-up goes through. The arrays that
    [new float[]] leaves uninitialised come with arbitrary contents;
    [hamm0] is what [vDSP_hamm_window] produced. *)
Definition Fingerprinter_new (mutex_init_ok : bool) (sp0 : Spectrogram P)
    (hamm0 A0 frameBuffer0 realp0 imagp0 : list spec_float) : Fingerprinter :=
  {| unitIsRunning := false;
     fingerprint := repeat F32.zero (Z.to_nat fpLength);
     lock := if mutex_init_ok then MxFree else MxInvalid;
     spectrogram := sp0;
     cd := {| A := A0; hamm := hamm0;
              acc := repeat F32.zero (Z.to_nat fpLength); accCount := 0;
              frameBuffer := frameBuffer0; fbIndex := 0; startIndex := 0;
              fbLen := fbLen_setup; realp := realp0; imagp := imagp0 |} |}.

Definition getFingerprint (w : Fingerprinter) (outBuf : list spec_float)
  : exec (bool * list spec_float * Fingerprinter * list Event) :=
  if unitIsRunning w then
    let (rc, held) := pthread_mutex_lock (lock w) in
    out <- memcpy outBuf 0 (fingerprint w) 0 fpLength ;;
    Done (true, out, set_lock w (pthread_mutex_unlock held),
          lock_events rc ++ [EvCopyOut; EvUnlock])
  else Done (false, outBuf, w, []).

(** What the audio unit answers to the three calls of [startRecording]:
    the [OSStatus] of each, and the value of the [IsRunning] property. *)
Record AudioUnitReplies : Type := {
  startStatus : Z;
  formatStatus : Z;
  runningStatus : Z;
  running : Z
}.

(** A member function returns, or [XThrowIfError] throws (the state at
    the throw is kept). *)
Inductive call (T : Type) : Type :=
| Returns (x : T)
| Throws (operation : string).

Definition startRecording (w : Fingerprinter) (au : AudioUnitReplies)
  : call bool * Fingerprinter * list Event :=
  if negb (unitIsRunning w) then
    if startStatus au =? 0 then
      if formatStatus au =? 0 then
        let ev := [EvStdout "Started audio with format:"%string] in
        if runningStatus au =? 0 then
          if running au =? 0
          then (Returns (unitIsRunning w), w,
                ev ++ [EvStdout "startRecording failed!"%string])
          else (Returns true, set_unitIsRunning w true, ev)
        else (Throws bool "couldn't get AU running state"%string, w, ev)
      else (Throws bool "couldn't get the remote I/O unit's output client format"%string,
            w, [])
    else (Throws bool "couldn't start remote i/o unit"%string, w, [])
  else (Returns (unitIsRunning w), w, []).

(** [stopStatus] is the [OSStatus] of [AudioOutputUnitStop]. *)
Definition stopRecording (w : Fingerprinter) (stopStatus : Z)
  : call bool * Fingerprinter * list Event :=
  if unitIsRunning w then
    let ev := [EvStdout "stopped recording"%string] in
    if stopStatus =? 0
    then (Returns false, set_unitIsRunning w false, ev)
    else (Throws bool "couldn't stop remote i/o unit"%string, w, ev)
  else (Returns (unitIsRunning w), w, []).

End Pipeline.

Arguments Next {P} w.
Arguments Return {P} status w.

Definition flow_state (P : Platform) (f : flow P) : Fingerprinter P :=
  match f with Next w => w | Return _ w => w end.

(** The arrays have the sizes [setupRemoteIO] and the constructor allocate. *)
Definition allocated (P : Platform) (w : Fingerprinter P) : Prop :=
  len (A (cd w)) = 2 * specRes /\
  len (hamm (cd w)) = specRes /\
  len (acc (cd w)) = fpLength /\
  len (frameBuffer (cd w)) = fbLen (cd w) /\
  fbLen (cd w) = fbLen_setup /\
  len (realp (cd w)) = specRes /\
  len (imagp (cd w)) = specRes /\
  len (fingerprint w) = fpLength.

(** The cursors between two callbacks: [0 <= startIndex <= fbIndex <= fbLen],
    with less than one window left to analyse. *)
Definition cursors_ok (d : CallbackData) : Prop :=
  0 <= startIndex d <= fbIndex d /\
  fbIndex d <= fbLen d /\
  fbIndex d - startIndex d < specRes.

Definition nan_reported (ev : list Event) : Prop :=
  In (EvStdout "spectrum is NaN"%string) ev.

Arguments Returns {T} x.
Arguments Throws {T} operation.

(** ** Histories of calls on one object *)

Inductive Call : Type :=
| CallStart (au : AudioUnitReplies)
| CallStop (stopStatus : Z)
| CallGetFingerprint (outBuf : list spec_float)
| CallAudio (inNumberFrames : Z) (render : option (list Z)).

(** What each call returned. [ObsGet] also records how many accumulation
    cycles had been completed (spectra handed to [update]) since the
    [startRecording] that set the object running. *)
Inductive Obs : Type :=
| ObsStart (r : call bool)
| ObsStop (r : call bool)
| ObsGet (ok : bool) (out : list spec_float) (cycles : nat)
| ObsAudio (status : Z).

Definition is_update (e : Event) : bool :=
  match e with EvUpdate _ => true | _ => false end.

Definition count_updates (ev : list Event) : nat :=
  length (filter is_update ev).

Section Histories.
Variable P : Platform.

Fixpoint run (w : Fingerprinter P) (cycles : nat) (calls : list Call)
  : exec (list Obs * Fingerprinter P) :=
  match calls with
  | [] => Done ([], w)
  | CallStart au :: rest =>
      let '(r, w', _) := startRecording w au in
      let cycles' :=
        if negb (unitIsRunning w) && unitIsRunning w' then O else cycles in
      '(obs, w'') <- run w' cycles' rest ;;
      Done (ObsStart r :: obs, w'')
  | CallStop st :: rest =>
      let '(r, w', _) := stopRecording w st in
      '(obs, w'') <- run w' cycles rest ;;
      Done (ObsStop r :: obs, w'')
  | CallGetFingerprint outBuf :: rest =>
      '(ok, out, w', _) <- getFingerprint w outBuf ;;
      '(obs, w'') <- run w' cycles rest ;;
      Done (ObsGet ok out cycles :: obs, w'')
  | CallAudio n render :: rest =>
      '(status, _, w', ev) <- callback w n render ;;
      '(obs, w'') <- run w' (cycles + count_updates ev)%nat rest ;;
      Done (ObsAudio status :: obs, w'')
  end.

Definition is_start (c : Call) : bool :=
  match c with CallStart _ => true | _ => false end.

Definition get_failed (o : Obs) : bool :=
  match o with ObsGet ok _ _ => negb ok | _ => true end.

Definition observations (r : exec (list Obs * Fingerprinter P))
  : exec (list Obs) :=
  '(obs, _) <- r ;; Done obs.

(** The callback on successive buffers, the events put end to end. *)
Fixpoint feed (w : Fingerprinter P) (buffers : list (list Z))
  : exec (Fingerprinter P * list Event) :=
  match buffers with
  | [] => Done (w, [])
  | data :: rest =>
      '(_, _, w', ev) <- callback w (len data) (Some data) ;;
      '(w'', ev') <- feed w' rest ;;
      Done (w'', ev ++ ev')
  end.
End Histories.

(** Every successful [getFingerprint] of a history came after a completed
    accumulation cycle. *)
Definition snapshot_needs_cycle (obs : list Obs) : Prop :=
  forall out cycles, In (ObsGet true out cycles) obs -> (1 <= cycles)%nat.

(** The start positions of the windows analysed, in order. *)
Fixpoint windows_of (ev : list Event) : list Z :=
  match ev with
  | [] => []
  | EvWindow start :: ev' => start :: windows_of ev'
  | _ :: ev' => windows_of ev'
  end.

(** The start positions the loop condition admits, from [start] upward in
    steps of [stepSize], at most [count] of them. *)
Fixpoint window_starts (count : nat) (start bound : Z) : list Z :=
  match count with
  | O => []
  | S count' =>
      if start <=? bound
      then start :: window_starts count' (start + stepSize) bound
      else []
  end.

(** ** What the callback computes and what it keeps between two calls *)

(** The start positions the loop condition admits between [start] and
    [bound], all of them. *)
Definition eligible_windows (start bound : Z) : list Z :=
  window_starts (Z.to_nat (bound - start + 1)) start bound.

(** The spectra handed to [update], in order. *)
Fixpoint spectra_of (ev : list Event) : list (list spec_float) :=
  match ev with
  | [] => []
  | EvUpdate s :: ev' => s :: spectra_of ev'
  | _ :: ev' => spectra_of ev'
  end.

(** What a sequence of events leaves in the history and in the stored
    fingerprint of [w']: the history has received the spectra of the
    events, [fpLength] floats each, and the fingerprint is the summary of
    the history if there was one, and untouched otherwise. *)
Definition published (P : Platform) (w : Fingerprinter P) (ev : list Event)
    (w' : Fingerprinter P) : Prop :=
  spectrogram w' = fold_left (update P) (spectra_of ev) (spectrogram w) /\
  fingerprint w' =
    match spectra_of ev with
    | [] => fingerprint w
    | _ :: _ => getSummary P (spectrogram w')
    end /\
  Forall (fun s => len s = fpLength) (spectra_of ev) /\
  len (fingerprint w') = fpLength.

(** The window counter between two callbacks. *)
Definition counter_ok (d : CallbackData) : Prop :=
  0 <= accCount d < accumulationNum.

(** What holds of the object between two callbacks. *)
Definition pipeline_ok (P : Platform) (w : Fingerprinter P) : Prop :=
  allocated w /\ cursors_ok (cd w) /\ counter_ok (cd w).

(** The samples the frame buffer holds: [frameBuffer[0 .. fbIndex)]. *)
Definition buffered (d : CallbackData) : list spec_float :=
  firstn (Z.to_nat (fbIndex d)) (frameBuffer d).

(** The scratch buffer as [vDSP_ctoz] reads it at line 142: the window at
    [startIndex] weighted with [hamm] in its lower half, and the upper half
    of [A], which nothing has written. *)
Definition weighted_frame (d : CallbackData) : list spec_float :=
  zip_with F32.mul
    (firstn (Z.to_nat specRes) (skipn (Z.to_nat (startIndex d)) (frameBuffer d)))
    (hamm d)
  ++ skipn (Z.to_nat specRes) (A d).

(** Lines 142-143: the frame taken as [specRes] complex numbers and
    transformed. *)
Definition transformed (P : Platform) (d : CallbackData)
  : list spec_float * list spec_float :=
  fft_zip P (evens (weighted_frame d)) (odds (weighted_frame d)) log2FFTLength.

(** The squared magnitudes of the transformed frame. *)
Definition power_spectrum (P : Platform) (d : CallbackData) : list spec_float :=
  zip_with squared_magnitude (fst (transformed P d)) (snd (transformed P d)).

(** Line 147: what [vDSP_zaspec] leaves in the lower half of the scratch
    buffer. The routine adds the squared magnitudes to what its destination
    holds, and the destination is [A], which holds the weighted window. *)
Definition autospectrum (P : Platform) (d : CallbackData) : list spec_float :=
  zip_with F32.add
    (zip_with F32.mul
       (firstn (Z.to_nat specRes)
          (skipn (Z.to_nat (startIndex d)) (frameBuffer d)))
       (hamm d))
    (power_spectrum P d).

(** The stored fingerprint is the constructor's zeros or the summary of
    the history as it stands. *)
Definition initial_or_summary (P : Platform) (w : Fingerprinter P) : Prop :=
  fingerprint w = repeat F32.zero (Z.to_nat fpLength) \/
  fingerprint w = getSummary P (spectrogram w).

(** What the successful [getFingerprint] calls of a history handed out:
    the zeros or a summary of the history. *)
Definition zeros_or_a_summary (P : Platform) (obs : list Obs) : Prop :=
  forall out cycles, In (ObsGet true out cycles) obs ->
    firstn (Z.to_nat fpLength) out = repeat F32.zero (Z.to_nat fpLength) \/
    exists sp, firstn (Z.to_nat fpLength) out = getSummary P sp.

(** The state the early return of line 163 leaves behind: the counter at
    [accumulationNum - 1] or beyond and a not-a-number in [acc[0]]. *)
Definition silenced (d : CallbackData) : Prop :=
  accumulationNum <= accCount d + 1 /\ hd F32.zero (acc d) = S754_nan.

(** The message of line 161. *)
Definition is_nan_report (e : Event) : bool :=
  match e with
  | EvStdout msg => String.eqb msg "spectrum is NaN"
  | _ => false
  end.

(** ** The callback and the [getFingerprint] calls on their threads

    The audio callback runs on the audio thread, [getFingerprint] on the
    threads of its callers. What a call does to the data it shares with
    the others is read off its events, which [callback] and
    [getFingerprint] list in program order:
    - [pthread_mutex_lock] (lines 153 and 397) that returned 0 has taken
      the mutex, which it can do only while no thread holds it; one that
      returned an error has taken nothing, and the code goes on;
    - [pthread_mutex_unlock] (lines 171 and 399) gives the mutex back;
    - [update] (line 167) changes the history;
    - [getSummary] (line 170) writes the [fpLength] floats of the stored
      fingerprint and [memcpy] (line 398) reads them, one float at a time
      in any order;
    - everything else touches nothing that is shared.
    A schedule picks the thread that takes the next step. *)

Module Shared.

Inductive thread : Type :=
| Producer               (* the audio thread, in [callback] *)
| Consumer (k : nat).    (* a caller of [getFingerprint] *)

Definition thread_eqb (a b : thread) : bool :=
  match a, b with
  | Producer, Producer => true
  | Consumer i, Consumer j => Nat.eqb i j
  | _, _ => false
  end.

Definition bins : list nat := seq 0 (Z.to_nat fpLength).

Definition mem (i : nat) (l : list nat) : bool := existsb (Nat.eqb i) l.

Definition drop (i : nat) (l : list nat) : list nat :=
  filter (fun j => negb (Nat.eqb j i)) l.

(** [l[i] = x] *)
Fixpoint assign (l : list spec_float) (i : nat) (x : spec_float)
  : list spec_float :=
  match l, i with
  | [], _ => []
  | _ :: t, O => x :: t
  | h :: t, S i' => h :: assign t i' x
  end.

(** A call under way: the events it has still to produce, the indices
    still to move of the transfer at their head, and its output buffer. *)
Record Task : Type := {
  rest : list Event;
  todo : list nat;
  out : list spec_float
}.

(** The task once the event at the head is done. *)
Definition after (k : Task) (r : list Event) : Task :=
  {| rest := r; todo := bins; out := out k |}.

Inductive Action : Type :=
| Go (t : thread)                (* the next event of [t], a transfer once
                                    all its floats are moved *)
| Move (t : thread) (i : nat).   (* float [i] of the transfer [t] is at *)

Definition is_summary (e : Event) : bool :=
  match e with EvGetSummary => true | _ => false end.

(** The calls of [getSummary] among the events. *)
Definition writes (ev : list Event) : nat := length (filter is_summary ev).

(** The events of a call that returned. *)
Definition events_of (T : Type) (r : exec (T * list Event)) : list Event :=
  match r with
  | Done (_, ev) => ev
  | _ => []
  end.

Section Machine.
Variable P : Platform.

Record System : Type := {
  stored : list spec_float;     (* [this->fingerprint] *)
  owner : option thread;        (* the thread that holds the mutex *)
  history : Spectrogram P;      (* [this->spectrogram] *)
  tasks : thread -> Task
}.

Definition holds (s : System) (t : thread) : bool :=
  match owner s with
  | Some t' => thread_eqb t t'
  | None => false
  end.

Definition set_task (s : System) (t : thread) (k : Task) : thread -> Task :=
  fun t' => if thread_eqb t' t then k else tasks s t'.

(** Thread [t] is done with the event at the head of its task. *)
Definition proceed (s : System) (t : thread) (r : list Event) : System :=
  {| stored := stored s; owner := owner s; history := history s;
     tasks := set_task s t (after (tasks s t) r) |}.

(** One step of one thread; [None] when the thread cannot take it: it has
    returned, it waits for the mutex, or the float is not one it has still
    to move. *)
Definition step (a : Action) (s : System) : option System :=
  match a with
  | Go t =>
      match rest (tasks s t) with
      | [] => None
      | EvLock rc :: r =>
          if rc =? 0 then
            match owner s with
            | None =>
                Some {| stored := stored s; owner := Some t;
                        history := history s;
                        tasks := set_task s t (after (tasks s t) r) |}
            | Some _ => None
            end
          else Some (proceed s t r)
      | EvUnlock :: r =>
          Some {| stored := stored s;
                  owner := if holds s t then None else owner s;
                  history := history s;
                  tasks := set_task s t (after (tasks s t) r) |}
      | EvUpdate sp :: r =>
          Some {| stored := stored s; owner := owner s;
                  history := update P (history s) sp;
                  tasks := set_task s t (after (tasks s t) r) |}
      | EvGetSummary :: r | EvCopyOut :: r =>
          match todo (tasks s t) with
          | [] => Some (proceed s t r)
          | _ :: _ => None
          end
      | _ :: r => Some (proceed s t r)
      end
  | Move t i =>
      let k := tasks s t in
      match rest k with
      | EvGetSummary :: _ =>
          if mem i (todo k) then
            Some {| stored :=
                      assign (stored s) i
                        (nth i (getSummary P (history s)) F32.zero);
                    owner := owner s; history := history s;
                    tasks := set_task s t
                               {| rest := rest k; todo := drop i (todo k);
                                  out := out k |} |}
          else None
      | EvCopyOut :: _ =>
          if mem i (todo k) then
            Some {| stored := stored s; owner := owner s;
                    history := history s;
                    tasks := set_task s t
                               {| rest := rest k; todo := drop i (todo k);
                                  out := assign (out k) i
                                           (nth i (stored s) F32.zero) |} |}
          else None
      | _ => None
      end
  end.

Fixpoint run_schedule (schedule : list Action) (s : System) : option System :=
  match schedule with
  | [] => Some s
  | a :: schedule' =>
      match step a s with
      | Some s' => run_schedule schedule' s'
      | None => None
      end
  end.

(** The events each thread has before it: those of the callback on [w]
    for the audio thread, those of [getFingerprint] on [w] with the buffer
    [outBufs k] for caller [k]. *)
Definition program (w : Fingerprinter P) (inNumberFrames : Z)
    (render : option (list Z)) (outBufs : nat -> list spec_float)
    (t : thread) : list Event :=
  match t with
  | Producer => events_of (callback w inNumberFrames render)
  | Consumer k => events_of (getFingerprint w (outBufs k))
  end.

(** All calls are about to start on the object [w], whose mutex no thread
    holds. *)
Definition initial (w : Fingerprinter P) (inNumberFrames : Z)
    (render : option (list Z)) (outBufs : nat -> list spec_float) : System :=
  {| stored := fingerprint w; owner := None; history := spectrogram w;
     tasks := fun t =>
       {| rest := program w inNumberFrames render outBufs t;
          todo := bins;
          out := match t with Consumer k => outBufs k | Producer => [] end |} |}.

(** The fingerprints the events store one after the other, the history
    being [sp] at their start. *)
Fixpoint versions (sp : Spectrogram P) (ev : list Event)
  : list (list spec_float) :=
  match ev with
  | [] => []
  | EvUpdate s :: ev' => versions (update P sp s) ev'
  | EvGetSummary :: ev' => getSummary P sp :: versions sp ev'
  | _ :: ev' => versions sp ev'
  end.

(** Thread [t] taking the event at its head, its floats first if it is a
    transfer, and the thread running its call to the end. *)
Definition event_alone (t : thread) (e : Event) : list Action :=
  match e with
  | EvGetSummary | EvCopyOut => map (Move t) bins ++ [Go t]
  | _ => [Go t]
  end.

Definition alone (t : thread) (ev : list Event) : list Action :=
  flat_map (event_alone t) ev.

(** A [getFingerprint] on its way, the stored fingerprint being [st]: it
    has not locked yet; it copies, the floats still to move are among the
    first [fpLength], and what it has copied is what is stored; it has
    copied all; it has returned, and if it had anything to do, its buffer
    holds one of the versions [seen]. *)
Definition snapshot_state (seen : list (list spec_float)) (started : Prop)
    (st : list spec_float) (c : Task) : Prop :=
  (rest c = [EvLock 0; EvCopyOut; EvUnlock] /\
   (Z.to_nat fpLength <= length (out c))%nat) \/
  (rest c = [EvCopyOut; EvUnlock] /\
   (Z.to_nat fpLength <= length (out c))%nat /\
   (forall i, mem i (todo c) = true -> (i < Z.to_nat fpLength)%nat) /\
   forall i, (i < Z.to_nat fpLength)%nat -> mem i (todo c) = false ->
     nth_error (out c) i = nth_error st i) \/
  (rest c = [EvUnlock] /\
   firstn (Z.to_nat fpLength) (out c) = st) \/
  (rest c = [] /\
   (started -> In (firstn (Z.to_nat fpLength) (out c)) seen)).

(** The callback on its way, [current] being the version stored last:
    while it writes a summary, the floats already moved are those of the
    summary and the others those of [current]; otherwise [current] is what
    is stored. *)
Definition writer_state (current : list spec_float) (sp : Spectrogram P)
    (st : list spec_float) (p : Task) : Prop :=
  match rest p with
  | EvGetSummary :: _ =>
      forall i, (i < Z.to_nat fpLength)%nat ->
        nth_error st i =
        if mem i (todo p) then nth_error current i
        else nth_error (getSummary P sp) i
  | _ => st = current
  end.

(** What holds in every state a schedule leads to, [first] being the
    fingerprint stored at the start, [all] the versions the callback is to
    store, [seen] those it has stored so far, [started k] telling whether
    caller [k] had anything to do, and [bufs k] being the buffer it came
    with. *)
Record invariant (first : list spec_float) (all : list (list spec_float))
    (started : nat -> Prop) (bufs : nat -> list spec_float)
    (seen : list (list spec_float)) (s : System)
  : Prop := {
  inv_length : length (stored s) = Z.to_nat fpLength;
  inv_discipline : forall t,
    discipline (holds s t) (rest (tasks s t)) = Some false;
  inv_versions :
    seen ++ versions (history s) (rest (tasks s Producer)) = all;
  inv_stored :
    writer_state (last seen first) (history s) (stored s) (tasks s Producer);
  inv_consumer : forall k,
    snapshot_state (first :: seen) (started k) (stored s)
      (tasks s (Consumer k));
  inv_tail : forall k,
    skipn (Z.to_nat fpLength) (out (tasks s (Consumer k)))
    = skipn (Z.to_nat fpLength) (bufs k)
}.

(** The callback has returned, leaving [final] stored, and caller [k] has
    not returned before. *)
Definition late (final : list spec_float) (k : nat) (s : System) : Prop :=
  rest (tasks s Producer) = [] /\
  stored s = final /\
  (rest (tasks s (Consumer k)) = [] ->
   firstn (Z.to_nat fpLength) (out (tasks s (Consumer k))) = final).

End Machine.
End Shared.

(** ** Audio set-up (lines 203-340)

    [setupRemoteIO] and [propListener] talk to the audio unit and the
    audio session; what these answer is given by records of replies, one
    [OSStatus] for each call in program order. [XThrowIfError] throws on a
    status other than zero, and the [catch] that follows prints the
    operation. Of the object only the fields of [Fingerprinter] are kept:
    the handle [rioUnit], [hwSampleRate] and the stream format are not
    modelled, and the allocations do not fail. *)

(** What [new float[n]] returns: [n] floats of indeterminate value,
    [junk i] standing for whatever the memory held at element [i]. *)
Definition new_floats (junk : nat -> spec_float) (n : Z) : list spec_float :=
  map junk (seq 0 (Z.to_nat n)).

(** What the allocations of [setupRemoteIO] find in memory, array by
    array, and the coefficients [vDSP_hamm_window] writes over the whole of
    [hamm]. *)
Record Heap : Type := {
  heap_A : nat -> spec_float;
  heap_acc : nat -> spec_float;
  hamm_window : nat -> spec_float;
  heap_frameBuffer : nat -> spec_float;
  heap_realp : nat -> spec_float;
  heap_imagp : nat -> spec_float
}.

(** Lines 274-295: the callback data of a new unit. *)
Definition new_CallbackData (h : Heap) : exec CallbackData :=
  let A0 := new_floats (heap_A h) (2 * specRes) in
  acc0 <- vDSP_vfill F32.zero (new_floats (heap_acc h) fpLength) fpLength ;;
  let hamm0 := new_floats (hamm_window h) specRes in
  let fbLen0 := fbLen_setup in
  Done {| A := A0; hamm := hamm0; acc := acc0; accCount := 0;
          frameBuffer := new_floats (heap_frameBuffer h) fbLen0;
          fbIndex := 0; startIndex := 0; fbLen := fbLen0;
          realp := new_floats (heap_realp h) specRes;
          imagp := new_floats (heap_imagp h) specRes |}.

(** The [OSStatus] of the six audio-unit calls of [setupRemoteIO], in
    program order. *)
Record SetupReplies : Type := {
  instanceNew : Z;
  enableIO : Z;
  setRenderCallback : Z;
  setInputFormat : Z;
  setOutputFormat : Z;
  initialize : Z
}.

(** [setupRemoteIO]: the [int] it returns, the callback data registered
    with the new unit's render callback at line 301 (none when it did not
    come to that), and the operation reported on [stderr]. *)
Definition setupRemoteIO (r : SetupReplies) (h : Heap)
  : exec (Z * option CallbackData * list Event) :=
  if instanceNew r =? 0 then
    if enableIO r =? 0 then
      d <- new_CallbackData h ;;
      if setRenderCallback r =? 0 then
        if setInputFormat r =? 0 then
          if setOutputFormat r =? 0 then
            if initialize r =? 0 then Done (0, Some d, [])
            else Done (1, Some d,
                       [EvStderr "couldn't initialize the remote I/O unit"%string])
          else Done (1, Some d,
                     [EvStderr "couldn't set the remote I/O unit's input client format"%string])
        else Done (1, Some d,
                   [EvStderr "couldn't set the remote I/O unit's output client format"%string])
      else Done (1, None,
                 [EvStderr "couldn't set remote i/o render callback"%string])
    else Done (1, None,
               [EvStderr "couldn't enable input on the remote I/O unit"%string])
  else Done (1, None, [EvStderr "couldn't open the remote I/O unit"%string]).

(** What a route change leaves of the render callback: the old unit and
    its callback data are untouched, a new unit renders into new callback
    data, or the old unit is gone and no callback is registered. *)
Inductive RenderCallback : Type :=
| Kept
| Replaced
| Removed.

(** The [OSStatus] of the calls of [propListener] on a route change, with
    the replies to the [setupRemoteIO] in between. *)
Record RouteReplies : Type := {
  dispose : Z;
  setup : SetupReplies;
  getSampleRate : Z;
  startUnit : Z;
  getRoute : Z;
  newRoute : option string
}.

Section Listeners.
Variable P : Platform.

(** Lines 227-235: [CFShow] prints the route, then the two names are
    looked for. *)
Definition route_events (route : option string) : list Event :=
  match route with
  | Some name =>
      EvStderr name ::
      (if String.eqb name "Headset" then [EvStdout "headset plugged in"%string]
       else if String.eqb name "Receiver"
            then [EvStdout "headset un-plugged"%string]
            else [])
  | None => []
  end.

(** [propListener]; [route_change] is the outcome of
    [inID == kAudioSessionProperty_AudioRouteChange]. The value of
    [setupRemoteIO] is not looked at. *)
Definition propListener (w : Fingerprinter P) (route_change : bool)
    (r : RouteReplies) (h : Heap)
  : exec (Fingerprinter P * RenderCallback * list Event) :=
  let ev0 := [EvStdout "audio session property change"%string] in
  if route_change then
    if dispose r =? 0 then
      '(_, registered, ev1) <- setupRemoteIO (setup r) h ;;
      let w1 := match registered with Some d => set_cd w d | None => w end in
      let rc := match registered with Some _ => Replaced | None => Removed end in
      if getSampleRate r =? 0 then
        if startUnit r =? 0 then
          if getRoute r =? 0
          then Done (w1, rc, ev0 ++ ev1 ++ route_events (newRoute r))
          else Done (w1, rc,
                     ev0 ++ ev1 ++ [EvStderr "couldn't get new audio route"%string])
        else Done (w1, rc, ev0 ++ ev1 ++ [EvStderr "couldn't start unit"%string])
      else Done (w1, rc,
                 ev0 ++ ev1 ++ [EvStderr "couldn't get new sample rate"%string])
    else Done (w, Kept, ev0 ++ [EvStderr "couldn't dispose remote i/o unit"%string])
  else Done (w, Kept, ev0).

End Listeners.

(** Every call of [setupRemoteIO] returned [noErr]. *)
Definition all_succeed (r : SetupReplies) : Prop :=
  instanceNew r = 0 /\ enableIO r = 0 /\ setRenderCallback r = 0 /\
  setInputFormat r = 0 /\ setOutputFormat r = 0 /\ initialize r = 0.

(** Callback data as [setupRemoteIO] makes them. *)
Definition fresh_data (d : CallbackData) : Prop :=
  len (A d) = 2 * specRes /\ len (hamm d) = specRes /\
  acc d = repeat F32.zero (Z.to_nat fpLength) /\ accCount d = 0 /\
  len (frameBuffer d) = fbLen_setup /\ fbLen d = fbLen_setup /\
  fbIndex d = 0 /\ startIndex d = 0 /\
  len (realp d) = specRes /\ len (imagp d) = specRes.


(** ** A platform to evaluate the code on

    The general theorems below hold for every platform; this one serves to
    run the code on concrete inputs. *)

Module Eval.

(** Modelled from the spec: the Spectrogram History (Spectrogram.cpp and
    SlidingWindow are not among the sources). One bounded FIFO per bin,
    of depth [historyCount]; the summary of a bin is the nearest-rank 5th
    percentile of its history, [0] when the history is empty. *)
Definition History : Type := list (list spec_float).

Definition push (x : spec_float) (win : list spec_float) : list spec_float :=
  let win' := win ++ [x] in
  if len win' >? historyCount then tl win' else win'.

Definition bins : list nat := seq 0 (Z.to_nat fpLength).

Definition hist_update (h : History) (s : list spec_float) : History :=
  map (fun i => push (nth i s F32.zero) (nth i h [])) bins.

Fixpoint insert_sorted (x : spec_float) (l : list spec_float) : list spec_float :=
  match l with
  | [] => [x]
  | y :: l' => if SFleb x y then x :: l else y :: insert_sorted x l'
  end.

Definition sort (l : list spec_float) : list spec_float :=
  fold_right insert_sorted [] l.

Definition percentile5 (win : list spec_float) : spec_float :=
  let rank := ((length win + 19) / 20)%nat in
  nth (rank - 1) (sort win) F32.zero.

Definition hist_summary (h : History) : list spec_float :=
  map (fun i => percentile5 (nth i h [])) bins.

(** Stand-in for the FFT: the radix-2 butterfly network with every
    twiddle factor taken as [1], on the real and on the imaginary parts.
    Like the transform, each output depends on every input. *)
Fixpoint butterflies (stages : nat) (l : list spec_float) : list spec_float :=
  match stages with
  | O => l
  | S stages' =>
      let h := (length l / 2)%nat in
      let a := butterflies stages' (firstn h l) in
      let b := butterflies stages' (skipn h l) in
      zip_with F32.add a b ++ zip_with (fun x y => F32.add x (SFopp y)) a b
  end.

Definition transform (l : list spec_float) (log2n : Z) : list spec_float :=
  if len l =? 2 ^ log2n then butterflies (Z.to_nat log2n) l else l.

Definition butterfly_fft (re im : list spec_float) (log2n : Z)
  : list spec_float * list spec_float :=
  (transform re log2n, transform im log2n).

(** Stand-in for the logarithm: [log10 2] times the binary exponent;
    not a number below zero, minus infinity at zero. *)
Definition coarse_log10 (x : spec_float) : spec_float :=
  match x with
  | S754_nan => S754_nan
  | S754_zero _ => S754_infinity true
  | S754_infinity s => if s then S754_nan else x
  | S754_finite s m e =>
      if s then S754_nan
      else F32.mul (F32.of_Z (Z.log2 (Zpos m) + e))
                   (F32.div (F32.of_Z 30103) (F32.of_Z 100000))
  end.

Definition platform : Platform :=
  {| Spectrogram := History; update := hist_update;
     getSummary := hist_summary;
     fft_zip := butterfly_fft; log10f := coarse_log10 |}.

Definition zeros (n : Z) : list spec_float := repeat F32.zero (Z.to_nat n).

(** A freshly constructed object whose allocations happen to be zeroed,
    with a flat window function. *)
Definition fresh : Fingerprinter platform :=
  Fingerprinter_new platform true [] (repeat F32.one (Z.to_nat specRes))
    (zeros (2 * specRes)) (zeros fbLen_setup) (zeros specRes) (zeros specRes).

(** The same, except that the uninitialised upper half of the scratch
    buffer [A] holds one not-a-number bit pattern. *)
Definition fresh_dirty : Fingerprinter platform :=
  Fingerprinter_new platform true [] (repeat F32.one (Z.to_nat specRes))
    (zeros specRes ++ S754_nan :: zeros (specRes - 1))
    (zeros fbLen_setup) (zeros specRes) (zeros specRes).

(** [n] samples counting up from [first]. *)
Definition ramp (first n : Z) : list Z :=
  map (fun k => first + Z.of_nat k) (seq 0 (Z.to_nat n)).

(** [count] buffers of [specRes] samples, one ramp cut in pieces. *)
Definition ramps (count : nat) : list (list Z) :=
  map (fun j => ramp (specRes * Z.of_nat j) specRes) (seq 0 count).

(** What is looked at after a run: the cursors, the counter, the first
    accumulator element, the windows analysed and the mutex. *)
Definition digest (r : exec (Fingerprinter platform * list Event))
  : option (Z * Z * Z * spec_float * list Z * mutex) :=
  match r with
  | Done (w, ev) =>
      Some (fbIndex (cd w), startIndex (cd w), accCount (cd w),
            hd F32.zero (acc (cd w)), windows_of ev, lock w)
  | _ => None
  end.

(** What the end of a cycle hands over and leaves behind: whether the
    loop goes on, the spectra handed to [update], the accumulator and the
    counter. *)
Definition emission (r : exec (flow platform * list Event))
  : option (bool * list (list spec_float) * list spec_float * Z) :=
  match r with
  | Done (f, ev) =>
      Some (match f with Next _ => true | Return _ _ => false end,
            spectra_of ev, acc (cd (flow_state f)),
            accCount (cd (flow_state f)))
  | _ => None
  end.

(** An object one window short of the end of a cycle, the accumulator
    holding a sum of 160 in every bin. *)
Definition cycle_end : Fingerprinter platform :=
  set_cd fresh (set_acc (cd fresh) (repeat (F32.of_Z 160) (Z.to_nat fpLength)) 9).

(** The same with a not-a-number in the first bin. *)
Definition cycle_end_nan : Fingerprinter platform :=
  set_cd fresh
    (set_acc (cd fresh)
       (S754_nan :: repeat (F32.of_Z 160) (Z.to_nat fpLength - 1)) 9).

(** The cursors, the last [k] windows analysed and the frame buffer at
    the positions [at_]. *)
Definition probe (k : nat) (at_ : list Z)
    (r : exec (Fingerprinter platform * list Event))
  : option (Z * Z * list Z * list spec_float) :=
  match r with
  | Done (w, ev) =>
      Some (fbIndex (cd w), startIndex (cd w),
            rev (firstn k (rev (windows_of ev))),
            map (fun i => nth (Z.to_nat i) (frameBuffer (cd w)) S754_nan) at_)
  | _ => None
  end.

(** A vector of zeros and a vector of ones. *)
Definition old_fp : list spec_float := zeros fpLength.
Definition new_fp : list spec_float := repeat F32.one (Z.to_nat fpLength).

(** An object holding 2048 samples of silence, none analysed yet. *)
Definition primed : Fingerprinter platform :=
  set_cd fresh
    {| A := A (cd fresh); hamm := hamm (cd fresh); acc := acc (cd fresh);
       accCount := 0; frameBuffer := frameBuffer (cd fresh);
       fbIndex := 2048; startIndex := 0; fbLen := fbLen (cd fresh);
       realp := realp (cd fresh); imagp := imagp (cd fresh) |}.

(** The callback data with the frame buffer filled up to 21504 by the
    samples [0, 1, 2, ...], analysed up to 20727. *)
Definition nearly_full : CallbackData :=
  {| A := A (cd fresh); hamm := hamm (cd fresh); acc := acc (cd fresh);
     accCount := 7; frameBuffer := map F32.of_Z (ramp 0 fbLen_setup);
     fbIndex := 21504; startIndex := 20727; fbLen := fbLen_setup;
     realp := realp (cd fresh); imagp := imagp (cd fresh) |}.

Definition au_running : AudioUnitReplies :=
  {| startStatus := 0; formatStatus := 0; runningStatus := 0; running := 1 |}.

Definition au_not_running : AudioUnitReplies :=
  {| startStatus := 0; formatStatus := 0; runningStatus := 0; running := 0 |}.


(** A start, a callback and a snapshot. *)
Definition session : list Call :=
  [CallStart au_running;
   CallAudio 1024 (Some (ramp 0 1024));
   CallGetFingerprint (zeros fpLength)].

(** [allocated], and a full frame buffer with [startIndex] in its lower
    half, as a test. *)
Definition full_with_stale_start (w : Fingerprinter platform) : bool :=
  (len (A (cd w)) =? 2 * specRes) && (len (hamm (cd w)) =? specRes)
  && (len (acc (cd w)) =? fpLength)
  && (len (frameBuffer (cd w)) =? fbLen (cd w))
  && (fbLen (cd w) =? fbLen_setup)
  && (len (realp (cd w)) =? specRes) && (len (imagp (cd w)) =? specRes)
  && (len (fingerprint w) =? fpLength)
  && (fbLen (cd w) - 1024 <=? fbIndex (cd w))
  && (fbIndex (cd w) <=? fbLen (cd w))
  && (0 <=? startIndex (cd w))
  && (startIndex (cd w) <? fbLen (cd w) / 2).

(** The object one window short of the end of a cycle, set running. *)
Definition live : Fingerprinter platform := set_unitIsRunning cycle_end true.

(** The same object, had [pthread_mutex_init] failed. *)
Definition broken : Fingerprinter platform := set_lock live MxInvalid.

(** Every caller of [getFingerprint] brings a buffer of zeros. *)
Definition callers : nat -> list spec_float := fun _ => zeros fpLength.

(** The events of the callback that ends the cycle, and of a
    [getFingerprint]. *)
Definition audio_events (w : Fingerprinter platform) : list Event :=
  Shared.events_of (callback w 1024 (Some (ramp 0 1024))).

Definition snapshot_events (w : Fingerprinter platform) : list Event :=
  Shared.events_of (getFingerprint w (zeros fpLength)).

(** The callback analyses its window; caller 0 locks, copies and unlocks;
    the callback locks, hands its spectrum over, writes the summary and
    unlocks. Then caller 1 locks, copies and unlocks. *)
Definition schedule_before : list Shared.Action :=
  Shared.Go Shared.Producer
    :: Shared.alone (Shared.Consumer 0) (snapshot_events live)
    ++ Shared.alone Shared.Producer (tl (audio_events live)).

Definition schedule_after : list Shared.Action :=
  Shared.alone (Shared.Consumer 1) (snapshot_events live).

(** On the object whose mutex is invalid: caller 0 is refused the lock,
    prints, and copies the first float; the callback runs from its start
    to its return; caller 0 copies the other floats and returns. *)
Definition schedule_mixed : list Shared.Action :=
  [Shared.Go (Shared.Consumer 0); Shared.Go (Shared.Consumer 0);
   Shared.Move (Shared.Consumer 0) 0]
    ++ Shared.alone Shared.Producer (audio_events broken)
    ++ map (Shared.Move (Shared.Consumer 0)) (tl Shared.bins)
    ++ [Shared.Go (Shared.Consumer 0); Shared.Go (Shared.Consumer 0)].

(** What is looked at after a schedule: the events caller [k] has still
    before it, the first two floats of its buffer and of the stored
    fingerprint, and the owner of the mutex. *)
Definition glimpse (k : nat) (r : option (Shared.System platform))
  : option (list Event * list spec_float * list spec_float
            * option Shared.thread) :=
  match r with
  | Some s =>
      Some (Shared.rest (Shared.tasks s (Shared.Consumer k)),
            firstn 2 (Shared.out (Shared.tasks s (Shared.Consumer k))),
            firstn 2 (Shared.stored s), Shared.owner s)
  | None => None
  end.

End Eval.

(** * Theorems *)

(** ** Constants *)

Lemma stepSize_eq : stepSize = 441.
Proof. vm_compute. reflexivity. Qed.

Lemma fpLength_eq : fpLength = 325.
Proof. vm_compute. reflexivity. Qed.

Lemma historyCount_eq : historyCount = 100.
Proof. vm_compute. reflexivity. Qed.

Lemma fbLen_setup_eq : fbLen_setup = 22050.
Proof. vm_compute. reflexivity. Qed.

Lemma windowFrames_eq : windowFrames = 1024.
Proof. reflexivity. Qed.

Lemma reference_eq : reference = F32.of_Z accumulationNum.
Proof. vm_compute. reflexivity. Qed.

(** The derived constants are used through the equations above. *)
#[global] Opaque fpLength historyCount stepSize fbLen_setup reference
  windowOffset freqCutoff.

(** C9: with the constants of the source, the code's [fpLength] (a binary32
    product divided in binary64 and truncated) is 325, the whole part of
    [specRes * freqCutoff / (sampleRate / 2)], and the code's [historyCount]
    (an integer division followed by a binary32 division by [0.01f] and a
    truncation) is 100, the value of
    [historyTime / (accumulationNum * windowOffset)]. *)
Theorem derived_constants :
  fpLength = 325 /\ Qfloor fpLength_formula = fpLength /\
  historyCount = 100 /\ Qeq historyCount_formula (inject_Z historyCount).
Proof.
  repeat split; try exact fpLength_eq; try exact historyCount_eq;
    vm_compute; reflexivity.
Qed.

(** ** Arrays *)

Section ArrayFacts.
Variable T : Type.
Implicit Types buf src l : list T.

Lemma in_bounds_true buf off n :
  in_bounds buf off n = true <-> 0 <= off /\ 0 <= n /\ off + n <= len buf.
Proof.
  unfold in_bounds. rewrite !andb_true_iff, !Z.leb_le. tauto.
Qed.

Lemma load_inv buf off n l :
  load buf off n = Done l ->
  in_bounds buf off n = true /\
  l = firstn (Z.to_nat n) (skipn (Z.to_nat off) buf).
Proof.
  unfold load. destruct (in_bounds buf off n); [|discriminate].
  intros H; inversion H; auto.
Qed.

Lemma load_ok buf off n :
  0 <= off -> 0 <= n -> off + n <= len buf ->
  load buf off n = Done (firstn (Z.to_nat n) (skipn (Z.to_nat off) buf)).
Proof.
  intros. unfold load.
  replace (in_bounds buf off n) with true; [reflexivity|].
  symmetry. apply in_bounds_true. auto.
Qed.

Lemma load_len buf off n l : load buf off n = Done l -> len l = n.
Proof.
  intros H. apply load_inv in H. destruct H as [Hb ->].
  apply in_bounds_true in Hb. unfold len in *.
  rewrite length_firstn, length_skipn. lia.
Qed.

Lemma load_all buf : load buf 0 (len buf) = Done buf.
Proof.
  rewrite load_ok; unfold len; try lia.
  rewrite Nat2Z.id. simpl. rewrite firstn_all. reflexivity.
Qed.

Lemma store_inv buf off src l :
  store buf off src = Done l ->
  in_bounds buf off (len src) = true /\
  l = firstn (Z.to_nat off) buf ++ src
        ++ skipn (Z.to_nat off + length src) buf.
Proof.
  unfold store. destruct (in_bounds buf off (len src)); [|discriminate].
  intros H; inversion H; auto.
Qed.

Lemma store_ok buf off src :
  0 <= off -> off + len src <= len buf ->
  store buf off src =
  Done (firstn (Z.to_nat off) buf ++ src
          ++ skipn (Z.to_nat off + length src) buf).
Proof.
  intros. unfold store.
  replace (in_bounds buf off (len src)) with true; [reflexivity|].
  symmetry. apply in_bounds_true. unfold len in *. lia.
Qed.

Lemma store_len buf off src l : store buf off src = Done l -> len l = len buf.
Proof.
  intros H. apply store_inv in H. destruct H as [Hb ->].
  apply in_bounds_true in Hb. unfold len in *.
  rewrite !length_app, length_firstn, length_skipn. lia.
Qed.

Lemma store_all buf src : len src = len buf -> store buf 0 src = Done src.
Proof.
  intros H. rewrite store_ok; try lia. simpl.
  rewrite skipn_all2; [rewrite app_nil_r; reflexivity|].
  unfold len in H. lia.
Qed.

Lemma zip_with_length (f : T -> T -> T) a b :
  length a = length b -> length (zip_with f a b) = length a.
Proof.
  revert b. induction a as [|x a IH]; intros [|y b] H; simpl in *;
    try discriminate; auto.
Qed.

Lemma evens_odds_length l :
  (length (evens l) + length (odds l) = length l)%nat /\
  (length (odds l) <= length (evens l) <= S (length (odds l)))%nat.
Proof.
  induction l as [|x l IH]; simpl; [lia|].
  destruct l as [|y l]; simpl in *; lia.
Qed.
End ArrayFacts.

(** ** The public members *)

Section Members.
Variable P : Platform.
Implicit Types w : Fingerprinter P.

Lemma memcpy_prefix (T : Type) (dst src : list T) n :
  len src = n -> n <= len dst ->
  memcpy dst 0 src 0 n = Done (src ++ skipn (Z.to_nat n) dst).
Proof.
  intros Hs Hd. unfold memcpy. subst n. rewrite load_all. simpl.
  rewrite store_ok by (unfold len in *; lia). simpl.
  unfold len. rewrite Nat2Z.id. reflexivity.
Qed.

(** C6: while the object is not running [getFingerprint] returns false and
    hands the caller's buffer back as it was, with no effect at all; while
    it is running it returns true with the [fpLength] floats of the stored
    fingerprint at the front of the buffer, and with a valid mutex the copy
    sits between a successful lock and the unlock. *)
Theorem getFingerprint_copies_only_when_running w (outBuf : list spec_float) :
  (unitIsRunning w = false ->
   getFingerprint w outBuf = Done (false, outBuf, w, [])) /\
  (unitIsRunning w = true ->
   len (fingerprint w) = fpLength -> fpLength <= len outBuf ->
   exists ev,
     getFingerprint w outBuf =
     Done (true, fingerprint w ++ skipn (Z.to_nat fpLength) outBuf,
           set_lock w (pthread_mutex_unlock (lock w)), ev) /\
     (lock w <> MxInvalid ->
      ev = [EvLock 0; EvCopyOut; EvUnlock] /\
      discipline false ev = Some false)).
Proof.
  split; intros Hrun.
  - unfold getFingerprint. rewrite Hrun. reflexivity.
  - intros Hfp Hout. unfold getFingerprint. rewrite Hrun.
    destruct (lock w) eqn:Hl; simpl;
      rewrite (@memcpy_prefix _ outBuf (fingerprint w) fpLength Hfp Hout); simpl;
      eexists; (split; [reflexivity|]); intros Hv;
      try congruence; split; reflexivity.
Qed.

(** The running flag is set by [startRecording] alone, and only on the
    unit's word; the callback and [getFingerprint] leave it alone. *)
Lemma startRecording_flag w au r w' ev :
  startRecording w au = (r, w', ev) ->
  unitIsRunning w' = unitIsRunning w \/
  (unitIsRunning w = false /\ unitIsRunning w' = true /\ running au <> 0).
Proof.
  unfold startRecording.
  destruct (unitIsRunning w) eqn:Hr; simpl.
  - intros E; inversion E; subst. left. congruence.
  - destruct (startStatus au =? 0);
      [|intros E; inversion E; subst; left; congruence].
    destruct (formatStatus au =? 0);
      [|intros E; inversion E; subst; left; congruence].
    destruct (runningStatus au =? 0);
      [|intros E; inversion E; subst; left; congruence].
    destruct (running au =? 0) eqn:Erun;
      intros E; inversion E; subst.
    + left. congruence.
    + right. repeat split. apply Z.eqb_neq. exact Erun.
Qed.

(** C7: [startRecording] on a running object and [stopRecording] on an
    idle one change nothing, call nothing and return the running flag; when
    [startRecording] on an idle object returns true, the unit was started,
    answered the [IsRunning] query without error, and answered it with a
    value other than zero; and whatever [startRecording] returns, the flag
    is set afterwards only if it was set before or the unit answered that it
    runs. *)
Theorem start_stop_idempotent_and_verified w (au : AudioUnitReplies)
    (stopStatus : Z) :
  (unitIsRunning w = true ->
   startRecording w au = (Returns true, w, [])) /\
  (unitIsRunning w = false ->
   stopRecording w stopStatus = (Returns false, w, [])) /\
  (forall w' ev,
      unitIsRunning w = false ->
      startRecording w au = (Returns true, w', ev) ->
      startStatus au = 0 /\ runningStatus au = 0 /\ running au <> 0 /\
      w' = set_unitIsRunning w true) /\
  (forall r w' ev,
      startRecording w au = (r, w', ev) ->
      unitIsRunning w' = true ->
      unitIsRunning w = true \/ running au <> 0).
Proof.
  assert (Hflag : forall r w' ev,
             startRecording w au = (r, w', ev) ->
             unitIsRunning w' = true ->
             unitIsRunning w = true \/ running au <> 0).
  { intros r w' ev E Hset.
    destruct (startRecording_flag w au E) as [Hsame|(_ & _ & Hrun)].
    - left. congruence.
    - right. exact Hrun. }
  split; [|split; [|split; [|exact Hflag]]]; repeat split.
  - intros H. unfold startRecording. rewrite H. reflexivity.
  - intros H. unfold stopRecording. rewrite H. reflexivity.
  - revert H0. unfold startRecording. rewrite H. simpl.
    destruct (startStatus au =? 0) eqn:E; [|discriminate].
    intros _. apply Z.eqb_eq. exact E.
  - revert H0. unfold startRecording. rewrite H. simpl.
    destruct (startStatus au =? 0); [|discriminate].
    destruct (formatStatus au =? 0); [|discriminate].
    destruct (runningStatus au =? 0) eqn:E; [|discriminate].
    intros _. apply Z.eqb_eq. exact E.
  - revert H0. unfold startRecording. rewrite H. simpl.
    destruct (startStatus au =? 0); [|discriminate].
    destruct (formatStatus au =? 0); [|discriminate].
    destruct (runningStatus au =? 0); [|discriminate].
    destruct (running au =? 0) eqn:E; [discriminate|].
    intros _. apply Z.eqb_neq. exact E.
  - revert H0. unfold startRecording. rewrite H. simpl.
    destruct (startStatus au =? 0); [|discriminate].
    destruct (formatStatus au =? 0); [|discriminate].
    destruct (runningStatus au =? 0); [|discriminate].
    destruct (running au =? 0); [discriminate|].
    intros E. inversion E. reflexivity.
Qed.

Lemma stopRecording_flag w st r w' ev :
  stopRecording w st = (r, w', ev) ->
  unitIsRunning w' = unitIsRunning w \/ unitIsRunning w' = false.
Proof.
  unfold stopRecording.
  destruct (unitIsRunning w) eqn:Hr; simpl.
  - destruct (st =? 0); intros E; inversion E; subst; simpl; auto.
  - intros E; inversion E; subst. auto.
Qed.

Lemma getFingerprint_flag w outBuf ok out w' ev :
  getFingerprint w outBuf = Done (ok, out, w', ev) ->
  unitIsRunning w' = unitIsRunning w /\ ok = unitIsRunning w.
Proof.
  unfold getFingerprint.
  destruct (unitIsRunning w) eqn:Hr.
  - destruct (pthread_mutex_lock (lock w)) as [rc held].
    destruct (memcpy outBuf 0 (fingerprint w) 0 fpLength); simpl;
      try discriminate.
    intros E; inversion E; subst. simpl. auto.
  - intros E; inversion E; subst. auto.
Qed.
End Members.

(** ** The audio callback *)

Ltac exec_inv H :=
  repeat match type of H with
    | bind ?m _ = Done _ =>
        let E := fresh "E" in
        destruct m eqn:E; simpl in H; [|discriminate H|discriminate H]
    | (let '(_, _) := ?p in _) = Done _ => destruct p
    end.

Ltac split_nan H :=
  match type of H with
  | context [nan_test ?x] => destruct (nan_test x) eqn:?
  end.

Lemma discipline_app ev1 ev2 held :
  discipline held (ev1 ++ ev2) =
  match discipline held ev1 with
  | Some held' => discipline held' ev2
  | None => None
  end.
Proof.
  revert held. induction ev1 as [|e ev1 IH]; intros held; simpl; [reflexivity|].
  destruct e; simpl; auto.
  - destruct (rc =? 0); auto. destruct held; auto.
  - destruct held; auto.
  - destruct held; auto.
  - destruct held; auto.
  - destruct held; auto.
Qed.

Section CallbackFacts.
Variable P : Platform.
Implicit Types w : Fingerprinter P.
Implicit Types d : CallbackData.

(** *** What a window leaves alone *)

Lemma analyze_window_frame d d' :
  analyze_window P d = Done d' ->
  frameBuffer d' = frameBuffer d /\ fbIndex d' = fbIndex d /\
  startIndex d' = startIndex d /\ fbLen d' = fbLen d /\
  hamm d' = hamm d /\ accCount d' = accCount d.
Proof.
  unfold analyze_window. intros H. exec_inv H.
  inversion H; subst; simpl. repeat split.
Qed.

Lemma accumulate_frame w f ev :
  accumulate w = Done (f, ev) ->
  unitIsRunning (flow_state f) = unitIsRunning w /\
  frameBuffer (cd (flow_state f)) = frameBuffer (cd w) /\
  fbIndex (cd (flow_state f)) = fbIndex (cd w) /\
  startIndex (cd (flow_state f)) = startIndex (cd w) /\
  fbLen (cd (flow_state f)) = fbLen (cd w) /\
  hamm (cd (flow_state f)) = hamm (cd w) /\
  A (cd (flow_state f)) = A (cd w) /\
  realp (cd (flow_state f)) = realp (cd w) /\
  imagp (cd (flow_state f)) = imagp (cd w).
Proof.
  unfold accumulate. intros H.
  destruct (u32 (s32 (accCount (cd w) + 1)) >=? accumulationNum).
  - destruct (pthread_mutex_lock (lock w)) as [rc held].
    exec_inv H. split_nan H.
    + inversion H; subst; simpl. repeat split.
    + exec_inv H. inversion H; subst; simpl. repeat split.
  - inversion H; subst; simpl. repeat split.
Qed.

Lemma window_step_frame w f ev :
  window_step w = Done (f, ev) ->
  unitIsRunning (flow_state f) = unitIsRunning w /\
  frameBuffer (cd (flow_state f)) = frameBuffer (cd w) /\
  fbIndex (cd (flow_state f)) = fbIndex (cd w) /\
  startIndex (cd (flow_state f)) = startIndex (cd w) /\
  fbLen (cd (flow_state f)) = fbLen (cd w) /\
  hamm (cd (flow_state f)) = hamm (cd w).
Proof.
  unfold window_step. intros H. exec_inv H.
  inversion H; subst.
  apply accumulate_frame in E0. apply analyze_window_frame in E.
  simpl in E0. intuition congruence.
Qed.

(** *** The mutex *)

Lemma accumulate_lock w f ev :
  accumulate w = Done (f, ev) ->
  lock w <> MxHeld ->
  lock (flow_state f) = lock w /\
  (lock w = MxFree -> discipline false ev = Some false).
Proof.
  unfold accumulate. intros H Hl.
  destruct (u32 (s32 (accCount (cd w) + 1)) >=? accumulationNum).
  - destruct (lock w) eqn:El; try congruence; simpl in H;
      exec_inv H; split_nan H;
      try (exec_inv H); inversion H; subst; simpl;
      split; try reflexivity; intros; try discriminate; reflexivity.
  - inversion H; subst; simpl. auto.
Qed.

Lemma window_step_lock w f ev :
  window_step w = Done (f, ev) ->
  lock w <> MxHeld ->
  lock (flow_state f) = lock w /\
  (lock w = MxFree -> discipline false ev = Some false).
Proof.
  unfold window_step. intros H Hl. exec_inv H.
  inversion H; subst.
  apply accumulate_lock in E0; simpl in *; auto.
Qed.

Lemma analysis_loop_lock budget : forall w status w' ev,
  analysis_loop budget w = Done (status, w', ev) ->
  lock w <> MxHeld ->
  lock w' = lock w /\
  (lock w = MxFree -> discipline false ev = Some false).
Proof.
  induction budget as [|budget IH]; intros w status w' ev H Hl; simpl in H.
  - destruct (startIndex (cd w) <=? s32 (fbIndex (cd w) - windowFrames));
      [discriminate|]. inversion H; subst. auto.
  - destruct (startIndex (cd w) <=? s32 (fbIndex (cd w) - windowFrames));
      [|inversion H; subst; auto].
    destruct (window_step w) as [[f ev1]| |] eqn:E; simpl in H;
      try discriminate.
    destruct (window_step_lock w E Hl) as [Hk Hd].
    destruct f as [w1|st w1]; simpl in *.
    + match type of H with
      | bind ?m _ = _ => destruct m as [[[st2 w2] ev2]| |] eqn:E2
      end; simpl in H; try discriminate.
      inversion H; subst.
      apply IH in E2; simpl; [|congruence].
      simpl in E2. destruct E2 as [Hk2 Hd2]. split; [congruence|].
      intros Hf. rewrite discipline_app, (Hd Hf). apply Hd2. congruence.
    + inversion H; subst. auto.
Qed.

Lemma make_room_inv d n d' :
  make_room d n = Done d' ->
  A d' = A d /\ hamm d' = hamm d /\ acc d' = acc d /\
  accCount d' = accCount d /\ fbLen d' = fbLen d /\
  realp d' = realp d /\ imagp d' = imagp d /\
  len (frameBuffer d') = len (frameBuffer d).
Proof.
  unfold make_room. intros H.
  destruct (u32 (fbIndex d) >=? u32 (fbLen d - n)).
  - destruct (memcpy (frameBuffer d) (fbLen d / 2) (frameBuffer d) 0
                (4 * fbLen d / 2 / 4)) as [fb| |] eqn:E;
      simpl in H; try discriminate.
    inversion H; subst; simpl.
    unfold memcpy in E.
    destruct (load (frameBuffer d) 0 (4 * fbLen d / 2 / 4)) eqn:E1;
      simpl in E; try discriminate.
    apply store_len in E. repeat split; assumption.
  - inversion H; subst. repeat split.
Qed.

Lemma append_frames_inv d n data d' out :
  append_frames d n data = Done (d', out) ->
  A d' = A d /\ hamm d' = hamm d /\ acc d' = acc d /\
  accCount d' = accCount d /\ fbLen d' = fbLen d /\
  realp d' = realp d /\ imagp d' = imagp d /\
  len (frameBuffer d') = len (frameBuffer d).
Proof.
  unfold append_frames. intros H.
  destruct (make_room d n) as [d1| |] eqn:E1; simpl in H; try discriminate.
  destruct (vDSP_vflt32 data (frameBuffer d1) (fbIndex d1) n)
    as [fb| |] eqn:E2; simpl in H; try discriminate.
  destruct (vDSP_vfilli 0 data n) as [o| |] eqn:E3; simpl in H;
    try discriminate.
  inversion H; subst; simpl.
  apply make_room_inv in E1.
  unfold vDSP_vflt32 in E2.
  destruct (load data 0 n) eqn:E4; simpl in E2; try discriminate.
  apply store_len in E2. intuition congruence.
Qed.

Lemma discipline_ev0 (n : Z) held (ev : list Event) :
  discipline held
    ((if n >? u32 windowFrames
      then [EvStderr "Error: buffer is too small."%string] else []) ++ ev)
  = discipline held ev.
Proof. destruct (n >? u32 windowFrames); reflexivity. Qed.

(** C10: whatever path the callback takes (render error, too little data,
    windows with or without a completed cycle, the not-a-number return), a
    mutex that was not held when it was entered is not held when it
    returns; every lock it took it released, touching the shared data only
    in between; so a [pthread_mutex_lock] that follows succeeds at once. *)
Theorem callback_releases_lock w (inNumberFrames : Z)
    (render : option (list Z)) status out w' ev
    (Hentry : lock w <> MxHeld)
    (Hcall : callback w inNumberFrames render = Done (status, out, w', ev)) :
  lock w' = lock w /\
  (lock w = MxFree ->
   discipline false ev = Some false /\
   pthread_mutex_lock (lock w') = (0, MxHeld)).
Proof.
  unfold callback in Hcall. destruct render as [data|].
  - destruct (append_frames (cd w) inNumberFrames data) as [[d out0]| |] eqn:E;
      simpl in Hcall; try discriminate.
    destruct (fbIndex d <? windowFrames).
    + inversion Hcall; subst; simpl. split; [reflexivity|].
      intros Hf. rewrite Hf. split; [|reflexivity].
      destruct (inNumberFrames >? u32 windowFrames); reflexivity.
    + destruct (analysis_loop (loop_budget d) (set_cd w d))
        as [[[st w2] ev2]| |] eqn:E0; simpl in Hcall; try discriminate.
      inversion Hcall; subst.
      apply analysis_loop_lock in E0; [|exact Hentry].
      simpl in E0. destruct E0 as [Hk Hd]. split; [exact Hk|].
      intros Hf. rewrite Hk, Hf. split; [|reflexivity].
      rewrite discipline_ev0. auto.
  - inversion Hcall; subst. split; [reflexivity|].
    intros Hf. rewrite Hf. split; [|reflexivity].
    destruct (inNumberFrames >? u32 windowFrames); reflexivity.
Qed.
End CallbackFacts.

(** ** 32-bit integers *)

Lemma s32_id z : int_range z -> s32 z = z.
Proof.
  unfold int_range, s32. intros H.
  rewrite Z.mod_small by lia. lia.
Qed.

Lemma u32_id z : 0 <= z < 2 ^ 32 -> u32 z = z.
Proof. unfold u32. intros H. apply Z.mod_small. exact H. Qed.

Lemma s32_range z : int_range (s32 z).
Proof.
  unfold int_range, s32.
  pose proof (Z.mod_pos_bound (z + 2 ^ 31) (2 ^ 32)). lia.
Qed.

(** ** The end of an accumulation cycle *)

Section Accumulator.
Variable P : Platform.
Implicit Types w : Fingerprinter P.

Lemma vdbcon_acc (a : list spec_float) :
  len a = fpLength ->
  vDSP_vdbcon (log10f P) a reference a fpLength 1 = Done (map (dB_of_average P) a).
Proof.
  intros Ha. unfold vDSP_vdbcon. rewrite <- Ha, load_all. simpl.
  rewrite store_all by (unfold len; rewrite length_map; reflexivity).
  rewrite reference_eq. reflexivity.
Qed.

Lemma read_head (T : Type) (l : list T) (x : T) :
  0 < len l -> read l 0 = Done (hd x l).
Proof.
  destruct l as [|y l]; unfold len; simpl; [lia|]. reflexivity.
Qed.

Lemma vfill_all (a : list spec_float) (v : spec_float) n :
  len a = n ->
  vDSP_vfill v a n = Done (repeat v (Z.to_nat n)).
Proof.
  intros Ha. unfold vDSP_vfill. rewrite <- Ha, load_all. simpl.
  apply store_all. unfold len. rewrite repeat_length, Nat2Z.id. reflexivity.
Qed.

(** The two ways a cycle ends, on the value of the test at line 160. *)
Lemma accumulate_at_cycle_end w
    (Hacc : len (acc (cd w)) = fpLength)
    (Hfp : len (fingerprint w) = fpLength)
    (Hsummary : forall sp, len (getSummary P sp) = fpLength)
    (Hcount : accumulationNum <= accCount (cd w) + 1 < 2 ^ 31) :
  let spectrum := map (dB_of_average P) (acc (cd w)) in
  let rc := fst (pthread_mutex_lock (lock w)) in
  let released := pthread_mutex_unlock (snd (pthread_mutex_lock (lock w))) in
  accumulate w =
  if nan_test (hd S754_nan spectrum) then
    Done (Return 0
            {| unitIsRunning := unitIsRunning w;
               fingerprint := fingerprint w;
               lock := released;
               spectrogram := spectrogram w;
               cd := set_acc (cd w) spectrum (accCount (cd w) + 1) |},
          lock_events rc ++ [EvStdout "spectrum is NaN"%string; EvUnlock])
  else
    Done (Next
            {| unitIsRunning := unitIsRunning w;
               fingerprint := getSummary P (update P (spectrogram w) spectrum);
               lock := released;
               spectrogram := update P (spectrogram w) spectrum;
               cd := set_acc (cd w) (repeat F32.zero (Z.to_nat fpLength)) 0 |},
          lock_events rc ++ [EvUpdate spectrum; EvGetSummary; EvUnlock]).
Proof.
  intros spectrum rc released. unfold accumulate.
  assert (Hs : s32 (accCount (cd w) + 1) = accCount (cd w) + 1).
  { apply s32_id. unfold int_range, accumulationNum in *. lia. }
  rewrite Hs.
  assert (Hu : (u32 (accCount (cd w) + 1) >=? accumulationNum) = true).
  { rewrite u32_id by (unfold accumulationNum in *; lia).
    apply Z.geb_le. lia. }
  rewrite Hu.
  destruct (pthread_mutex_lock (lock w)) as [rc0 held] eqn:El.
  subst rc released. simpl fst. simpl snd.
  rewrite (vdbcon_acc (acc (cd w)) Hacc). simpl bind.
  assert (Hlen : len (map (dB_of_average P) (acc (cd w))) = fpLength).
  { unfold len in *. rewrite length_map. exact Hacc. }
  rewrite (@read_head _ (map (dB_of_average P) (acc (cd w))) S754_nan)
    by (rewrite Hlen, fpLength_eq; lia).
  simpl bind. fold spectrum.
  destruct (nan_test (hd S754_nan spectrum)); [reflexivity|].
  unfold spectrum at 1. rewrite <- Hlen at 1. rewrite load_all. simpl bind.
  fold spectrum.
  rewrite store_all by (rewrite Hsummary, Hfp; reflexivity).
  simpl bind. rewrite (vfill_all spectrum F32.zero Hlen). reflexivity.
Qed.

(** When the increment takes the counter to [accumulationNum] (or
    beyond), the accumulator is turned, element by element, into
    [20 * log10(sum / accumulationNum)], the factor [vDSP_vdbcon] applies
    when its last argument is [1]; if its first element is a number, that
    spectrum is what [update] receives, between the lock and the unlock,
    the fingerprint becomes the summary of the history, and the callback
    goes on with the sum all zeros and the counter [0]. *)
Theorem accumulate_emits_dB_of_average w
    (Hacc : len (acc (cd w)) = fpLength)
    (Hfp : len (fingerprint w) = fpLength)
    (Hsummary : forall sp, len (getSummary P sp) = fpLength)
    (Hcount : accumulationNum <= accCount (cd w) + 1 < 2 ^ 31)
    (Hnum : nan_test (hd S754_nan (map (dB_of_average P) (acc (cd w)))) = false) :
  exists w' ev,
    accumulate w = Done (Next w', ev) /\
    ev = lock_events (fst (pthread_mutex_lock (lock w)))
           ++ [EvUpdate (map (dB_of_average P) (acc (cd w)));
               EvGetSummary; EvUnlock] /\
    spectrogram w' =
      update P (spectrogram w) (map (dB_of_average P) (acc (cd w))) /\
    fingerprint w' = getSummary P (spectrogram w') /\
    acc (cd w') = repeat F32.zero (Z.to_nat fpLength) /\
    accCount (cd w') = 0.
Proof.
  pose proof (accumulate_at_cycle_end w Hacc Hfp Hsummary Hcount) as H.
  cbv zeta in H. rewrite Hnum in H.
  eexists. eexists. split; [exact H|]. simpl. repeat split.
Qed.

(** The other end of the same test: when the first converted element is
    not a number, the callback prints, unlocks and returns at line 163,
    with nothing handed to the history; the counter is left incremented and
    the accumulator holds the converted values,
    [20 * log10(sum / accumulationNum)] element by element. *)
Lemma accumulate_nan_return w
    (Hacc : len (acc (cd w)) = fpLength)
    (Hfp : len (fingerprint w) = fpLength)
    (Hsummary : forall sp, len (getSummary P sp) = fpLength)
    (Hcount : accumulationNum <= accCount (cd w) + 1 < 2 ^ 31)
    (Hnan : nan_test (hd S754_nan (map (dB_of_average P) (acc (cd w)))) = true) :
  exists w',
    accumulate w =
      Done (Return 0 w',
            lock_events (fst (pthread_mutex_lock (lock w)))
              ++ [EvStdout "spectrum is NaN"%string; EvUnlock]) /\
    accCount (cd w') = accCount (cd w) + 1 /\
    acc (cd w') = map (dB_of_average P) (acc (cd w)) /\
    spectrogram w' = spectrogram w /\
    fingerprint w' = fingerprint w.
Proof.
  pose proof (accumulate_at_cycle_end w Hacc Hfp Hsummary Hcount) as H.
  cbv zeta in H. rewrite Hnan in H.
  eexists. split; [exact H|]. simpl. repeat split.
Qed.
End Accumulator.

(** ** The loop and the callback leave the flag and the frame buffer alone *)

Section Frames.
Variable P : Platform.
Implicit Types w : Fingerprinter P.
Implicit Types d : CallbackData.

Lemma analysis_loop_frame budget : forall w status w' ev,
  analysis_loop budget w = Done (status, w', ev) ->
  unitIsRunning w' = unitIsRunning w /\
  frameBuffer (cd w') = frameBuffer (cd w) /\
  fbIndex (cd w') = fbIndex (cd w) /\
  fbLen (cd w') = fbLen (cd w) /\
  hamm (cd w') = hamm (cd w).
Proof.
  induction budget as [|budget IH]; intros w status w' ev H; simpl in H.
  - destruct (startIndex (cd w) <=? s32 (fbIndex (cd w) - windowFrames));
      [discriminate|]. inversion H; subst. repeat split.
  - destruct (startIndex (cd w) <=? s32 (fbIndex (cd w) - windowFrames));
      [|inversion H; subst; repeat split].
    destruct (window_step w) as [[f ev1]| |] eqn:E; simpl in H;
      try discriminate.
    apply window_step_frame in E.
    destruct f as [w1|st w1]; simpl in *.
    + match type of H with
      | bind ?m _ = _ => destruct m as [[[st2 w2] ev2]| |] eqn:E2
      end; simpl in H; try discriminate.
      inversion H; subst. apply IH in E2. simpl in E2.
      intuition congruence.
    + inversion H; subst. intuition congruence.
Qed.

Lemma callback_frame w n render status out w' ev :
  callback w n render = Done (status, out, w', ev) ->
  unitIsRunning w' = unitIsRunning w /\ fbLen (cd w') = fbLen (cd w).
Proof.
  unfold callback. intros H. destruct render as [data|].
  - destruct (append_frames (cd w) n data) as [[d out0]| |] eqn:E;
      simpl in H; try discriminate.
    apply append_frames_inv in E.
    destruct (fbIndex d <? windowFrames).
    + inversion H; subst; simpl. intuition congruence.
    + destruct (analysis_loop (loop_budget d) (set_cd w d))
        as [[[st w2] ev2]| |] eqn:E0; simpl in H; try discriminate.
      inversion H; subst. apply analysis_loop_frame in E0. simpl in E0.
      intuition congruence.
  - inversion H; subst. split; reflexivity.
Qed.

(** Lines 108-114 on a buffer with no room left. *)
Lemma make_room_when_full d n
    (Hlen : len (frameBuffer d) = fbLen d)
    (Hfb : fbLen d = fbLen_setup)
    (Hn : 0 <= n <= specRes)
    (Hfull : fbLen d - n <= fbIndex d <= fbLen d)
    (Hstart : 0 <= startIndex d <= fbIndex d) :
  let half := Z.to_nat (fbLen d / 2) in
  make_room d n =
  Done {| A := A d; hamm := hamm d; acc := acc d; accCount := accCount d;
          frameBuffer := firstn half (frameBuffer d) ++ firstn half (frameBuffer d);
          fbIndex := fbIndex d - fbLen d / 2;
          startIndex := startIndex d - fbLen d / 2;
          fbLen := fbLen d; realp := realp d; imagp := imagp d |}.
Proof.
  intros half. subst half. unfold make_room.
  assert (Hhalf : fbLen d / 2 = 11025)
    by (rewrite Hfb, fbLen_setup_eq; reflexivity).
  assert (Hbytes : 4 * fbLen d / 2 / 4 = 11025)
    by (rewrite Hfb, fbLen_setup_eq; reflexivity).
  rewrite Hhalf, Hbytes.
  rewrite Hfb, fbLen_setup_eq in Hlen, Hfull. unfold specRes in Hn.
  replace (u32 (fbIndex d) >=? u32 (fbLen d - n)) with true.
  2:{ symmetry. rewrite Hfb, fbLen_setup_eq, !u32_id by lia.
      apply Z.geb_le. lia. }
  unfold memcpy. rewrite load_ok by lia.
  change (Z.to_nat 0) with O. rewrite skipn_O. cbn [bind].
  assert (Hh : length (firstn (Z.to_nat 11025) (frameBuffer d))
               = Z.to_nat 11025).
  { rewrite length_firstn. unfold len in Hlen. lia. }
  rewrite store_ok by (unfold len in *; rewrite ?Hh; lia).
  rewrite Hh.
  rewrite (skipn_all2 (frameBuffer d)) by (unfold len in Hlen; lia).
  rewrite app_nil_r. cbn [bind].
  rewrite !s32_id by (unfold int_range; lia).
  reflexivity.
Qed.
(** Lines 108-114 on a buffer with no room left: what [memcpy] receives
    as destination is the second half, so the first half is duplicated over
    it; the samples from [fbLen/2] on, among them the ones not analysed yet,
    are lost, and the lower half stays as it was. *)
Theorem make_room_copies_front_over_back (d : CallbackData) (n : Z)
    (Hlen : len (frameBuffer d) = fbLen d)
    (Hfb : fbLen d = fbLen_setup)
    (Hn : 0 <= n <= specRes)
    (Hfull : fbLen d - n <= fbIndex d <= fbLen d)
    (Hstart : 0 <= startIndex d <= fbIndex d) :
  let half := Z.to_nat (fbLen d / 2) in
  make_room d n =
  Done {| A := A d; hamm := hamm d; acc := acc d; accCount := accCount d;
          frameBuffer := firstn half (frameBuffer d) ++ firstn half (frameBuffer d);
          fbIndex := fbIndex d - fbLen d / 2;
          startIndex := startIndex d - fbLen d / 2;
          fbLen := fbLen d; realp := realp d; imagp := imagp d |}.
Proof. exact (@make_room_when_full d n Hlen Hfb Hn Hfull Hstart). Qed.
End Frames.

(** ** Histories *)

Section HistoryFacts.
Variable P : Platform.
Implicit Types w : Fingerprinter P.

Lemma run_without_start calls : forall w cycles obs w',
  unitIsRunning w = false ->
  forallb (fun c => negb (is_start c)) calls = true ->
  run w cycles calls = Done (obs, w') ->
  forallb get_failed obs = true.
Proof.
  induction calls as [|c calls IH]; intros w cycles obs w' Hidle Hns Hrun;
    simpl in *.
  - inversion Hrun; subst. reflexivity.
  - apply andb_true_iff in Hns. destruct Hns as [Hc Hns].
    destruct c as [au|st|outBuf|n render]; simpl in Hc; try discriminate.
    + destruct (stopRecording w st) as [[r w1] ev1] eqn:E.
      apply stopRecording_flag in E.
      destruct (run w1 cycles calls) as [[obs1 w2]| |] eqn:E1;
        simpl in Hrun; try discriminate.
      inversion Hrun; subst. simpl.
      eapply IH; [|exact Hns|exact E1]. destruct E; congruence.
    + destruct (getFingerprint w outBuf) as [[[[ok out] w1] ev1]| |] eqn:E;
        simpl in Hrun; try discriminate.
      apply getFingerprint_flag in E. destruct E as [E Eok].
      destruct (run w1 cycles calls) as [[obs1 w2]| |] eqn:E1;
        simpl in Hrun; try discriminate.
      inversion Hrun; subst. simpl.
      rewrite Hidle. simpl.
      eapply IH; [|exact Hns|exact E1]. congruence.
    + destruct (callback w n render) as [[[[st out] w1] ev1]| |] eqn:E;
        simpl in Hrun; try discriminate.
      apply callback_frame in E. destruct E as [E _].
      destruct (run w1 (cycles + count_updates ev1)%nat calls)
        as [[obs1 w2]| |] eqn:E1; simpl in Hrun; try discriminate.
      inversion Hrun; subst. simpl.
      eapply IH; [|exact Hns|exact E1]. congruence.
Qed.

Lemma start_then_get w au (outBuf : list spec_float) :
  unitIsRunning w = false ->
  startStatus au = 0 /\ formatStatus au = 0 /\
  runningStatus au = 0 /\ running au <> 0 ->
  len (fingerprint w) = fpLength ->
  fpLength <= len outBuf ->
  observations (run w 0 [CallStart au; CallGetFingerprint outBuf]) =
  Done [ObsStart (Returns true);
        ObsGet true (fingerprint w ++ skipn (Z.to_nat fpLength) outBuf) 0].
Proof.
  intros Hidle (H1 & H2 & H3 & H4) Hfp Hbuf.
  apply Z.eqb_eq in H1, H2, H3. apply Z.eqb_neq in H4.
  cbn [run]. unfold startRecording. rewrite Hidle. cbn [negb].
  rewrite H1, H2, H3, H4.
  unfold getFingerprint.
  cbn [unitIsRunning set_unitIsRunning fingerprint lock andb negb].
  destruct (pthread_mutex_lock (lock w)) as [rc held].
  rewrite memcpy_prefix by assumption. reflexivity.
Qed.

(** [getFingerprint] looks at the running flag and at nothing else. On a
    constructed object every [getFingerprint] of a history without
    [startRecording] fails, whatever else was called. And on a newly
    constructed object a [startRecording] that finds the unit running,
    followed at once by [getFingerprint], returns success with the zeros of
    the constructor, no accumulation cycle having been completed. *)
Theorem getFingerprint_gated_by_running_flag
    (mutex_init_ok : bool) (sp0 : Spectrogram P)
    (hamm0 A0 frameBuffer0 realp0 imagp0 : list spec_float)
    (calls : list Call) (obs : list Obs) (w' : Fingerprinter P)
    (au : AudioUnitReplies) (outBuf : list spec_float)
    (Hnostart : forallb (fun c => negb (is_start c)) calls = true)
    (Hrun : run (Fingerprinter_new P mutex_init_ok sp0 hamm0 A0 frameBuffer0
                   realp0 imagp0) 0 calls = Done (obs, w'))
    (Hau : startStatus au = 0 /\ formatStatus au = 0 /\
           runningStatus au = 0 /\ running au <> 0)
    (Hbuf : fpLength <= len outBuf) :
  forallb get_failed obs = true /\
  observations
    (run (Fingerprinter_new P mutex_init_ok sp0 hamm0 A0 frameBuffer0
            realp0 imagp0) 0 [CallStart au; CallGetFingerprint outBuf]) =
  Done [ObsStart (Returns true);
        ObsGet true (repeat F32.zero (Z.to_nat fpLength)
                       ++ skipn (Z.to_nat fpLength) outBuf) 0].
Proof.
  split.
  - eapply run_without_start; [|exact Hnostart|exact Hrun]. reflexivity.
  - apply start_then_get; try assumption; [reflexivity|].
    unfold len. cbn [Fingerprinter_new fingerprint].
    rewrite repeat_length, fpLength_eq. reflexivity.
Qed.
End HistoryFacts.


(** ** The budget of the loop is never used up *)

Lemma bind_not_timeout (T U : Type) (m : exec T) (k : T -> exec U) :
  m <> Timeout -> (forall x, k x <> Timeout) -> bind m k <> Timeout.
Proof. destruct m; simpl; auto; discriminate. Qed.

Lemma load_not_timeout (T : Type) (buf : list T) off n :
  load buf off n <> Timeout.
Proof. unfold load. destruct (in_bounds buf off n); discriminate. Qed.

Lemma store_not_timeout (T : Type) (buf : list T) off src :
  store buf off src <> Timeout.
Proof. unfold store. destruct (in_bounds buf off (len src)); discriminate. Qed.

Lemma read_not_timeout (T : Type) (buf : list T) i : read buf i <> Timeout.
Proof.
  unfold read. destruct (0 <=? i); [|discriminate].
  destruct (nth_error buf (Z.to_nat i)); discriminate.
Qed.

Ltac not_timeout :=
  repeat match goal with
    | |- load _ _ _ <> Timeout => apply load_not_timeout
    | |- store _ _ _ <> Timeout => apply store_not_timeout
    | |- read _ _ <> Timeout => apply read_not_timeout
    | |- bind _ _ <> Timeout => apply bind_not_timeout; [|intros ?]
    | |- Done _ <> Timeout => discriminate
    | |- (let '(_, _) := ?p in _) <> Timeout => destruct p
    | |- (if ?c then _ else _) <> Timeout => destruct c
    end.

Section Budget.
Variable P : Platform.
Implicit Types w : Fingerprinter P.
Implicit Types d : CallbackData.

Lemma window_step_not_timeout w : window_step w <> Timeout.
Proof.
  unfold window_step, analyze_window, accumulate, memcpy, vDSP_vmul,
    vDSP_ctoz, vDSP_zaspec, vDSP_vadd, vDSP_vdbcon, vDSP_vfill.
  not_timeout.
Qed.

Lemma append_frames_not_timeout d n data : append_frames d n data <> Timeout.
Proof.
  unfold append_frames, make_room, memcpy, vDSP_vflt32, vDSP_vfilli.
  not_timeout.
Qed.

Lemma append_frames_range d n data d' out :
  int_range (startIndex d) ->
  append_frames d n data = Done (d', out) ->
  int_range (startIndex d') /\ int_range (fbIndex d').
Proof.
  intros Hr. unfold append_frames, make_room. intros H.
  destruct (u32 (fbIndex d) >=? u32 (fbLen d - n)).
  - destruct (memcpy (frameBuffer d) (fbLen d / 2) (frameBuffer d) 0
                (4 * fbLen d / 2 / 4)); cbn [bind] in H; try discriminate H.
    match type of H with
    | bind ?m _ = _ => destruct m; cbn [bind] in H; try discriminate H
    end.
    match type of H with
    | bind ?m _ = _ => destruct m; cbn [bind] in H; try discriminate H
    end.
    inversion H; subst. cbn [startIndex fbIndex]. split; apply s32_range.
  - cbn [bind] in H.
    match type of H with
    | bind ?m _ = _ => destruct m; cbn [bind] in H; try discriminate H
    end.
    match type of H with
    | bind ?m _ = _ => destruct m; cbn [bind] in H; try discriminate H
    end.
    inversion H; subst. cbn [startIndex fbIndex].
    split; [exact Hr|apply s32_range].
Qed.

Lemma analysis_loop_not_timeout budget : forall w,
  windowFrames <= fbIndex (cd w) < 2 ^ 31 ->
  - 2 ^ 31 <= startIndex (cd w) ->
  fbIndex (cd w) - windowFrames - startIndex (cd w) + 1 <= Z.of_nat budget ->
  analysis_loop budget w <> Timeout.
Proof.
  induction budget as [|budget IH]; intros w Hf Hs Hb;
    rewrite windowFrames_eq in *; cbn [analysis_loop];
    rewrite windowFrames_eq, s32_id by (unfold int_range; lia).
  - replace (startIndex (cd w) <=? fbIndex (cd w) - 1024) with false
      by (symmetry; apply Z.leb_gt; lia).
    discriminate.
  - destruct (Z.leb_spec (startIndex (cd w)) (fbIndex (cd w) - 1024))
      as [Hle|Hgt]; [|discriminate].
    destruct (window_step w) as [[f ev]| |] eqn:E; cbn [bind];
      try discriminate.
    + destruct f as [w1|st w1]; [|discriminate].
      pose proof (window_step_frame w E) as (_ & _ & F2 & F3 & _).
      cbn [flow_state] in F2, F3.
      apply bind_not_timeout; [|intros [[st w2] ev2]; discriminate].
      rewrite stepSize_eq, F3, s32_id by (unfold int_range; lia).
      apply IH; cbn [set_cd cd set_startIndex fbIndex startIndex];
        rewrite ?F2; lia.
    + exfalso. exact (window_step_not_timeout w E).
Qed.

(** However the state and the input, the callback does not stop for want
    of budget: it returns, or it faults on an access out of bounds. *)
Theorem callback_never_times_out w (n : Z) (render : option (list Z)) :
  int_range (startIndex (cd w)) -> callback w n render <> Timeout.
Proof.
  intros Hr. unfold callback. destruct render as [data|]; [|discriminate].
  destruct (append_frames (cd w) n data) as [[d out]| |] eqn:E; cbn [bind];
    try discriminate.
  - destruct (@append_frames_range (cd w) n data d out Hr E) as [Hs Hf].
    destruct (Z.ltb_spec (fbIndex d) windowFrames) as [Hlt|Hge];
      [discriminate|].
    apply bind_not_timeout; [|intros [[st w2] ev2]; discriminate].
    unfold int_range in *.
    apply analysis_loop_not_timeout; cbn [set_cd cd]; try lia.
    unfold loop_budget. rewrite windowFrames_eq in *.
    rewrite s32_id by (unfold int_range; lia). lia.
  - exfalso. exact (append_frames_not_timeout _ _ _ E).
Qed.
End Budget.

(** ** The callback returns: no access out of bounds, no budget exhausted *)

Section Safety.
Variable T : Type.
Implicit Types buf src dst : list T.

Lemma memcpy_ok dst doff src soff n :
  0 <= soff -> 0 <= n -> soff + n <= len src ->
  0 <= doff -> doff + n <= len dst ->
  exists r, memcpy dst doff src soff n = Done r /\ len r = len dst.
Proof.
  intros. unfold memcpy.
  destruct (load src soff n) as [x| |] eqn:E;
    try (rewrite load_ok in E by assumption; discriminate E).
  pose proof (load_len _ _ _ E) as Hx. cbn [bind].
  destruct (store dst doff x) as [r| |] eqn:E2;
    try (rewrite store_ok in E2 by lia; discriminate E2).
  exists r. split; [reflexivity|]. exact (store_len _ _ _ E2).
Qed.

End Safety.

Lemma len_map (T U : Type) (f : T -> U) (l : list T) : len (map f l) = len l.
Proof. unfold len. rewrite length_map. reflexivity. Qed.

Lemma len_zip_with (T : Type) (f : T -> T -> T) (a b : list T) :
  len a = len b -> len (zip_with f a b) = len a.
Proof.
  unfold len. intros H. rewrite zip_with_length; [reflexivity|].
  apply Nat2Z.inj. exact H.
Qed.

Lemma len_repeat (T : Type) (x : T) (n : Z) :
  0 <= n -> len (repeat x (Z.to_nat n)) = n.
Proof. intros. unfold len. rewrite repeat_length. lia. Qed.

Lemma len_evens_odds (T : Type) (l : list T) (n : Z) :
  len l = 2 * n -> len (evens l) = n /\ len (odds l) = n.
Proof.
  unfold len. intros H. pose proof (evens_odds_length l). lia.
Qed.

Lemma binary_ok (f : spec_float -> spec_float -> spec_float)
    (a b c : list spec_float) (n : Z) :
  0 <= n -> n <= len a -> n <= len b -> n <= len c ->
  exists r,
    (x <- load a 0 n ;; y <- load b 0 n ;; store c 0 (zip_with f x y)) = Done r
    /\ len r = len c.
Proof.
  intros Hn Ha Hb Hc.
  destruct (load a 0 n) as [x| |] eqn:E1;
    try (rewrite load_ok in E1 by lia; discriminate E1).
  destruct (load b 0 n) as [y| |] eqn:E2;
    try (rewrite load_ok in E2 by lia; discriminate E2).
  pose proof (load_len _ _ _ E1). pose proof (load_len _ _ _ E2).
  cbn [bind].
  assert (Hz : len (zip_with f x y) = n) by (rewrite len_zip_with; lia).
  destruct (store c 0 (zip_with f x y)) as [r| |] eqn:E3;
    try (rewrite store_ok in E3 by lia; discriminate E3).
  exists r. split; [reflexivity|]. exact (store_len _ _ _ E3).
Qed.

Lemma zaspec_ok (re im c : list spec_float) (n : Z) :
  0 <= n -> n <= len re -> n <= len im -> n <= len c ->
  exists r, vDSP_zaspec re im c n = Done r /\ len r = len c.
Proof.
  intros Hn Hre Him Hc. unfold vDSP_zaspec.
  destruct (load re 0 n) as [x| |] eqn:E1;
    try (rewrite load_ok in E1 by lia; discriminate E1).
  destruct (load im 0 n) as [y| |] eqn:E2;
    try (rewrite load_ok in E2 by lia; discriminate E2).
  destruct (load c 0 n) as [z| |] eqn:E3;
    try (rewrite load_ok in E3 by lia; discriminate E3).
  pose proof (load_len _ _ _ E1). pose proof (load_len _ _ _ E2).
  pose proof (load_len _ _ _ E3). cbn [bind].
  assert (Hz : len (zip_with F32.add z (zip_with squared_magnitude x y)) = n)
    by (rewrite !len_zip_with; rewrite ?len_zip_with; lia).
  destruct (store c 0 (zip_with F32.add z (zip_with squared_magnitude x y)))
    as [r| |] eqn:E4;
    try (rewrite store_ok in E4 by lia; discriminate E4).
  exists r. split; [reflexivity|]. exact (store_len _ _ _ E4).
Qed.

Section CallbackSafety.
Variable P : Platform.
Hypothesis HP : platform_ok P.
Implicit Types w : Fingerprinter P.
Implicit Types d : CallbackData.

Lemma analyze_window_ok d :
  len (A d) = 2 * specRes -> len (hamm d) = specRes ->
  len (acc d) = fpLength ->
  len (realp d) = specRes -> len (imagp d) = specRes ->
  0 <= startIndex d -> startIndex d + specRes <= len (frameBuffer d) ->
  exists d',
    analyze_window P d = Done d' /\
    len (A d') = 2 * specRes /\ len (acc d') = fpLength /\
    len (realp d') = specRes /\ len (imagp d') = specRes.
Proof.
  intros HA Hh Hacc Hre Him Hs0 Hs1. unfold analyze_window.
  unfold specRes in *.
  destruct (@memcpy_ok _ (A d) 0 (frameBuffer d) (startIndex d) 1024)
    as (a1 & E1 & L1); try lia.
  rewrite E1. cbn [bind].
  destruct (@binary_ok F32.mul a1 (hamm d) a1 1024) as (a2 & E2 & L2); try lia.
  unfold vDSP_vmul. rewrite E2. cbn [bind].
  unfold vDSP_ctoz.
  destruct (load a2 0 (2 * 1024)) as [c| |] eqn:E3;
    try (rewrite load_ok in E3 by lia; discriminate E3).
  pose proof (load_len _ _ _ E3) as L3.
  destruct (@len_evens_odds _ c 1024 L3) as [Le Lo]. cbn [bind].
  destruct (store (realp d) 0 (evens c)) as [re| |] eqn:E4;
    try (rewrite store_ok in E4 by lia; discriminate E4).
  destruct (store (imagp d) 0 (odds c)) as [im| |] eqn:E5;
    try (rewrite store_ok in E5 by lia; discriminate E5).
  pose proof (store_len _ _ _ E4) as L4. pose proof (store_len _ _ _ E5) as L5.
  cbn [bind]. change (2 ^ log2FFTLength) with 1024.
  destruct (load re 0 1024) as [re0| |] eqn:E6;
    try (rewrite load_ok in E6 by lia; discriminate E6).
  destruct (load im 0 1024) as [im0| |] eqn:E7;
    try (rewrite load_ok in E7 by lia; discriminate E7).
  pose proof (load_len _ _ _ E6) as L6. pose proof (load_len _ _ _ E7) as L7.
  cbn [bind].
  destruct HP as [Hfft _].
  destruct (Hfft re0 im0 log2FFTLength) as [F1 F2].
  assert (G1 : len (fst (fft_zip P re0 im0 log2FFTLength)) = 1024)
    by (unfold len in *; rewrite F1; exact L6).
  assert (G2 : len (snd (fft_zip P re0 im0 log2FFTLength)) = 1024)
    by (unfold len in *; rewrite F2; exact L7).
  destruct (store re 0 (fst (fft_zip P re0 im0 log2FFTLength)))
    as [re1| |] eqn:E8;
    try (rewrite store_ok in E8 by lia; discriminate E8).
  destruct (store im 0 (snd (fft_zip P re0 im0 log2FFTLength)))
    as [im1| |] eqn:E9;
    try (rewrite store_ok in E9 by lia; discriminate E9).
  pose proof (store_len _ _ _ E8) as L8. pose proof (store_len _ _ _ E9) as L9.
  cbn [bind].
  destruct (@zaspec_ok re1 im1 a2 1024) as (a3 & E10 & L10); try lia.
  rewrite E10. cbn [bind].
  rewrite fpLength_eq in *.
  destruct (@binary_ok F32.add a3 (acc d) (acc d) 325) as (acc1 & E11 & L11);
    try lia.
  unfold vDSP_vadd. rewrite E11. cbn [bind].
  eexists. split; [reflexivity|]. cbn [A acc realp imagp]. lia.
Qed.

Lemma lock_events_quiet rc :
  ~ nan_reported (lock_events rc) /\ windows_of (lock_events rc) = [].
Proof.
  unfold nan_reported, lock_events. destruct (rc =? 0); simpl; split;
    try reflexivity; intros H; repeat (destruct H as [H|H]; try discriminate H);
    exact H.
Qed.

Lemma nan_reported_app ev1 ev2 :
  nan_reported (ev1 ++ ev2) <-> nan_reported ev1 \/ nan_reported ev2.
Proof. unfold nan_reported. apply in_app_iff. Qed.

Lemma windows_of_app ev1 ev2 :
  windows_of (ev1 ++ ev2) = windows_of ev1 ++ windows_of ev2.
Proof.
  induction ev1 as [|e ev1 IH]; [reflexivity|].
  destruct e; simpl; rewrite ?IH; reflexivity.
Qed.

(** The end of a cycle, whatever the counter. *)
Lemma accumulate_ok w :
  len (acc (cd w)) = fpLength -> len (fingerprint w) = fpLength ->
  exists f ev,
    accumulate w = Done (f, ev) /\
    len (acc (cd (flow_state f))) = fpLength /\
    len (fingerprint (flow_state f)) = fpLength /\
    windows_of ev = [] /\
    match f with
    | Next _ => ~ nan_reported ev
    | Return _ _ => nan_reported ev
    end.
Proof.
  intros Hacc Hfp. destruct HP as [_ Hsummary]. unfold accumulate.
  destruct (u32 (s32 (accCount (cd w) + 1)) >=? accumulationNum).
  - destruct (pthread_mutex_lock (lock w)) as [rc held].
    rewrite (vdbcon_acc P (acc (cd w)) Hacc). cbn [bind].
    assert (Hlen : len (map (dB_of_average P) (acc (cd w))) = fpLength)
      by (rewrite len_map; exact Hacc).
    rewrite (@read_head _ (map (dB_of_average P) (acc (cd w))) S754_nan)
      by (rewrite Hlen, fpLength_eq; lia).
    cbn [bind]. destruct (lock_events_quiet rc) as [Hq Hw].
    destruct (nan_test (hd S754_nan (map (dB_of_average P) (acc (cd w))))).
    + eexists. eexists. split; [reflexivity|].
      cbn [flow_state cd set_acc acc fingerprint].
      split; [exact Hlen|]. split; [exact Hfp|].
      split; [rewrite windows_of_app, Hw; reflexivity|].
      apply nan_reported_app. right. left. reflexivity.
    + assert (Hload : load (map (dB_of_average P) (acc (cd w))) 0 fpLength
                      = Done (map (dB_of_average P) (acc (cd w))))
        by (rewrite <- Hlen at 1; apply load_all).
      rewrite Hload. cbn [bind].
      rewrite store_all by (rewrite Hsummary, Hfp; reflexivity).
      cbn [bind].
      rewrite (vfill_all (map (dB_of_average P) (acc (cd w))) F32.zero Hlen).
      cbn [bind].
      eexists. eexists. split; [reflexivity|].
      cbn [flow_state cd set_acc acc fingerprint].
      split; [apply len_repeat; rewrite fpLength_eq; lia|].
      split; [apply Hsummary|].
      split; [rewrite windows_of_app, Hw; reflexivity|].
      intros H. apply nan_reported_app in H. destruct H as [H|H]; [auto|].
      repeat (destruct H as [H|H]; try discriminate H). exact H.
  - eexists. eexists. split; [reflexivity|].
    cbn [flow_state set_cd cd set_acc acc fingerprint].
    split; [exact Hacc|]. split; [exact Hfp|]. split; [reflexivity|].
    intros H. exact H.
Qed.

Lemma window_step_ok w :
  allocated w ->
  0 <= startIndex (cd w) ->
  startIndex (cd w) + specRes <= len (frameBuffer (cd w)) ->
  exists f ev,
    window_step w = Done (f, ev) /\
    allocated (flow_state f) /\
    windows_of ev = [startIndex (cd w)] /\
    match f with
    | Next _ => ~ nan_reported ev
    | Return _ _ => nan_reported ev
    end.
Proof.
  intros (HA & Hh & Hacc & Hfb & Hlen & Hre & Him & Hfp) Hs0 Hs1.
  unfold window_step.
  destruct (analyze_window_ok (cd w) HA Hh Hacc Hre Him Hs0 Hs1)
    as (d & E & LA & Lacc & Lre & Lim).
  rewrite E. cbn [bind].
  destruct (@accumulate_ok (set_cd w d)) as (f & ev & E2 & L1 & L2 & Hw & Hn);
    [exact Lacc|exact Hfp|].
  rewrite E2. cbn [bind].
  exists f, (EvWindow (startIndex (cd w)) :: ev).
  split; [reflexivity|].
  apply analyze_window_frame in E. apply accumulate_frame in E2.
  cbn [set_cd cd unitIsRunning] in E2.
  destruct E as (F1 & F2 & F3 & F4 & F5 & F6).
  destruct E2 as (G0 & G1 & G2 & G3 & G4 & G5 & G6 & G7 & G8).
  repeat split.
  - rewrite G6. exact LA.
  - rewrite G5, F5. exact Hh.
  - exact L1.
  - rewrite G1, G4, F1, F4. exact Hfb.
  - rewrite G4, F4. exact Hlen.
  - rewrite G7. exact Lre.
  - rewrite G8. exact Lim.
  - exact L2.
  - cbn [windows_of]. rewrite Hw. reflexivity.
  - destruct f; unfold nan_reported in *; cbn [In].
    + intros [H|H]; [discriminate H|auto].
    + right. exact Hn.
Qed.

Lemma allocated_set_startIndex w i :
  allocated w -> allocated (set_cd w (set_startIndex (cd w) i)).
Proof.
  unfold allocated.
  cbn [set_cd cd set_startIndex A hamm acc frameBuffer fbLen realp imagp
       fingerprint].
  tauto.
Qed.

(** The loop under the invariant. *)
Lemma analysis_loop_inv budget : forall w,
  allocated w ->
  0 <= startIndex (cd w) <= fbIndex (cd w) ->
  windowFrames <= fbIndex (cd w) <= fbLen (cd w) ->
  fbIndex (cd w) - windowFrames - startIndex (cd w) + 1 <= Z.of_nat budget ->
  exists status w' ev,
    analysis_loop budget w = Done (status, w', ev) /\
    allocated w' /\
    fbIndex (cd w') = fbIndex (cd w) /\
    (nan_reported ev \/
     (windows_of ev =
        window_starts budget (startIndex (cd w)) (fbIndex (cd w) - windowFrames) /\
      startIndex (cd w') = startIndex (cd w) + stepSize * len (windows_of ev) /\
      fbIndex (cd w') - windowFrames < startIndex (cd w') <= fbIndex (cd w'))).
Proof.
  induction budget as [|budget IH]; intros w Hall Hs Hf Hb.
  - pose proof Hall as (_ & _ & _ & Hfb & Hlen & _).
    rewrite Hlen, fbLen_setup_eq in Hf. rewrite windowFrames_eq in *.
    cbn [analysis_loop]. rewrite windowFrames_eq.
    rewrite s32_id by (unfold int_range; lia).
    replace (startIndex (cd w) <=? fbIndex (cd w) - 1024) with false
      by (symmetry; apply Z.leb_gt; lia).
    exists 0, w, []. split; [reflexivity|]. split; [exact Hall|].
    split; [reflexivity|]. right.
    cbn [windows_of window_starts]. unfold len. cbn [length].
    split; [reflexivity|]. lia.
  - pose proof Hall as (_ & _ & _ & Hfb & Hlen & _).
    rewrite Hlen, fbLen_setup_eq in Hf. rewrite windowFrames_eq in *.
    cbn [analysis_loop window_starts]. rewrite windowFrames_eq.
    rewrite s32_id by (unfold int_range; lia).
    destruct (Z.leb_spec (startIndex (cd w)) (fbIndex (cd w) - 1024)) as [Hle|Hgt].
    + destruct (@window_step_ok w Hall) as (f & ev1 & E & Hall1 & Hw1 & Hn1);
        [lia|unfold specRes; rewrite Hfb, Hlen, fbLen_setup_eq; lia|].
      rewrite E. cbn [bind].
      pose proof (window_step_frame w E) as (F0 & F1 & F2 & F3 & F4 & F5).
      destruct f as [w1|st w1]; cbn [flow_state] in *.
      * assert (Hstep : s32 (startIndex (cd w1) + stepSize)
                        = startIndex (cd w) + 441).
        { rewrite stepSize_eq, F3. apply s32_id. unfold int_range. lia. }
        rewrite Hstep.
        destruct (IH (set_cd w1 (set_startIndex (cd w1) (startIndex (cd w) + 441))))
          as (st & w2 & ev2 & E2 & Hall2 & Hfb2 & Hres).
        { apply allocated_set_startIndex. exact Hall1. }
        { cbn [set_cd cd set_startIndex fbIndex startIndex]. rewrite F2. lia. }
        { cbn [set_cd cd set_startIndex fbIndex fbLen].
          rewrite F2, F4, Hlen, fbLen_setup_eq. lia. }
        { cbn [set_cd cd set_startIndex fbIndex startIndex].
          rewrite F2. lia. }
        rewrite E2. cbn [bind].
        exists st, w2, (ev1 ++ ev2). split; [reflexivity|].
        split; [exact Hall2|].
        cbn [set_cd cd set_startIndex fbIndex startIndex] in Hfb2, Hres.
        split; [congruence|].
        destruct Hres as [Hnan|(Hw2 & Hs2 & Hc2)].
        -- left. apply nan_reported_app. right. exact Hnan.
        -- right. rewrite windows_of_app, Hw1, Hw2.
           rewrite F2, stepSize_eq in *.
           cbn [app]. split; [reflexivity|].
           split; [|lia].
           rewrite Hs2, Hw2. unfold len. cbn [length]. lia.
      * exists st, w1, ev1. split; [reflexivity|]. split; [exact Hall1|].
        split; [exact F2|]. left. exact Hn1.
    + exists 0, w, []. split; [reflexivity|]. split; [exact Hall|].
      split; [reflexivity|]. right.
      cbn [windows_of]. unfold len. cbn [length].
      split; [reflexivity|]. lia.
Qed.

(** The loop under the invariant: it returns; unless a cycle ended on the
    not-a-number return, the windows analysed are the ones the loop
    condition admits, [startIndex] has advanced by [stepSize] for each, and
    less than one window is left. *)
Theorem analysis_loop_ok (budget : nat) (w : Fingerprinter P)
    (Hall : allocated w)
    (Hstart : 0 <= startIndex (cd w) <= fbIndex (cd w))
    (Hdata : windowFrames <= fbIndex (cd w) <= fbLen (cd w))
    (Hbudget : fbIndex (cd w) - windowFrames - startIndex (cd w) + 1
               <= Z.of_nat budget) :
  exists status w' ev,
    analysis_loop budget w = Done (status, w', ev) /\
    allocated w' /\
    fbIndex (cd w') = fbIndex (cd w) /\
    (nan_reported ev \/
     (windows_of ev =
        window_starts budget (startIndex (cd w)) (fbIndex (cd w) - windowFrames) /\
      startIndex (cd w') = startIndex (cd w) + stepSize * len (windows_of ev) /\
      fbIndex (cd w') - windowFrames < startIndex (cd w') <= fbIndex (cd w'))).
Proof. exact (@analysis_loop_inv budget w Hall Hstart Hdata Hbudget). Qed.

(** Lines 104-125 under the invariant. *)
Lemma append_frames_ok d n (data : list Z) :
  len (frameBuffer d) = fbLen d -> fbLen d = fbLen_setup ->
  cursors_ok d -> 0 <= n <= specRes -> n <= len data ->
  exists d' out,
    append_frames d n data = Done (d', out) /\
    0 <= startIndex d' <= fbIndex d' /\
    fbIndex d' <= fbLen d' /\
    fbIndex d' - startIndex d' < specRes + n /\
    (fbIndex d' < windowFrames -> fbIndex d' - startIndex d' < specRes).
Proof.
  intros Hfb Hlen ((Hs0 & Hs1) & Hf & Hc) Hn Hd.
  unfold append_frames.
  assert (Hroom : exists d1,
             make_room d n = Done d1 /\
             len (frameBuffer d1) = 22050 /\ fbLen d1 = 22050 /\
             0 <= startIndex d1 <= fbIndex d1 /\
             fbIndex d1 + n <= 22050 /\
             fbIndex d1 - startIndex d1 < specRes).
  { destruct (Z_le_gt_dec (fbLen d - n) (fbIndex d)) as [Hfull|Hfree].
    - rewrite (@make_room_when_full d n Hfb Hlen Hn)
        by (split; assumption).
      eexists. split; [reflexivity|].
      cbn [frameBuffer fbLen startIndex fbIndex].
      rewrite Hlen, fbLen_setup_eq in *. unfold specRes in *.
      change (22050 / 2) with 11025.
      assert (Hh : length (firstn (Z.to_nat 11025) (frameBuffer d))
                   = Z.to_nat 11025).
      { rewrite length_firstn. unfold len in Hfb. lia. }
      unfold len. rewrite length_app, Hh. lia.
    - exists d. unfold make_room.
      rewrite Hlen, fbLen_setup_eq in *. unfold specRes in *.
      rewrite !u32_id by lia.
      replace (fbIndex d >=? 22050 - n) with false
        by (symmetry; rewrite Z.geb_leb; apply Z.leb_gt; lia).
      repeat split; auto; lia. }
  destruct Hroom as (d1 & E1 & L1 & L2 & Hs & Hf1 & Hc1).
  rewrite E1. cbn [bind]. unfold vDSP_vflt32, vDSP_vfilli.
  unfold specRes in *.
  destruct (load data 0 n) as [a| |] eqn:E2;
    try (rewrite load_ok in E2 by lia; discriminate E2).
  pose proof (load_len _ _ _ E2) as La. cbn [bind].
  destruct (store (frameBuffer d1) (fbIndex d1) (map F32.of_Z a))
    as [fb| |] eqn:E3;
    try (rewrite store_ok in E3 by (rewrite ?len_map; lia); discriminate E3).
  cbn [bind].
  destruct (store data 0 (repeat 0 (Z.to_nat n))) as [out| |] eqn:E4;
    try (rewrite store_ok in E4 by (rewrite ?len_repeat; lia); discriminate E4).
  cbn [bind].
  eexists. eexists. split; [reflexivity|].
  cbn [startIndex fbIndex fbLen].
  rewrite windowFrames_eq, s32_id by (unfold int_range; lia).
  repeat split; lia.
Qed.

(** On an object whose arrays are allocated as the constructor does and
    whose cursors are in order, a callback that delivers no more than
    [specRes] samples returns: no access leaves an array and the loop ends.
    The arrays keep their sizes, and the cursors stay in order unless a
    cycle ended on the not-a-number return. *)
Theorem callback_returns w (n : Z) (data : list Z)
    (Hall : allocated w) (Hcur : cursors_ok (cd w))
    (Hn : 0 <= n <= specRes) (Hdata : n <= len data) :
  exists status out w' ev,
    callback w n (Some data) = Done (status, Some out, w', ev) /\
    allocated w' /\
    (nan_reported ev \/ cursors_ok (cd w')).
Proof.
  pose proof Hall as (HA & Hh & Hacc & Hfb & Hlen & Hre & Him & Hfp).
  unfold callback.
  destruct (@append_frames_ok (cd w) n data Hfb Hlen Hcur Hn Hdata)
    as (d & out & E & Hs & Hf & Hc & Hsmall).
  rewrite E. cbn [bind].
  pose proof (append_frames_inv _ _ _ E) as (I1 & I2 & I3 & I4 & I5 & I6 & I7 & I8).
  assert (Hall1 : allocated (set_cd w d)).
  { unfold allocated. cbn [set_cd cd fingerprint].
    rewrite I1, I2, I3, I5, I6, I7, I8. repeat split; assumption. }
  destruct (Z.ltb_spec (fbIndex d) windowFrames) as [Hlt|Hge].
  - eexists. eexists. eexists. eexists. split; [reflexivity|].
    split; [exact Hall1|]. right. unfold cursors_ok. cbn [set_cd cd].
    pose proof (Hsmall Hlt). repeat split; lia.
  - destruct (@analysis_loop_inv (loop_budget d) (set_cd w d) Hall1)
      as (st & w2 & ev & E2 & Hall2 & Hfb2 & Hres).
    { cbn [set_cd cd]. exact Hs. }
    { cbn [set_cd cd]. lia. }
    { cbn [set_cd cd]. unfold loop_budget.
      rewrite I5, Hlen, fbLen_setup_eq in Hf. rewrite windowFrames_eq in *.
      rewrite s32_id by (unfold int_range; lia). lia. }
    rewrite E2. cbn [bind].
    eexists. eexists. eexists. eexists. split; [reflexivity|].
    split; [exact Hall2|].
    destruct Hres as [Hnan|(Hw & Hst & Hc2)].
    + left. apply nan_reported_app. right. exact Hnan.
    + right. unfold cursors_ok. cbn [set_cd cd] in *.
      destruct Hall2 as (_ & _ & _ & _ & Hlen2 & _).
      pose proof (analysis_loop_frame _ _ E2) as (_ & _ & _ & Hl & _).
      cbn [set_cd cd] in Hl.
      rewrite windowFrames_eq in *. unfold specRes.
      assert (0 <= startIndex (cd w2)).
      { rewrite Hst, stepSize_eq. unfold len. lia. }
      rewrite Hfb2 in *. repeat split; try lia; congruence.
Qed.
End CallbackSafety.

(** ** Tools for the lemmas that follow *)

Lemma Done_inj (T : Type) (a b : T) : Done a = Done b -> a = b.
Proof. intros H. injection H. auto. Qed.

Ltac done_inv H :=
  apply Done_inj in H;
  repeat match type of H with
    | (_, _) = (_, _) =>
        let H1 := fresh in
        apply pair_equal_spec in H; destruct H as [H H1];
        first [subst | idtac]
    end;
  first [subst | idtac].

Lemma spectra_of_app ev1 ev2 :
  spectra_of (ev1 ++ ev2) = spectra_of ev1 ++ spectra_of ev2.
Proof.
  induction ev1 as [|e ev1 IH]; [reflexivity|].
  destruct e; simpl; rewrite ?IH; reflexivity.
Qed.

Lemma count_updates_spectra ev :
  count_updates ev = length (spectra_of ev).
Proof.
  unfold count_updates.
  induction ev as [|e ev IH]; [reflexivity|].
  destruct e; simpl; rewrite ?IH; reflexivity.
Qed.

Lemma spectra_of_lock_events rc : spectra_of (lock_events rc) = [].
Proof. unfold lock_events. destruct (rc =? 0); reflexivity. Qed.

Lemma spectra_of_ev0 (n : Z) (ev : list Event) :
  spectra_of
    ((if n >? u32 windowFrames
      then [EvStderr "Error: buffer is too small."%string] else []) ++ ev)
  = spectra_of ev.
Proof. destruct (n >? u32 windowFrames); reflexivity. Qed.

Lemma count_updates_app ev1 ev2 :
  count_updates (ev1 ++ ev2) = (count_updates ev1 + count_updates ev2)%nat.
Proof. rewrite !count_updates_spectra, spectra_of_app. apply length_app. Qed.

Lemma len_app (T : Type) (a b : list T) : len (a ++ b) = len a + len b.
Proof. unfold len. rewrite length_app. lia. Qed.

Lemma len_nonneg (T : Type) (a : list T) : 0 <= len a.
Proof. unfold len. lia. Qed.

Section Prefixes.
Variable T : Type.
Implicit Types buf src a b : list T.

Lemma skipn_app_exact a b : skipn (length a) (a ++ b) = b.
Proof. rewrite skipn_app, skipn_all, Nat.sub_diag. reflexivity. Qed.

Lemma firstn_app_exact a b : firstn (length a) (a ++ b) = a.
Proof.
  rewrite firstn_app, firstn_all, Nat.sub_diag. cbn [firstn].
  apply app_nil_r.
Qed.

Lemma load_firstn buf n :
  0 <= n <= len buf -> load buf 0 n = Done (firstn (Z.to_nat n) buf).
Proof. intros H. rewrite load_ok by lia. reflexivity. Qed.

Lemma load_prefix a b : load (a ++ b) 0 (len a) = Done a.
Proof.
  rewrite load_firstn by (rewrite len_app; pose proof (len_nonneg b);
                          pose proof (len_nonneg a); lia).
  unfold len. rewrite Nat2Z.id, firstn_app_exact. reflexivity.
Qed.

Lemma store_prefix buf src :
  len src <= len buf -> store buf 0 src = Done (src ++ skipn (length src) buf).
Proof. intros H. rewrite store_ok by lia. reflexivity. Qed.

End Prefixes.

Lemma nan_test_true x : nan_test x = true -> x = S754_nan.
Proof. destruct x as [[|]| [|] | |[|] m e]; cbn; intros H; congruence. Qed.

Lemma nan_test_nan : nan_test S754_nan = true.
Proof. reflexivity. Qed.

Lemma add_nan x : F32.add x S754_nan = S754_nan.
Proof. destruct x; reflexivity. Qed.

Lemma dB_nan (log10f : spec_float -> spec_float) F B :
  log10f S754_nan = S754_nan -> dB log10f F B S754_nan = S754_nan.
Proof.
  intros H. unfold dB.
  replace (F32.div S754_nan B) with S754_nan by reflexivity.
  rewrite H. destruct (F =? 1); reflexivity.
Qed.

Lemma hd_firstn (T : Type) (d : T) (l : list T) n :
  (0 < n)%nat -> hd d (firstn n l) = hd d l.
Proof. destruct n; [lia|]. destruct l; reflexivity. Qed.

Lemma hd_app (T : Type) (d : T) (a b : list T) :
  a <> [] -> hd d (a ++ b) = hd d a.
Proof. destruct a; [congruence|reflexivity]. Qed.

Lemma load_head (T : Type) (d : T) (buf l : list T) n :
  load buf 0 n = Done l -> 0 < n -> l <> [] /\ hd d l = hd d buf.
Proof.
  intros H Hn. pose proof (load_len _ _ _ H) as Hl.
  apply load_inv in H. destruct H as [_ H]. subst l.
  change (Z.to_nat 0) with O in *. rewrite skipn_O in *.
  split.
  - intros E. rewrite E in Hl. unfold len in Hl. cbn in Hl. lia.
  - apply hd_firstn. lia.
Qed.

Lemma store_head (T : Type) (d : T) (buf src l : list T) :
  store buf 0 src = Done l -> src <> [] -> hd d l = hd d src.
Proof.
  intros H Hs. apply store_inv in H. destruct H as [_ H]. subst l.
  change (Z.to_nat 0) with O. cbn [firstn app]. apply hd_app. exact Hs.
Qed.

Lemma read_hd (T : Type) (d : T) (l : list T) x :
  read l 0 = Done x -> x = hd d l.
Proof.
  unfold read. cbn. destruct l as [|y l]; cbn; intros H;
    [discriminate H|]. inversion H. reflexivity.
Qed.

(** ** What the callback publishes *)

Section Publication.
Variable P : Platform.
Hypothesis Hsummary : forall sp, len (getSummary P sp) = fpLength.
Implicit Types w : Fingerprinter P.

Lemma published_nothing w w' :
  spectrogram w' = spectrogram w -> fingerprint w' = fingerprint w ->
  len (fingerprint w) = fpLength ->
  published w [] w'.
Proof.
  intros H1 H2 H3. unfold published. cbn [spectra_of fold_left].
  repeat split; try assumption; [constructor|congruence].
Qed.

Lemma published_app w ev1 w1 ev2 w2 :
  published w ev1 w1 -> published w1 ev2 w2 -> published w (ev1 ++ ev2) w2.
Proof.
  intros (S1 & F1 & A1 & L1) (S2 & F2 & A2 & L2). unfold published.
  rewrite spectra_of_app, fold_left_app, <- S1.
  split; [exact S2|]. split; [|split; [apply Forall_app; split; assumption|exact L2]].
  destruct (spectra_of ev2) as [|s2 l2] eqn:E2.
  - rewrite app_nil_r. cbn [fold_left] in S2. rewrite F2, F1, S2. reflexivity.
  - rewrite F2. destruct (spectra_of ev1); reflexivity.
Qed.

Lemma accumulate_published w f ev :
  accumulate w = Done (f, ev) ->
  len (fingerprint w) = fpLength ->
  published w ev (flow_state f).
Proof.
  unfold accumulate. intros H Hfp.
  destruct (u32 (s32 (accCount (cd w) + 1)) >=? accumulationNum).
  - destruct (pthread_mutex_lock (lock w)) as [rc held].
    destruct (vDSP_vdbcon (log10f P) (acc (cd w)) reference (acc (cd w))
                fpLength 1) as [acc2| |] eqn:E1; cbn [bind] in H;
      [|discriminate H|discriminate H].
    destruct (read acc2 0) as [x0| |] eqn:E2; cbn [bind] in H;
      [|discriminate H|discriminate H].
    destruct (nan_test x0).
    + injection H as <- <-. cbn [flow_state].
      unfold published.
      destruct (rc =? 0);
        cbn [spectra_of app fold_left spectrogram fingerprint].
      all: repeat split; try assumption; constructor.
    + destruct (load acc2 0 fpLength) as [s| |] eqn:E3; cbn [bind] in H;
        [|discriminate H|discriminate H].
      destruct (store (fingerprint w) 0
                  (getSummary P (update P (spectrogram w) s)))
        as [fp| |] eqn:E4; cbn [bind] in H; [|discriminate H|discriminate H].
      destruct (vDSP_vfill F32.zero acc2 fpLength) as [acc3| |] eqn:E5;
        cbn [bind] in H; [|discriminate H|discriminate H].
      rewrite store_all in E4 by (rewrite Hsummary, Hfp; reflexivity).
      injection E4 as <-.
      injection H as <- <-. cbn [flow_state].
      unfold published.
      destruct (rc =? 0);
        cbn [spectra_of app fold_left spectrogram fingerprint].
      all: repeat split;
        [constructor; [exact (load_len _ _ _ E3)|constructor]|apply Hsummary].
  - injection H as <- <-. cbn [flow_state].
    apply published_nothing; [reflexivity|reflexivity|exact Hfp].
Qed.

Lemma window_step_published w f ev :
  window_step w = Done (f, ev) ->
  len (fingerprint w) = fpLength ->
  published w ev (flow_state f).
Proof.
  unfold window_step. intros H Hfp.
  destruct (analyze_window P (cd w)) as [d| |] eqn:E; cbn [bind] in H;
    [|discriminate H|discriminate H].
  destruct (accumulate (set_cd w d)) as [[f0 ev0]| |] eqn:E0; cbn [bind] in H;
    [|discriminate H|discriminate H].
  inversion H; subst.
  apply accumulate_published in E0; [|exact Hfp].
  exact E0.
Qed.

Lemma analysis_loop_published budget : forall w status w' ev,
  analysis_loop budget w = Done (status, w', ev) ->
  len (fingerprint w) = fpLength ->
  published w ev w'.
Proof.
  induction budget as [|budget IH]; intros w status w' ev H Hfp;
    cbn [analysis_loop] in H.
  - destruct (startIndex (cd w) <=? s32 (fbIndex (cd w) - windowFrames));
      [discriminate H|]. inversion H; subst.
    apply published_nothing; [reflexivity|reflexivity|exact Hfp].
  - destruct (startIndex (cd w) <=? s32 (fbIndex (cd w) - windowFrames)).
    2:{ inversion H; subst.
        apply published_nothing; [reflexivity|reflexivity|exact Hfp]. }
    destruct (window_step w) as [[f ev1]| |] eqn:E; cbn [bind] in H;
      [|discriminate H|discriminate H].
    pose proof (window_step_published w E Hfp) as H1.
    destruct f as [w1|st w1]; cbn [flow_state] in H1.
    + match type of H with
      | bind ?m _ = _ => destruct m as [[[st2 w2] ev2]| |] eqn:E2
      end; cbn [bind] in H; [|discriminate H|discriminate H].
      inversion H; subst.
      apply IH in E2; [|apply H1].
      apply (published_app H1 E2).
    + inversion H; subst. exact H1.
Qed.

Lemma callback_published w n render status out w' ev :
  callback w n render = Done (status, out, w', ev) ->
  len (fingerprint w) = fpLength ->
  published w ev w'.
Proof.
  unfold callback. intros H Hfp. destruct render as [data|].
  - destruct (append_frames (cd w) n data) as [[d out0]| |] eqn:E;
      cbn [bind] in H; [|discriminate H|discriminate H].
    destruct (fbIndex d <? windowFrames).
    + inversion H; subst. unfold published.
      rewrite <- (app_nil_r (if n >? u32 windowFrames then _ else _)).
      rewrite spectra_of_ev0. cbn [spectra_of fold_left set_cd spectrogram fingerprint].
      repeat split; try assumption. constructor.
    + destruct (analysis_loop (loop_budget d) (set_cd w d))
        as [[[st w2] ev2]| |] eqn:E0; cbn [bind] in H; [|discriminate H|discriminate H].
      inversion H; subst.
      apply analysis_loop_published in E0; [|exact Hfp].
      unfold published in *. rewrite spectra_of_ev0. exact E0.
  - inversion H; subst. unfold published.
    rewrite spectra_of_ev0. cbn [spectra_of fold_left].
    repeat split; try assumption. constructor.
Qed.

End Publication.

(** ** The window counter *)

Section Counter.
Variable P : Platform.
Implicit Types w : Fingerprinter P.

(** Lines 152-177 and the counter: a cycle ends exactly when the counter
    reaches [accumulationNum]. *)
Lemma accumulate_counter w f ev :
  accumulate w = Done (f, ev) ->
  counter_ok (cd w) ->
  windows_of ev = [] /\
  match f with
  | Next w' =>
      counter_ok (cd w') /\
      accCount (cd w') + accumulationNum * Z.of_nat (count_updates ev)
        = accCount (cd w) + 1
  | Return _ _ => nan_reported ev
  end.
Proof.
  unfold accumulate, counter_ok, accumulationNum. intros H Hc.
  rewrite s32_id in H by (unfold int_range; lia).
  rewrite u32_id in H by lia.
  destruct (Z.geb_spec (accCount (cd w) + 1) 10) as [Hge|Hlt].
  - destruct (pthread_mutex_lock (lock w)) as [rc held].
    destruct (vDSP_vdbcon (log10f P) (acc (cd w)) reference (acc (cd w))
                fpLength 1) as [acc2| |] eqn:E1; cbn [bind] in H;
      [|discriminate H|discriminate H].
    destruct (read acc2 0) as [x0| |] eqn:E2; cbn [bind] in H;
      [|discriminate H|discriminate H].
    destruct (lock_events_quiet rc) as [Hq Hw].
    destruct (nan_test x0).
    + done_inv H.
      split; [rewrite windows_of_app, Hw; reflexivity|].
      apply nan_reported_app. right. left. reflexivity.
    + destruct (load acc2 0 fpLength) as [s| |] eqn:E3; cbn [bind] in H;
        [|discriminate H|discriminate H].
      destruct (store (fingerprint w) 0
                  (getSummary P (update P (spectrogram w) s)))
        as [fp| |] eqn:E4; cbn [bind] in H; [|discriminate H|discriminate H].
      destruct (vDSP_vfill F32.zero acc2 fpLength) as [acc3| |] eqn:E5;
        cbn [bind] in H; [|discriminate H|discriminate H].
      done_inv H.
      split; [rewrite windows_of_app, Hw; reflexivity|].
      rewrite count_updates_spectra, spectra_of_app, spectra_of_lock_events.
      cbn [cd set_acc accCount spectra_of app length]. lia.
  - done_inv H. split; [reflexivity|].
    cbn [set_cd cd set_acc accCount count_updates filter length]. lia.
Qed.

Lemma window_step_counter w f ev :
  window_step w = Done (f, ev) ->
  counter_ok (cd w) ->
  windows_of ev = [startIndex (cd w)] /\
  match f with
  | Next w' =>
      counter_ok (cd w') /\
      accCount (cd w') + accumulationNum * Z.of_nat (count_updates ev)
        = accCount (cd w) + 1
  | Return _ _ => nan_reported ev
  end.
Proof.
  unfold window_step. intros H Hc.
  destruct (analyze_window P (cd w)) as [d| |] eqn:E; cbn [bind] in H;
    [|discriminate H|discriminate H].
  destruct (accumulate (set_cd w d)) as [[f0 ev0]| |] eqn:E0; cbn [bind] in H;
    [|discriminate H|discriminate H].
  done_inv H.
  pose proof (analyze_window_frame _ _ E) as (_ & _ & _ & _ & _ & Hcount).
  apply accumulate_counter in E0;
    [|unfold counter_ok; cbn [set_cd cd]; rewrite Hcount; exact Hc].
  destruct E0 as [Hw Hf]. cbn [windows_of]. rewrite Hw.
  split; [reflexivity|].
  cbn [set_cd cd] in Hf. rewrite Hcount in Hf.
  destruct f as [w1|st w1].
  - exact Hf.
  - right. exact Hf.
Qed.

Lemma analysis_loop_counter budget : forall w status w' ev,
  analysis_loop budget w = Done (status, w', ev) ->
  counter_ok (cd w) ->
  nan_reported ev \/
  (counter_ok (cd w') /\
   accCount (cd w') + accumulationNum * Z.of_nat (count_updates ev)
     = accCount (cd w) + len (windows_of ev)).
Proof.
  induction budget as [|budget IH]; intros w status w' ev H Hc;
    cbn [analysis_loop] in H.
  - destruct (startIndex (cd w) <=? s32 (fbIndex (cd w) - windowFrames));
      [discriminate H|]. done_inv H.
    right. split; [exact Hc|]. cbn. lia.
  - destruct (startIndex (cd w) <=? s32 (fbIndex (cd w) - windowFrames)).
    2:{ done_inv H. right. split; [exact Hc|]. cbn. lia. }
    destruct (window_step w) as [[f ev1]| |] eqn:E; cbn [bind] in H;
      [|discriminate H|discriminate H].
    destruct (window_step_counter w E Hc) as [Hw1 Hf].
    destruct f as [w1|st w1].
    + match type of H with
      | bind ?m _ = _ => destruct m as [[[st2 w2] ev2]| |] eqn:E2
      end; cbn [bind] in H; [|discriminate H|discriminate H].
      done_inv H.
      destruct Hf as [Hc1 Hn1].
      apply IH in E2; [|exact Hc1].
      cbn [set_cd cd set_startIndex accCount] in E2.
      destruct E2 as [Hnan|[Hc2 Hn2]].
      * left. apply nan_reported_app. right. exact Hnan.
      * right. split; [exact Hc2|].
        rewrite count_updates_app, windows_of_app, len_app, Hw1.
        unfold len at 1. cbn [length]. lia.
    + done_inv H. left. exact Hf.
Qed.

End Counter.

(** ** The windows the loop condition admits *)

Lemma window_starts_enough b : forall b' s bound,
  bound - s + 1 <= Z.of_nat b -> bound - s + 1 <= Z.of_nat b' ->
  window_starts b s bound = window_starts b' s bound.
Proof.
  induction b as [|b IH]; intros b' s bound H1 H2.
  - destruct b' as [|b']; [reflexivity|]. cbn [window_starts].
    replace (s <=? bound) with false by (symmetry; apply Z.leb_gt; lia).
    reflexivity.
  - cbn [window_starts]. destruct (Z.leb_spec s bound) as [Hle|Hgt].
    + destruct b' as [|b']; [lia|]. cbn [window_starts].
      replace (s <=? bound) with true by (symmetry; apply Z.leb_le; lia).
      f_equal. apply IH; rewrite stepSize_eq; lia.
    + destruct b' as [|b']; [reflexivity|]. cbn [window_starts].
      replace (s <=? bound) with false by (symmetry; apply Z.leb_gt; lia).
      reflexivity.
Qed.

Lemma eligible_windows_enough b s bound :
  bound - s + 1 <= Z.of_nat b ->
  window_starts b s bound = eligible_windows s bound.
Proof.
  intros H. unfold eligible_windows. apply window_starts_enough; lia.
Qed.

Lemma eligible_windows_nil s bound :
  bound < s -> eligible_windows s bound = [].
Proof.
  intros H. unfold eligible_windows.
  replace (Z.to_nat (bound - s + 1)) with O by lia. reflexivity.
Qed.

Lemma eligible_windows_cons s bound :
  s <= bound ->
  eligible_windows s bound = s :: eligible_windows (s + stepSize) bound.
Proof.
  intros H. unfold eligible_windows at 1.
  destruct (Z.to_nat (bound - s + 1)) as [|b] eqn:E; [lia|].
  cbn [window_starts].
  replace (s <=? bound) with true by (symmetry; apply Z.leb_le; lia).
  f_equal. apply eligible_windows_enough. rewrite stepSize_eq. lia.
Qed.

(** Less than a window's length of positions holds at most three starts. *)
Lemma eligible_windows_short s bound :
  bound - s < specRes -> (length (eligible_windows s bound) <= 3)%nat.
Proof.
  unfold specRes. intros H.
  destruct (Z_lt_le_dec bound s) as [H0|H0];
    [rewrite eligible_windows_nil by lia; cbn; lia|].
  rewrite eligible_windows_cons by lia.
  destruct (Z_lt_le_dec bound (s + stepSize)) as [H1|H1];
    [rewrite eligible_windows_nil by lia; cbn; lia|].
  rewrite eligible_windows_cons by lia.
  destruct (Z_lt_le_dec bound (s + stepSize + stepSize)) as [H2|H2];
    [rewrite eligible_windows_nil by lia; cbn; lia|].
  rewrite eligible_windows_cons by lia.
  rewrite eligible_windows_nil by (rewrite stepSize_eq in *; lia).
  cbn. lia.
Qed.

(** The starts up to a later bound are the starts up to an earlier one
    followed by the ones that continue from there. *)
Lemma eligible_windows_split k : forall s b1 b2,
  b1 - s + 1 <= Z.of_nat k -> b1 <= b2 ->
  eligible_windows s b2 =
  eligible_windows s b1
    ++ eligible_windows (s + stepSize * len (eligible_windows s b1)) b2.
Proof.
  induction k as [|k IH]; intros s b1 b2 Hk Hb.
  - rewrite (@eligible_windows_nil s b1) by lia.
    unfold len. cbn [length app]. f_equal. lia.
  - destruct (Z_lt_le_dec b1 s) as [H0|H0].
    + rewrite (@eligible_windows_nil s b1) by lia.
      unfold len. cbn [length app]. f_equal. lia.
    + rewrite (@eligible_windows_cons s b1), (@eligible_windows_cons s b2) by lia.
      cbn [app]. f_equal.
      rewrite (IH (s + stepSize) b1 b2) by (rewrite ?stepSize_eq; lia).
      f_equal. f_equal. unfold len. cbn [length]. lia.
Qed.

Lemma eligible_windows_app s b1 b2 :
  b1 <= b2 ->
  eligible_windows s b2 =
  eligible_windows s b1
    ++ eligible_windows (s + stepSize * len (eligible_windows s b1)) b2.
Proof.
  intros H. apply (@eligible_windows_split (Z.to_nat (b1 - s + 1))); lia.
Qed.

(** How many starts there are. *)
Lemma eligible_windows_count k : forall s b,
  b - s + 1 <= Z.of_nat k ->
  len (eligible_windows s b) = Z.max 0 ((b - s) / stepSize + 1).
Proof.
  rewrite stepSize_eq.
  induction k as [|k IH]; intros s b Hk.
  - rewrite eligible_windows_nil by lia. unfold len. cbn [length].
    assert ((b - s) / 441 < 0) by (apply Z.div_lt_upper_bound; lia). lia.
  - destruct (Z_lt_le_dec b s) as [H0|H0].
    + rewrite eligible_windows_nil by lia. unfold len. cbn [length].
      assert ((b - s) / 441 < 0) by (apply Z.div_lt_upper_bound; lia). lia.
    + rewrite eligible_windows_cons by lia.
      assert (Hl : forall (x : Z) l, len (x :: l) = 1 + len l)
        by (intros; unfold len; cbn [length]; lia).
      rewrite Hl, stepSize_eq, IH by lia.
      replace (b - (s + 441)) with (b - s + (-1) * 441) by lia.
      rewrite Z.div_add by lia.
      assert (0 <= (b - s) / 441) by (apply Z.div_pos; lia). lia.
Qed.

Lemma eligible_windows_len s b :
  len (eligible_windows s b) = Z.max 0 ((b - s) / stepSize + 1).
Proof. apply (@eligible_windows_count (Z.to_nat (b - s + 1))). lia. Qed.

(** ** What the callback returns *)

Section Status.
Variable P : Platform.
Implicit Types w : Fingerprinter P.

Lemma accumulate_status w st w' ev :
  accumulate w = Done (Return st w', ev) -> st = 0.
Proof.
  unfold accumulate. intros H.
  destruct (u32 (s32 (accCount (cd w) + 1)) >=? accumulationNum).
  - destruct (pthread_mutex_lock (lock w)) as [rc held].
    exec_inv H. split_nan H.
    + apply Done_inj in H. congruence.
    + exec_inv H. apply Done_inj in H. congruence.
  - apply Done_inj in H. congruence.
Qed.

Lemma window_step_status w st w' ev :
  window_step w = Done (Return st w', ev) -> st = 0.
Proof.
  unfold window_step. intros H.
  destruct (analyze_window P (cd w)) as [d| |] eqn:E; cbn [bind] in H;
    [|discriminate H|discriminate H].
  destruct (accumulate (set_cd w d)) as [[f0 ev0]| |] eqn:E0; cbn [bind] in H;
    [|discriminate H|discriminate H].
  apply Done_inj in H.
  assert (f0 = Return st w') by congruence. subst f0.
  exact (accumulate_status _ E0).
Qed.

Lemma analysis_loop_status budget : forall w status w' ev,
  analysis_loop budget w = Done (status, w', ev) -> status = 0.
Proof.
  induction budget as [|budget IH]; intros w status w' ev H;
    cbn [analysis_loop] in H.
  - destruct (startIndex (cd w) <=? s32 (fbIndex (cd w) - windowFrames));
      [discriminate H|]. apply Done_inj in H. congruence.
  - destruct (startIndex (cd w) <=? s32 (fbIndex (cd w) - windowFrames)).
    2:{ apply Done_inj in H. congruence. }
    destruct (window_step w) as [[f ev1]| |] eqn:E; cbn [bind] in H;
      [|discriminate H|discriminate H].
    destruct f as [w1|st w1].
    + match type of H with
      | bind ?m _ = _ => destruct m as [[[st2 w2] ev2]| |] eqn:E2
      end; cbn [bind] in H; [|discriminate H|discriminate H].
      apply Done_inj in H. apply IH in E2. congruence.
    + apply Done_inj in H. apply window_step_status in E. congruence.
Qed.

(** Lines 117-125: the caller's buffer comes back with its first
    [inNumberFrames] samples zeroed. *)
Lemma append_frames_out d n data d' out :
  append_frames d n data = Done (d', out) ->
  0 <= n <= len data /\
  out = repeat 0 (Z.to_nat n) ++ skipn (Z.to_nat n) data.
Proof.
  unfold append_frames. intros H.
  destruct (make_room d n) as [d1| |] eqn:E1; cbn [bind] in H;
    [|discriminate H|discriminate H].
  destruct (vDSP_vflt32 data (frameBuffer d1) (fbIndex d1) n)
    as [fb| |] eqn:E2; cbn [bind] in H; [|discriminate H|discriminate H].
  destruct (vDSP_vfilli 0 data n) as [o| |] eqn:E3; cbn [bind] in H;
    [|discriminate H|discriminate H].
  apply Done_inj in H. assert (o = out) by congruence. subst o.
  unfold vDSP_vfilli in E3.
  destruct (load data 0 n) as [x| |] eqn:E4; cbn [bind] in E3;
    [|discriminate E3|discriminate E3].
  apply load_inv in E4. destruct E4 as [Hb _].
  apply in_bounds_true in Hb.
  apply store_inv in E3. destruct E3 as [_ Hout].
  rewrite repeat_length in Hout. change (Z.to_nat 0) with O in Hout.
  cbn [firstn app Nat.add] in Hout.
  split; [lia|exact Hout].
Qed.


(** The callback returns 1, with the object untouched and no buffer
    handed back, exactly when [AudioUnitRender] failed. Otherwise it returns
    0 on every path (too little data, the loop run to its end, the
    not-a-number return), [inNumberFrames] does not exceed what the buffer
    holds, and the caller's buffer comes back with its first
    [inNumberFrames] samples set to zero and the rest as it was. *)
Theorem callback_status_and_output w (n : Z) (render : option (list Z))
    status out w' ev
    (H : callback w n render = Done (status, out, w', ev)) :
  match render with
  | None => status = 1 /\ out = None /\ w' = w
  | Some data =>
      status = 0 /\ 0 <= n <= len data /\
      out = Some (repeat 0 (Z.to_nat n) ++ skipn (Z.to_nat n) data)
  end.
Proof.
  unfold callback in H. destruct render as [data|].
  - destruct (append_frames (cd w) n data) as [[d out0]| |] eqn:E;
      cbn [bind] in H; [|discriminate H|discriminate H].
    apply append_frames_out in E. destruct E as [Hn Hout].
    destruct (fbIndex d <? windowFrames).
    + apply Done_inj in H. split; [congruence|]. split; [exact Hn|congruence].
    + destruct (analysis_loop (loop_budget d) (set_cd w d))
        as [[[st w2] ev2]| |] eqn:E0; cbn [bind] in H; [|discriminate H|discriminate H].
      apply analysis_loop_status in E0.
      apply Done_inj in H. split; [congruence|]. split; [exact Hn|congruence].
  - apply Done_inj in H. repeat split; congruence.
Qed.

End Status.

Section Steps.
Variable P : Platform.
Hypothesis HP : platform_ok P.
Implicit Types w : Fingerprinter P.
Implicit Types d : CallbackData.

Lemma ev0_quiet n :
  n <= specRes ->
  (if n >? u32 windowFrames
   then [EvStderr "Error: buffer is too small."%string] else []) = [].
Proof.
  intros H. rewrite windowFrames_eq, u32_id by lia. unfold specRes in H.
  replace (n >? 1024) with false; [reflexivity|].
  symmetry. rewrite Z.gtb_ltb. apply Z.ltb_ge. lia.
Qed.

(** The callback from the point where the samples are in the frame buffer. *)
Lemma callback_from_append w n (data : list Z) d out :
  allocated w -> counter_ok (cd w) -> n <= specRes ->
  append_frames (cd w) n data = Done (d, out) ->
  0 <= startIndex d <= fbIndex d -> fbIndex d <= fbLen d ->
  fbIndex d - startIndex d < 2 * specRes ->
  exists w' ev,
    callback w n (Some data) = Done (0, Some out, w', ev) /\
    allocated w' /\
    frameBuffer (cd w') = frameBuffer d /\
    fbIndex (cd w') = fbIndex d /\
    (nan_reported ev \/
     (cursors_ok (cd w') /\ counter_ok (cd w') /\
      windows_of ev =
        eligible_windows (startIndex d) (fbIndex d - windowFrames) /\
      startIndex (cd w') = startIndex d + stepSize * len (windows_of ev) /\
      accCount (cd w') + accumulationNum * Z.of_nat (count_updates ev)
        = accCount (cd w) + len (windows_of ev))).
Proof.
  intros Hall Hcount Hn E Hs Hf Hc.
  pose proof Hall as (HA & Hh & Hacc & Hfb & Hlen & Hre & Him & Hfp).
  pose proof (append_frames_inv _ _ _ E) as (I1 & I2 & I3 & I4 & I5 & I6 & I7 & I8).
  assert (Hall1 : allocated (set_cd w d)).
  { unfold allocated. cbn [set_cd cd fingerprint].
    rewrite I1, I2, I3, I5, I6, I7, I8. repeat split; assumption. }
  unfold callback. rewrite E. cbn [bind]. rewrite (ev0_quiet Hn).
  destruct (Z.ltb_spec (fbIndex d) windowFrames) as [Hlt|Hge].
  - exists (set_cd w d), []. split; [reflexivity|].
    split; [exact Hall1|]. cbn [set_cd cd].
    split; [reflexivity|]. split; [reflexivity|]. right.
    rewrite windowFrames_eq in Hlt.
    rewrite eligible_windows_nil by (rewrite windowFrames_eq; lia).
    unfold cursors_ok, counter_ok, specRes. rewrite I4.
    cbn [windows_of count_updates filter length]. unfold len. cbn [length].
    repeat split; try lia; apply Hcount.
  - destruct (@analysis_loop_inv P HP (loop_budget d) (set_cd w d) Hall1)
      as (st & w2 & ev & E2 & Hall2 & Hfb2 & Hres).
    { cbn [set_cd cd]. exact Hs. }
    { cbn [set_cd cd]. lia. }
    { cbn [set_cd cd]. unfold loop_budget.
      rewrite I5, Hlen, fbLen_setup_eq in Hf. rewrite windowFrames_eq in *.
      rewrite s32_id by (unfold int_range; lia). lia. }
    rewrite E2. cbn [bind app].
    pose proof (analysis_loop_status _ _ E2) as Hst. subst st.
    exists w2, ev. split; [reflexivity|]. split; [exact Hall2|].
    pose proof (analysis_loop_frame _ _ E2) as (_ & Hfr & _ & Hl & _).
    cbn [set_cd cd] in Hfr, Hl, Hfb2.
    split; [exact Hfr|]. split; [exact Hfb2|].
    destruct Hres as [Hnan|(Hw & Hst & Hc2)]; [left; exact Hnan|].
    destruct (@analysis_loop_counter P _ _ _ _ _ E2) as [Hnan|[Hc3 Hn3]];
      [unfold counter_ok; cbn [set_cd cd]; rewrite I4; exact Hcount
      |left; exact Hnan|].
    right. cbn [set_cd cd] in Hw, Hst, Hc2, Hn3.
    rewrite I4 in Hn3.
    assert (Hww : windows_of ev
                  = eligible_windows (startIndex d) (fbIndex d - windowFrames)).
    { rewrite Hw. apply eligible_windows_enough. unfold loop_budget.
      rewrite I5, Hlen, fbLen_setup_eq in Hf. rewrite windowFrames_eq in *.
      rewrite s32_id by (unfold int_range; lia). lia. }
    split.
    { unfold cursors_ok. rewrite windowFrames_eq in *. unfold specRes.
      assert (0 <= startIndex (cd w2)).
      { rewrite Hst, stepSize_eq. unfold len. lia. }
      rewrite Hfb2 in *. repeat split; try lia; congruence. }
    split; [exact Hc3|]. split; [exact Hww|]. split; [exact Hst|exact Hn3].
Qed.

(** One callback on an object in order. *)
Lemma callback_step w n (data : list Z) :
  pipeline_ok w -> 0 <= n <= specRes -> n <= len data ->
  exists out w' ev,
    callback w n (Some data) = Done (0, Some out, w', ev) /\
    allocated w' /\
    (nan_reported ev \/
     (pipeline_ok w' /\
      (length (windows_of ev) <= 3)%nat /\
      (count_updates ev <= 1)%nat /\
      accCount (cd w') + accumulationNum * Z.of_nat (count_updates ev)
        = accCount (cd w) + len (windows_of ev))).
Proof.
  intros (Hall & Hcur & Hcount) Hn Hdata.
  pose proof Hall as (HA & Hh & Hacc & Hfb & Hlen & Hre & Him & Hfp).
  destruct (@append_frames_ok (cd w) n data Hfb Hlen Hcur Hn Hdata)
    as (d & out & E & Hs & Hf & Hc & Hsmall).
  destruct (@callback_from_append w n data d out Hall Hcount)
    as (w' & ev & Ecall & Hall' & _ & _ & Hres);
    try assumption; try lia.
  exists out, w', ev. split; [exact Ecall|]. split; [exact Hall'|].
  destruct Hres as [Hnan|(Hcur' & Hcount' & Hw & Hst & Hacc')];
    [left; exact Hnan|right].
  split; [exact (conj Hall' (conj Hcur' Hcount'))|].
  assert (Hshort : (length (windows_of ev) <= 3)%nat).
  { rewrite Hw. apply eligible_windows_short.
    rewrite windowFrames_eq. unfold specRes in *. lia. }
  split; [exact Hshort|]. split; [|exact Hacc'].
  unfold counter_ok, accumulationNum, len in *. lia.
Qed.

(** On an object in order, a callback that delivers no more than
    [specRes] samples returns 0; unless a cycle ended on the not-a-number
    return it leaves the object in order, has analysed at most three windows
    and handed at most one spectrum to the history, so it takes the mutex at
    most once; the counter has advanced by one for each window, less
    [accumulationNum] for the spectrum. *)
Theorem callback_bounded_work w (n : Z) (data : list Z)
    (Hw : pipeline_ok w) (Hn : 0 <= n <= specRes) (Hdata : n <= len data) :
  exists out w' ev,
    callback w n (Some data) = Done (0, Some out, w', ev) /\
    allocated w' /\
    (nan_reported ev \/
     (pipeline_ok w' /\
      (length (windows_of ev) <= 3)%nat /\
      (count_updates ev <= 1)%nat /\
      accCount (cd w') + accumulationNum * Z.of_nat (count_updates ev)
        = accCount (cd w) + len (windows_of ev))).
Proof. exact (@callback_step w n data Hw Hn Hdata). Qed.

End Steps.

(** ** Successive callbacks *)

Section Feeding.
Variable P : Platform.
Hypothesis HP : platform_ok P.
Implicit Types w : Fingerprinter P.
Implicit Types d : CallbackData.

Lemma feed_cons w (data : list Z) rest out w1 ev1 :
  callback w (len data) (Some data) = Done (0, Some out, w1, ev1) ->
  feed w (data :: rest) =
  ('(w2, ev2) <- feed w1 rest ;; Done (w2, ev1 ++ ev2)).
Proof. intros E. cbn [feed]. rewrite E. reflexivity. Qed.

Lemma feed_nan_now w (data : list Z) rest out w1 ev1 :
  callback w (len data) (Some data) = Done (0, Some out, w1, ev1) ->
  nan_reported ev1 ->
  exists k w' ev,
    feed w (firstn k (data :: rest)) = Done (w', ev) /\ nan_reported ev.
Proof.
  intros E Hnan. exists 1%nat, w1, (ev1 ++ []).
  cbn [firstn]. rewrite (@feed_cons _ _ _ _ _ _ E). cbn [feed bind].
  split; [reflexivity|]. apply nan_reported_app. left. exact Hnan.
Qed.

Lemma feed_nan_later w (data : list Z) rest out w1 ev1 :
  callback w (len data) (Some data) = Done (0, Some out, w1, ev1) ->
  (exists k w' ev,
     feed w1 (firstn k rest) = Done (w', ev) /\ nan_reported ev) ->
  exists k w' ev,
    feed w (firstn k (data :: rest)) = Done (w', ev) /\ nan_reported ev.
Proof.
  intros E (k & w' & ev & E2 & Hnan). exists (S k), w', (ev1 ++ ev).
  cbn [firstn]. rewrite (@feed_cons _ _ _ _ _ _ E), E2. cbn [bind].
  split; [reflexivity|]. apply nan_reported_app. right. exact Hnan.
Qed.

Lemma feed_inv buffers : forall w,
  pipeline_ok w ->
  Forall (fun data => len data <= specRes) buffers ->
  (exists w' ev,
     feed w buffers = Done (w', ev) /\
     pipeline_ok w' /\
     accCount (cd w') + accumulationNum * Z.of_nat (count_updates ev)
       = accCount (cd w) + len (windows_of ev)) \/
  (exists k w' ev,
     feed w (firstn k buffers) = Done (w', ev) /\ nan_reported ev).
Proof.
  induction buffers as [|data rest IH]; intros w Hw Hall.
  - left. exists w, []. split; [reflexivity|]. split; [exact Hw|].
    cbn [windows_of count_updates filter length]. unfold len. cbn [length]. lia.
  - inversion Hall as [|x l Hd Hrest]; subst.
    destruct (@callback_step P HP w (len data) data Hw)
      as (out & w1 & ev1 & E & Hall1 & Hres);
      [pose proof (len_nonneg data); lia|lia|].
    destruct Hres as [Hnan|(Hw1 & _ & _ & Hacc1)].
    { right. exact (@feed_nan_now _ _ rest _ _ _ E Hnan). }
    destruct (IH w1 Hw1 Hrest) as [(w2 & ev2 & E2 & Hw2 & Hacc2)|Hlater].
    + left. exists w2, (ev1 ++ ev2). rewrite (@feed_cons _ _ _ _ _ _ E), E2. cbn [bind].
      split; [reflexivity|]. split; [exact Hw2|].
      rewrite count_updates_app, windows_of_app, len_app. lia.
    + right. exact (@feed_nan_later _ _ _ _ _ _ E Hlater).
Qed.

(** Lines 104-125 while there is room: the converted samples go to
    [frameBuffer + fbIndex], what is below stays. *)
Lemma append_frames_no_shift d (data : list Z) :
  len (frameBuffer d) = fbLen d -> fbLen d = fbLen_setup ->
  0 <= fbIndex d -> fbIndex d + len data < fbLen d ->
  exists d' out,
    append_frames d (len data) data = Done (d', out) /\
    fbIndex d' = fbIndex d + len data /\
    startIndex d' = startIndex d /\
    buffered d' = buffered d ++ map F32.of_Z data.
Proof.
  intros Hfb Hlen Hf Hroom. pose proof (len_nonneg data) as Hn.
  unfold append_frames, make_room.
  rewrite Hlen, fbLen_setup_eq in *.
  rewrite !u32_id by lia.
  replace (fbIndex d >=? 22050 - len data) with false
    by (symmetry; rewrite Z.geb_leb; apply Z.leb_gt; lia).
  cbn [bind]. unfold vDSP_vflt32, vDSP_vfilli.
  rewrite load_all. cbn [bind].
  rewrite store_ok by (rewrite ?len_map; lia). cbn [bind].
  rewrite store_ok by (rewrite ?len_repeat by lia; lia). cbn [bind].
  eexists. eexists. split; [reflexivity|].
  unfold buffered. cbn [fbIndex startIndex frameBuffer].
  rewrite s32_id by (unfold int_range; lia).
  split; [reflexivity|]. split; [reflexivity|].
  rewrite app_assoc.
  assert (Hl : length (firstn (Z.to_nat (fbIndex d)) (frameBuffer d)
                         ++ map F32.of_Z data)
               = Z.to_nat (fbIndex d + len data)).
  { rewrite length_app, length_firstn, length_map. unfold len in *. lia. }
  rewrite <- Hl. rewrite firstn_app, firstn_all, Nat.sub_diag.
  cbn [firstn]. rewrite app_nil_r. reflexivity.
Qed.

Lemma callback_appends w (data : list Z) :
  pipeline_ok w -> len data <= specRes ->
  fbIndex (cd w) + len data < fbLen_setup ->
  exists out w' ev,
    callback w (len data) (Some data) = Done (0, Some out, w', ev) /\
    fbIndex (cd w') = fbIndex (cd w) + len data /\
    buffered (cd w') = buffered (cd w) ++ map F32.of_Z data /\
    (nan_reported ev \/
     (pipeline_ok w' /\
      windows_of ev =
        eligible_windows (startIndex (cd w)) (fbIndex (cd w') - windowFrames) /\
      startIndex (cd w') = startIndex (cd w) + stepSize * len (windows_of ev))).
Proof.
  intros (Hall & Hcur & Hcount) Hn Hroom.
  pose proof Hall as (HA & Hh & Hacc & Hfb & Hlen & Hre & Him & Hfp).
  pose proof Hcur as ((Hs0 & Hs1) & Hf & Hc).
  pose proof (len_nonneg data) as Hn0.
  destruct (@append_frames_no_shift (cd w) data Hfb Hlen)
    as (d & out & E & Ef & Es & Eb); [lia|rewrite Hlen; exact Hroom|].
  pose proof (append_frames_inv _ _ _ E) as (_ & _ & _ & _ & I5 & _).
  destruct (@callback_from_append P HP w (len data) data d out Hall Hcount Hn E)
    as (w' & ev & Ecall & Hall' & Hfr & Hfi & Hres).
  { rewrite Es, Ef. lia. }
  { rewrite Ef, I5, Hlen. lia. }
  { rewrite Es, Ef. unfold specRes in *. lia. }
  exists out, w', ev. split; [exact Ecall|].
  split; [congruence|].
  split; [unfold buffered in *; rewrite Hfr, Hfi; exact Eb|].
  destruct Hres as [Hnan|(Hcur' & Hcount' & Hw & Hst & _)];
    [left; exact Hnan|right].
  split; [exact (conj Hall' (conj Hcur' Hcount'))|].
  rewrite Hfi, <- Es. split; [exact Hw|exact Hst].
Qed.

Lemma feed_stream buffers : forall w,
  pipeline_ok w ->
  Forall (fun data => len data <= specRes) buffers ->
  fbIndex (cd w) + len (concat buffers) < fbLen_setup ->
  (exists w' ev,
     feed w buffers = Done (w', ev) /\
     pipeline_ok w' /\
     fbIndex (cd w') = fbIndex (cd w) + len (concat buffers) /\
     buffered (cd w') = buffered (cd w) ++ map F32.of_Z (concat buffers) /\
     windows_of ev =
       eligible_windows (startIndex (cd w)) (fbIndex (cd w') - windowFrames) /\
     startIndex (cd w') = startIndex (cd w) + stepSize * len (windows_of ev)) \/
  (exists k w' ev,
     feed w (firstn k buffers) = Done (w', ev) /\ nan_reported ev).
Proof.
  induction buffers as [|data rest IH]; intros w Hw Hall Hroom.
  - left. exists w, []. split; [reflexivity|]. split; [exact Hw|].
    cbn [concat map windows_of]. unfold len. cbn [length].
    rewrite app_nil_r.
    destruct Hw as (_ & ((Hs0 & Hs1) & Hf & Hc) & _).
    rewrite eligible_windows_nil
      by (rewrite windowFrames_eq; unfold specRes in *; lia).
    repeat split; lia.
  - inversion Hall as [|x l Hd Hrest]; subst.
    cbn [concat] in *. rewrite len_app in Hroom.
    pose proof (len_nonneg data) as Hn0.
    pose proof (len_nonneg (concat rest)) as Hn1.
    destruct (@callback_appends w data Hw Hd)
      as (out & w1 & ev1 & E & Ef & Eb & Hres); [lia|].
    destruct Hres as [Hnan|(Hw1 & Hwin1 & Hst1)].
    { right. exact (@feed_nan_now _ _ rest _ _ _ E Hnan). }
    destruct (IH w1 Hw1 Hrest)
      as [(w2 & ev2 & E2 & Hw2 & Ef2 & Eb2 & Hwin2 & Hst2)|Hlater];
      [rewrite Ef; lia| |].
    + left. exists w2, (ev1 ++ ev2). rewrite (@feed_cons _ _ _ _ _ _ E), E2. cbn [bind].
      split; [reflexivity|]. split; [exact Hw2|].
      split; [rewrite Ef2, Ef, len_app; lia|].
      split; [rewrite Eb2, Eb, map_app, app_assoc; reflexivity|].
      rewrite windows_of_app, len_app.
      split.
      * rewrite Hwin2, Hst1, Hwin1.
        symmetry. apply eligible_windows_app. rewrite Ef2. lia.
      * rewrite Hst2, Hst1. lia.
    + right. exact (@feed_nan_later _ _ _ _ _ _ E Hlater).
Qed.

(** Any number of callbacks, each delivering no more than [specRes]
    samples, on an object in order, the frame buffer being shifted as often
    as it fills: either all of them return and leave the object in order,
    one spectrum having been handed to the history for every
    [accumulationNum] windows analysed (those counted that the counter held
    at the start), or one of them ended on the not-a-number return. *)
Theorem feed_keeps_pipeline_in_order w (buffers : list (list Z))
    (Hw : pipeline_ok w)
    (Hsize : Forall (fun data => len data <= specRes) buffers) :
  (exists w' ev,
     feed w buffers = Done (w', ev) /\
     pipeline_ok w' /\
     Z.of_nat (count_updates ev)
       = (accCount (cd w) + len (windows_of ev)) / accumulationNum /\
     accCount (cd w')
       = (accCount (cd w) + len (windows_of ev)) mod accumulationNum) \/
  (exists k w' ev,
     feed w (firstn k buffers) = Done (w', ev) /\ nan_reported ev).
Proof.
  destruct (@feed_inv buffers w Hw Hsize)
    as [(w' & ev & E & Hw' & Hacc)|Hnan]; [left|right; exact Hnan].
  exists w', ev. split; [exact E|]. split; [exact Hw'|].
  destruct Hw' as (_ & _ & Hc). unfold counter_ok, accumulationNum in *.
  split.
  - apply (Z.div_unique_pos _ 10 _ (accCount (cd w'))); lia.
  - apply (Z.mod_unique_pos _ 10 (Z.of_nat (count_updates ev))); lia.
Qed.

(** While the frame buffer has room for all of them, successive buffers
    of no more than [specRes] samples are laid end to end behind what the
    frame buffer held, none lost and none repeated, and the windows analysed
    are the ones at [startIndex], [startIndex + stepSize], ... that fit
    below the last sample, one for every [stepSize] samples: the same
    whatever the sizes of the buffers the stream arrives in. The exception
    is the not-a-number return. *)
Theorem feed_assembles_stream w (buffers : list (list Z))
    (Hw : pipeline_ok w)
    (Hsize : Forall (fun data => len data <= specRes) buffers)
    (Hroom : fbIndex (cd w) + len (concat buffers) < fbLen_setup) :
  (exists w' ev,
     feed w buffers = Done (w', ev) /\
     pipeline_ok w' /\
     fbIndex (cd w') = fbIndex (cd w) + len (concat buffers) /\
     buffered (cd w') = buffered (cd w) ++ map F32.of_Z (concat buffers) /\
     windows_of ev =
       eligible_windows (startIndex (cd w)) (fbIndex (cd w') - windowFrames) /\
     len (windows_of ev) =
       Z.max 0 ((fbIndex (cd w') - windowFrames - startIndex (cd w))
                  / stepSize + 1) /\
     startIndex (cd w') = startIndex (cd w) + stepSize * len (windows_of ev)) \/
  (exists k w' ev,
     feed w (firstn k buffers) = Done (w', ev) /\ nan_reported ev).
Proof.
  destruct (@feed_stream buffers w Hw Hsize Hroom)
    as [(w' & ev & E & Hw' & Hf & Hb & Hwin & Hst)|Hnan];
    [left|right; exact Hnan].
  exists w', ev. split; [exact E|]. split; [exact Hw'|].
  split; [exact Hf|]. split; [exact Hb|]. split; [exact Hwin|].
  split; [|exact Hst].
  rewrite Hwin. apply eligible_windows_len.
Qed.

End Feeding.

(** ** The spectrum of a window *)

Section Spectrum.
Variable P : Platform.
Hypothesis HP : platform_ok P.
Implicit Types d : CallbackData.

Lemma analyze_window_value d
    (HA : len (A d) = 2 * specRes) (Hh : len (hamm d) = specRes)
    (Hacc : len (acc d) = fpLength)
    (Hre : len (realp d) = specRes) (Him : len (imagp d) = specRes)
    (Hs0 : 0 <= startIndex d)
    (Hs1 : startIndex d + specRes <= len (frameBuffer d)) :
  analyze_window P d =
  Done {| A := autospectrum P d ++ skipn (Z.to_nat specRes) (A d);
          hamm := hamm d;
          acc := zip_with F32.add
                   (firstn (Z.to_nat fpLength) (autospectrum P d)) (acc d);
          accCount := accCount d;
          frameBuffer := frameBuffer d; fbIndex := fbIndex d;
          startIndex := startIndex d; fbLen := fbLen d;
          realp := fst (transformed P d); imagp := snd (transformed P d) |}.
Proof.
  pose proof (eq_refl : specRes = 1024) as Hsr.
  unfold autospectrum, power_spectrum, transformed, weighted_frame.
  set (win := firstn (Z.to_nat specRes)
                (skipn (Z.to_nat (startIndex d)) (frameBuffer d))).
  set (upper := skipn (Z.to_nat specRes) (A d)).
  assert (Lwin : len win = specRes).
  { unfold win, len in *. rewrite length_firstn, length_skipn.
    unfold specRes in *. lia. }
  assert (Lupper : len upper = specRes).
  { unfold upper, len in *. rewrite length_skipn. unfold specRes in *. lia. }
  set (zw := zip_with F32.mul win (hamm d)).
  assert (Lzw : len zw = specRes).
  { unfold zw. rewrite len_zip_with; lia. }
  set (fr := zw ++ upper).
  assert (Lfr : len fr = 2 * specRes).
  { unfold fr. rewrite len_app. lia. }
  destruct (@len_evens_odds _ fr specRes Lfr) as [Le Lo].
  destruct HP as [Hfft _].
  destruct (Hfft (evens fr) (odds fr) log2FFTLength) as [F1 F2].
  set (tr := fft_zip P (evens fr) (odds fr) log2FFTLength) in *.
  assert (G1 : len (fst tr) = specRes) by (unfold len in *; rewrite F1; exact Le).
  assert (G2 : len (snd tr) = specRes) by (unfold len in *; rewrite F2; exact Lo).
  set (ps := zip_with F32.add zw (zip_with squared_magnitude (fst tr) (snd tr))).
  assert (Lps : len ps = specRes).
  { unfold ps. rewrite !len_zip_with; rewrite ?len_zip_with; lia. }
  unfold analyze_window.
  (* line 134 *)
  unfold memcpy. rewrite load_ok by (unfold specRes in *; lia).
  fold win. cbn [bind].
  rewrite store_prefix by lia.
  replace (length win) with (Z.to_nat specRes) by (unfold len in Lwin; lia).
  fold upper. cbn [bind].
  (* line 137 *)
  unfold vDSP_vmul.
  rewrite <- Lwin at 1. rewrite load_prefix. cbn [bind].
  rewrite <- Hh at 1. rewrite load_all. cbn [bind]. fold zw.
  rewrite store_prefix by (rewrite len_app; lia).
  replace (length zw) with (length win)
    by (unfold len in Lzw, Lwin; lia).
  rewrite skipn_app_exact. fold fr. cbn [bind].
  (* line 142 *)
  unfold vDSP_ctoz. rewrite <- Lfr. rewrite load_all. cbn [bind].
  rewrite store_all by lia. cbn [bind].
  rewrite store_all by lia. cbn [bind].
  (* line 143 *)
  change (2 ^ log2FFTLength) with specRes.
  rewrite <- Le at 1. rewrite load_all. cbn [bind].
  rewrite <- Lo at 1. rewrite load_all. cbn [bind].
  fold tr.
  rewrite store_all by lia. cbn [bind].
  rewrite store_all by lia. cbn [bind].
  (* line 147 *)
  unfold vDSP_zaspec.
  rewrite <- G1 at 1. rewrite load_all. cbn [bind].
  rewrite <- G2 at 1. rewrite load_all. cbn [bind].
  unfold fr at 1. rewrite <- Lzw at 1. rewrite load_prefix. cbn [bind].
  fold ps. fold fr.
  rewrite store_prefix by lia.
  replace (length ps) with (length zw)
    by (unfold len in Lzw, Lps; lia).
  unfold fr at 1. rewrite skipn_app_exact. cbn [bind].
  (* line 150 *)
  unfold vDSP_vadd.
  rewrite load_firstn
    by (rewrite len_app, Lps, fpLength_eq; unfold specRes in *; lia).
  cbn [bind].
  rewrite firstn_app.
  replace (Z.to_nat fpLength - length ps)%nat with O
    by (unfold len in Lps; rewrite fpLength_eq; unfold specRes in *; lia).
  cbn [firstn]. rewrite app_nil_r.
  rewrite <- Hacc at 1. rewrite load_all. cbn [bind].
  rewrite store_all.
  2:{ rewrite len_zip_with; unfold len in *; rewrite length_firstn;
      rewrite fpLength_eq in *; unfold specRes in *; lia. }
  cbn [bind]. reflexivity.
Qed.

(** Lines 134-150 on arrays of the allocated sizes, with a whole window
    inside the frame buffer. The frame is the weighted window followed by
    the upper half of [A], which is read as it was found and stays as it
    was; it is taken as [specRes] complex numbers and transformed. The
    lower half of the scratch buffer then holds, entry by entry, the
    weighted sample plus the squared magnitude, because [vDSP_zaspec] adds
    to its destination; the first [fpLength] of these entries are added to
    the accumulator; the frame buffer, the cursors and the counter are not
    touched. *)
Theorem analyze_window_adds_autospectrum d
    (HA : len (A d) = 2 * specRes) (Hh : len (hamm d) = specRes)
    (Hacc : len (acc d) = fpLength)
    (Hre : len (realp d) = specRes) (Him : len (imagp d) = specRes)
    (Hs0 : 0 <= startIndex d)
    (Hs1 : startIndex d + specRes <= len (frameBuffer d)) :
  analyze_window P d =
  Done {| A := autospectrum P d ++ skipn (Z.to_nat specRes) (A d);
          hamm := hamm d;
          acc := zip_with F32.add
                   (firstn (Z.to_nat fpLength) (autospectrum P d)) (acc d);
          accCount := accCount d;
          frameBuffer := frameBuffer d; fbIndex := fbIndex d;
          startIndex := startIndex d; fbLen := fbLen d;
          realp := fst (transformed P d); imagp := snd (transformed P d) |}.
Proof. exact (@analyze_window_value d HA Hh Hacc Hre Him Hs0 Hs1). Qed.

End Spectrum.

(** ** One turn of the loop *)

Section Turn.
Variable P : Platform.
Hypothesis HP : platform_ok P.
Implicit Types w : Fingerprinter P.

(** One turn of the loop on an object in order with a whole window at
    [startIndex]. What is added to the accumulator is the first [fpLength]
    entries of the scratch buffer after line 147, each the weighted sample
    plus the squared magnitude of the bin. Short of [accumulationNum]
    windows that is all, and the counter goes up by one. At the window that
    completes the cycle the sum, this window's entries included, is turned
    into [20 * log10(sum / accumulationNum)] bin by bin, the flag passed at
    line 157 being [1]: if its first bin is a number it is what the history
    receives, the fingerprint becomes the new summary and sum and counter
    start again from zero; if not, the turn returns from the callback with
    nothing handed over, the converted sum stays in the accumulator and the
    counter at [accumulationNum]. *)
Theorem window_step_accumulates_or_emits w
    (Hall : allocated w) (Hc : counter_ok (cd w))
    (Hs0 : 0 <= startIndex (cd w))
    (Hs1 : startIndex (cd w) + specRes <= len (frameBuffer (cd w))) :
  let sum := zip_with F32.add
               (firstn (Z.to_nat fpLength) (autospectrum P (cd w)))
               (acc (cd w)) in
  let spectrum := map (dB_of_average P) sum in
  exists w' ev,
    window_step w =
      Done (if (accumulationNum <=? accCount (cd w) + 1)
               && nan_test (hd S754_nan spectrum)
            then Return 0 w' else Next w', ev) /\
    windows_of ev = [startIndex (cd w)] /\
    (accCount (cd w) + 1 < accumulationNum ->
     spectra_of ev = [] /\
     acc (cd w') = sum /\ accCount (cd w') = accCount (cd w) + 1 /\
     fingerprint w' = fingerprint w /\ spectrogram w' = spectrogram w) /\
    (accCount (cd w) + 1 = accumulationNum ->
     nan_test (hd S754_nan spectrum) = true ->
     spectra_of ev = [] /\ nan_reported ev /\
     acc (cd w') = spectrum /\ accCount (cd w') = accumulationNum /\
     fingerprint w' = fingerprint w /\ spectrogram w' = spectrogram w) /\
    (accCount (cd w) + 1 = accumulationNum ->
     nan_test (hd S754_nan spectrum) = false ->
     spectra_of ev = [spectrum] /\
     spectrogram w' = update P (spectrogram w) spectrum /\
     fingerprint w' = getSummary P (spectrogram w') /\
     acc (cd w') = repeat F32.zero (Z.to_nat fpLength) /\
     accCount (cd w') = 0).
Proof.
  intros sum spectrum.
  pose proof Hall as (HA & Hh & Hacc & Hfb & Hlen & Hre & Him & Hfp).
  pose proof (proj2 HP) as Hsummary.
  assert (Hsum : len sum = fpLength).
  { destruct (@analyze_window_ok P HP (cd w) HA Hh Hacc Hre Him Hs0 Hs1)
      as (d0 & E0 & _ & L0 & _).
    rewrite (@analyze_window_value P HP (cd w) HA Hh Hacc Hre Him Hs0 Hs1) in E0.
    apply Done_inj in E0. subst d0. exact L0. }
  unfold window_step.
  rewrite (@analyze_window_value P HP (cd w) HA Hh Hacc Hre Him Hs0 Hs1).
  cbn [bind]. fold sum.
  unfold counter_ok, accumulationNum in *.
  destruct (Z_lt_le_dec (accCount (cd w) + 1) 10) as [Hlt|Hge].
  - unfold accumulate. cbn [set_cd cd accCount acc].
    rewrite s32_id by (unfold int_range; lia). rewrite u32_id by lia.
    unfold accumulationNum.
    replace (accCount (cd w) + 1 >=? 10) with false
      by (symmetry; rewrite Z.geb_leb; apply Z.leb_gt; lia).
    replace (10 <=? accCount (cd w) + 1) with false
      by (symmetry; apply Z.leb_gt; lia).
    cbn [bind andb].
    eexists. eexists. split; [reflexivity|].
    cbn [windows_of spectra_of set_cd cd set_acc acc accCount fingerprint
         spectrogram].
    split; [reflexivity|]. split; [intros _; repeat split|].
    split; intros; lia.
  - assert (Heq : accCount (cd w) + 1 = 10) by lia.
    replace (10 <=? accCount (cd w) + 1) with true
      by (symmetry; apply Z.leb_le; lia).
    cbn [andb].
    match goal with
    | |- context [accumulate ?w2] =>
        pose proof (@accumulate_at_cycle_end P w2) as H
    end.
    cbn [set_cd cd acc accCount fingerprint lock spectrogram unitIsRunning]
      in H.
    specialize (H Hsum Hfp Hsummary).
    unfold accumulationNum in H. specialize (H ltac:(lia)).
    cbv zeta in H. fold spectrum in H. rewrite H.
    destruct (lock_events_quiet (fst (pthread_mutex_lock (lock w))))
      as [Hq Hwin].
    destruct (nan_test (hd S754_nan spectrum)); cbn [bind].
    + eexists. eexists. split; [reflexivity|].
      cbn [windows_of]. rewrite windows_of_app, Hwin.
      split; [reflexivity|]. split; [intros; lia|].
      split; [|intros _ Hf; discriminate Hf].
      intros _ _. cbn [spectra_of]. rewrite spectra_of_app, spectra_of_lock_events.
      cbn [spectra_of app set_acc cd acc accCount fingerprint spectrogram].
      split; [reflexivity|].
      split; [right; apply nan_reported_app; right; left; reflexivity|].
      repeat split. lia.
    + eexists. eexists. split; [reflexivity|].
      cbn [windows_of]. rewrite windows_of_app, Hwin.
      split; [reflexivity|]. split; [intros; lia|].
      split; [intros _ Hf; discriminate Hf|].
      intros _ _. cbn [spectra_of]. rewrite spectra_of_app, spectra_of_lock_events.
      cbn [spectra_of app set_acc cd acc accCount fingerprint spectrogram].
      repeat split.
Qed.

End Turn.

(** ** Histories: the fingerprint and the mutex *)

Section HistoryInvariants.
Variable P : Platform.
Hypothesis Hsummary : forall sp, len (getSummary P sp) = fpLength.
Implicit Types w : Fingerprinter P.

Lemma startRecording_data w au r w' ev :
  startRecording w au = (r, w', ev) ->
  fingerprint w' = fingerprint w /\ spectrogram w' = spectrogram w /\
  lock w' = lock w /\ cd w' = cd w.
Proof.
  unfold startRecording. intros H.
  destruct (negb (unitIsRunning w));
    [destruct (startStatus au =? 0);
     [destruct (formatStatus au =? 0);
      [destruct (runningStatus au =? 0);
       [destruct (running au =? 0)|]|]|]|];
    inversion H; subst; repeat split.
Qed.

Lemma stopRecording_data w st r w' ev :
  stopRecording w st = (r, w', ev) ->
  fingerprint w' = fingerprint w /\ spectrogram w' = spectrogram w /\
  lock w' = lock w /\ cd w' = cd w.
Proof.
  unfold stopRecording. intros H.
  destruct (unitIsRunning w); [destruct (st =? 0)|];
    inversion H; subst; repeat split.
Qed.

Lemma getFingerprint_data w outBuf ok out w' ev :
  getFingerprint w outBuf = Done (ok, out, w', ev) ->
  fingerprint w' = fingerprint w /\ spectrogram w' = spectrogram w /\
  cd w' = cd w /\
  (lock w <> MxHeld -> lock w' = lock w) /\
  (ok = true -> len (fingerprint w) = fpLength ->
   firstn (Z.to_nat fpLength) out = fingerprint w).
Proof.
  unfold getFingerprint. intros H.
  destruct (unitIsRunning w).
  - destruct (pthread_mutex_lock (lock w)) as [rc held] eqn:El.
    destruct (memcpy outBuf 0 (fingerprint w) 0 fpLength) as [o| |] eqn:E;
      cbn [bind] in H; [|discriminate H|discriminate H].
    inversion H; subst. cbn [set_lock fingerprint spectrogram cd lock].
    repeat split.
    + intros Hl. destruct (lock w); try congruence;
        cbn [pthread_mutex_lock] in El; inversion El; reflexivity.
    + intros _ Hfp. unfold memcpy in E.
      rewrite <- Hfp, load_all in E. cbn [bind] in E.
      apply store_inv in E. destruct E as [_ E]. subst out.
      change (Z.to_nat 0) with O. cbn [firstn app].
      rewrite <- Hfp. unfold len.
      rewrite Nat2Z.id, firstn_app, firstn_all, Nat.sub_diag.
      cbn [firstn]. apply app_nil_r.
  - inversion H; subst. repeat split. intros Hok. discriminate Hok.
Qed.

Lemma published_initial_or_summary w ev w' :
  published w ev w' -> initial_or_summary w -> initial_or_summary w'.
Proof.
  intros (S1 & F1 & _ & _) H. unfold initial_or_summary in *.
  destruct (spectra_of ev) as [|s l].
  - cbn [fold_left] in S1. rewrite F1, S1. exact H.
  - right. exact F1.
Qed.

Lemma run_fingerprint calls : forall w cycles obs w',
  run w cycles calls = Done (obs, w') ->
  len (fingerprint w) = fpLength ->
  initial_or_summary w ->
  initial_or_summary w' /\ zeros_or_a_summary P obs.
Proof.
  induction calls as [|c calls IH]; intros w cycles obs w' Hrun Hfp Hw;
    cbn [run] in Hrun.
  - inversion Hrun; subst. split; [exact Hw|]. intros out k [].
  - destruct c as [au|st|outBuf|n render].
    + destruct (startRecording w au) as [[r w1] ev1] eqn:E.
      apply startRecording_data in E. destruct E as (E1 & E2 & _).
      match type of Hrun with
      | bind ?m _ = _ => destruct m as [[obs1 w2]| |] eqn:E3
      end; cbn [bind] in Hrun; [|discriminate Hrun|discriminate Hrun].
      inversion Hrun; subst.
      apply IH in E3;
        [|congruence|unfold initial_or_summary in *; rewrite E1, E2; exact Hw].
      destruct E3 as [G1 G2]. split; [exact G1|].
      intros out k [Hin|Hin]; [discriminate Hin|exact (G2 out k Hin)].
    + destruct (stopRecording w st) as [[r w1] ev1] eqn:E.
      apply stopRecording_data in E. destruct E as (E1 & E2 & _).
      match type of Hrun with
      | bind ?m _ = _ => destruct m as [[obs1 w2]| |] eqn:E3
      end; cbn [bind] in Hrun; [|discriminate Hrun|discriminate Hrun].
      inversion Hrun; subst.
      apply IH in E3;
        [|congruence|unfold initial_or_summary in *; rewrite E1, E2; exact Hw].
      destruct E3 as [G1 G2]. split; [exact G1|].
      intros out k [Hin|Hin]; [discriminate Hin|exact (G2 out k Hin)].
    + destruct (getFingerprint w outBuf) as [[[[ok out] w1] ev1]| |] eqn:E;
        cbn [bind] in Hrun; [|discriminate Hrun|discriminate Hrun].
      apply getFingerprint_data in E. destruct E as (E1 & E2 & _ & _ & E5).
      match type of Hrun with
      | bind ?m _ = _ => destruct m as [[obs1 w2]| |] eqn:E3
      end; cbn [bind] in Hrun; [|discriminate Hrun|discriminate Hrun].
      inversion Hrun; subst.
      apply IH in E3;
        [|congruence|unfold initial_or_summary in *; rewrite E1, E2; exact Hw].
      destruct E3 as [G1 G2]. split; [exact G1|].
      intros out' k [Hin|Hin]; [|exact (G2 out' k Hin)].
      inversion Hin; subst. rewrite (E5 eq_refl Hfp).
      destruct Hw as [Hw|Hw]; [left; exact Hw|right; eexists; exact Hw].
    + destruct (callback w n render) as [[[[st out] w1] ev1]| |] eqn:E;
        cbn [bind] in Hrun; [|discriminate Hrun|discriminate Hrun].
      apply (callback_published Hsummary) in E; [|exact Hfp].
      match type of Hrun with
      | bind ?m _ = _ => destruct m as [[obs1 w2]| |] eqn:E3
      end; cbn [bind] in Hrun; [|discriminate Hrun|discriminate Hrun].
      inversion Hrun; subst.
      apply IH in E3;
        [|apply E|exact (published_initial_or_summary E Hw)].
      destruct E3 as [G1 G2]. split; [exact G1|].
      intros out' k [Hin|Hin]; [discriminate Hin|exact (G2 out' k Hin)].
Qed.

(** Over every history of calls on a constructed object (start, stop,
    callbacks with or without a render error or a not-a-number return,
    snapshots), each call returning, the stored fingerprint is the
    constructor's zeros or the summary of the history as it stands, and what
    a successful [getFingerprint] hands out is the zeros or a summary; no
    call leaves anything else in it. *)
Theorem history_fingerprint_is_zeros_or_summary
    (mutex_init_ok : bool) (sp0 : Spectrogram P)
    (hamm0 A0 frameBuffer0 realp0 imagp0 : list spec_float)
    (calls : list Call) (cycles : nat) (obs : list Obs) (w' : Fingerprinter P)
    (Hrun : run (Fingerprinter_new P mutex_init_ok sp0 hamm0 A0 frameBuffer0
                   realp0 imagp0) cycles calls = Done (obs, w')) :
  initial_or_summary w' /\ zeros_or_a_summary P obs.
Proof.
  apply (@run_fingerprint calls _ cycles obs w' Hrun).
  - unfold len. cbn [Fingerprinter_new fingerprint].
    rewrite repeat_length, fpLength_eq. reflexivity.
  - left. reflexivity.
Qed.

End HistoryInvariants.

Section HistoryLock.
Variable P : Platform.
Implicit Types w : Fingerprinter P.

Lemma callback_lock w n render status out w' ev :
  callback w n render = Done (status, out, w', ev) ->
  lock w <> MxHeld -> lock w' = lock w.
Proof.
  unfold callback. intros H Hl. destruct render as [data|].
  - destruct (append_frames (cd w) n data) as [[d out0]| |] eqn:E;
      cbn [bind] in H; [|discriminate H|discriminate H].
    destruct (fbIndex d <? windowFrames).
    + inversion H; subst. reflexivity.
    + destruct (analysis_loop (loop_budget d) (set_cd w d))
        as [[[st w2] ev2]| |] eqn:E0; cbn [bind] in H; [|discriminate H|discriminate H].
      inversion H; subst.
      apply analysis_loop_lock in E0; [|exact Hl]. apply E0.
  - inversion H; subst. reflexivity.
Qed.

Lemma run_lock calls : forall w cycles obs w',
  run w cycles calls = Done (obs, w') ->
  lock w <> MxHeld -> lock w' = lock w.
Proof.
  induction calls as [|c calls IH]; intros w cycles obs w' Hrun Hl;
    cbn [run] in Hrun.
  - inversion Hrun; subst. reflexivity.
  - destruct c as [au|st|outBuf|n render].
    + destruct (startRecording w au) as [[r w1] ev1] eqn:E.
      apply startRecording_data in E. destruct E as (_ & _ & E3 & _).
      match type of Hrun with
      | bind ?m _ = _ => destruct m as [[obs1 w2]| |] eqn:E4
      end; cbn [bind] in Hrun; [|discriminate Hrun|discriminate Hrun].
      inversion Hrun; subst. apply IH in E4; congruence.
    + destruct (stopRecording w st) as [[r w1] ev1] eqn:E.
      apply stopRecording_data in E. destruct E as (_ & _ & E3 & _).
      match type of Hrun with
      | bind ?m _ = _ => destruct m as [[obs1 w2]| |] eqn:E4
      end; cbn [bind] in Hrun; [|discriminate Hrun|discriminate Hrun].
      inversion Hrun; subst. apply IH in E4; congruence.
    + destruct (getFingerprint w outBuf) as [[[[ok out] w1] ev1]| |] eqn:E;
        cbn [bind] in Hrun; [|discriminate Hrun|discriminate Hrun].
      apply getFingerprint_data in E. destruct E as (_ & _ & _ & E4 & _).
      specialize (E4 Hl).
      match type of Hrun with
      | bind ?m _ = _ => destruct m as [[obs1 w2]| |] eqn:E5
      end; cbn [bind] in Hrun; [|discriminate Hrun|discriminate Hrun].
      inversion Hrun; subst. apply IH in E5; congruence.
    + destruct (callback w n render) as [[[[st out] w1] ev1]| |] eqn:E;
        cbn [bind] in Hrun; [|discriminate Hrun|discriminate Hrun].
      apply callback_lock in E; [|exact Hl].
      match type of Hrun with
      | bind ?m _ = _ => destruct m as [[obs1 w2]| |] eqn:E5
      end; cbn [bind] in Hrun; [|discriminate Hrun|discriminate Hrun].
      inversion Hrun; subst. apply IH in E5; congruence.
Qed.

(** Over every history of calls on a constructed object, each call
    returning, the mutex is afterwards as the constructor left it: a call
    that locks it unlocks it, on every path, so the next call that locks a
    valid mutex gets it at once. *)
Theorem history_leaves_mutex_free
    (mutex_init_ok : bool) (sp0 : Spectrogram P)
    (hamm0 A0 frameBuffer0 realp0 imagp0 : list spec_float)
    (calls : list Call) (cycles : nat) (obs : list Obs) (w' : Fingerprinter P)
    (Hrun : run (Fingerprinter_new P mutex_init_ok sp0 hamm0 A0 frameBuffer0
                   realp0 imagp0) cycles calls = Done (obs, w')) :
  lock w' = (if mutex_init_ok then MxFree else MxInvalid) /\
  (mutex_init_ok = true -> pthread_mutex_lock (lock w') = (0, MxHeld)).
Proof.
  assert (Hl : lock w' = (if mutex_init_ok then MxFree else MxInvalid)).
  { apply (@run_lock calls _ cycles obs w') in Hrun.
    - exact Hrun.
    - cbn [Fingerprinter_new lock]. destruct mutex_init_ok; discriminate. }
  split; [exact Hl|]. intros Hok. rewrite Hl, Hok. reflexivity.
Qed.

End HistoryLock.

(** ** After the not-a-number return *)

Section Silence.
Variable P : Platform.
Hypothesis Hlog : log10f P S754_nan = S754_nan.
Implicit Types w : Fingerprinter P.
Implicit Types d : CallbackData.

Lemma analyze_window_silenced d d' :
  analyze_window P d = Done d' -> hd F32.zero (acc d) = S754_nan ->
  hd F32.zero (acc d') = S754_nan.
Proof.
  unfold analyze_window. intros H Hnan.
  destruct (memcpy (A d) 0 (frameBuffer d) (startIndex d) specRes)
    as [a1| |]; cbn [bind] in H; [|discriminate H|discriminate H].
  destruct (vDSP_vmul a1 (hamm d) a1 specRes) as [a2| |]; cbn [bind] in H;
    [|discriminate H|discriminate H].
  destruct (vDSP_ctoz a2 (realp d) (imagp d) specRes) as [[re im]| |];
    cbn [bind] in H; [|discriminate H|discriminate H].
  destruct (load re 0 (2 ^ log2FFTLength)) as [re0| |]; cbn [bind] in H;
    [|discriminate H|discriminate H].
  destruct (load im 0 (2 ^ log2FFTLength)) as [im0| |]; cbn [bind] in H;
    [|discriminate H|discriminate H].
  destruct (store re 0 (fst (fft_zip P re0 im0 log2FFTLength))) as [re1| |];
    cbn [bind] in H; [|discriminate H|discriminate H].
  destruct (store im 0 (snd (fft_zip P re0 im0 log2FFTLength))) as [im1| |];
    cbn [bind] in H; [|discriminate H|discriminate H].
  destruct (vDSP_zaspec re1 im1 a2 specRes) as [a3| |]; cbn [bind] in H;
    [|discriminate H|discriminate H].
  destruct (vDSP_vadd a3 (acc d) (acc d) fpLength) as [acc1| |] eqn:E;
    cbn [bind] in H; [|discriminate H|discriminate H].
  apply Done_inj in H. subst d'. cbn [acc].
  unfold vDSP_vadd in E.
  destruct (load a3 0 fpLength) as [x| |] eqn:E1; cbn [bind] in E;
    [|discriminate E|discriminate E].
  destruct (load (acc d) 0 fpLength) as [y| |] eqn:E2; cbn [bind] in E;
    [|discriminate E|discriminate E].
  assert (H0 : 0 < fpLength) by (rewrite fpLength_eq; lia).
  destruct (@load_head _ F32.zero _ _ _ E1 H0) as [Hx _].
  destruct (@load_head _ F32.zero _ _ _ E2 H0) as [Hy Hy0].
  rewrite Hnan in Hy0.
  destruct x as [|x0 x]; [congruence|]. destruct y as [|y0 y]; [congruence|].
  cbn [hd] in Hy0. subst y0.
  rewrite (@store_head _ F32.zero _ _ _ E) by (cbn [zip_with]; discriminate).
  cbn [zip_with hd]. apply add_nan.
Qed.

Lemma accumulate_silenced w f ev :
  accumulate w = Done (f, ev) ->
  silenced (cd w) -> accCount (cd w) + 1 < 2 ^ 31 ->
  exists w',
    f = Return 0 w' /\ silenced (cd w') /\
    accCount (cd w') = accCount (cd w) + 1 /\
    fingerprint w' = fingerprint w /\ spectrogram w' = spectrogram w /\
    spectra_of ev = [].
Proof.
  unfold accumulate, silenced. intros H [Hc Hnan] Hb.
  unfold accumulationNum in *.
  rewrite s32_id in H by (unfold int_range; lia).
  rewrite u32_id in H by lia.
  replace (accCount (cd w) + 1 >=? 10) with true in H
    by (symmetry; apply Z.geb_le; lia).
  destruct (pthread_mutex_lock (lock w)) as [rc held].
  destruct (vDSP_vdbcon (log10f P) (acc (cd w)) reference (acc (cd w))
              fpLength 1) as [acc2| |] eqn:E1; cbn [bind] in H;
    [|discriminate H|discriminate H].
  destruct (read acc2 0) as [x0| |] eqn:E2; cbn [bind] in H;
    [|discriminate H|discriminate H].
  assert (Hacc2 : hd F32.zero acc2 = S754_nan).
  { unfold vDSP_vdbcon in E1.
    destruct (load (acc (cd w)) 0 fpLength) as [a| |] eqn:E3;
      cbn [bind] in E1; [|discriminate E1|discriminate E1].
    assert (H0 : 0 < fpLength) by (rewrite fpLength_eq; lia).
    destruct (@load_head _ F32.zero _ _ _ E3 H0) as [Ha Ha0].
    rewrite Hnan in Ha0.
    destruct a as [|a0 a]; [congruence|]. cbn [hd] in Ha0. subst a0.
    rewrite (@store_head _ F32.zero _ _ _ E1) by (cbn [map]; discriminate).
    cbn [map hd]. apply dB_nan. exact Hlog. }
  rewrite (@read_hd _ F32.zero _ _ E2), Hacc2, nan_test_nan in H.
  apply Done_inj in H. apply pair_equal_spec in H. destruct H as [Hf Hev].
  eexists. split; [symmetry; exact Hf|].
  cbn [cd set_acc accCount acc fingerprint spectrogram].
  split; [split; [lia|exact Hacc2]|].
  split; [reflexivity|]. split; [reflexivity|]. split; [reflexivity|].
  subst ev. rewrite spectra_of_app, spectra_of_lock_events. reflexivity.
Qed.

Lemma window_step_silenced w f ev :
  window_step w = Done (f, ev) ->
  silenced (cd w) -> accCount (cd w) + 1 < 2 ^ 31 ->
  exists w',
    f = Return 0 w' /\ silenced (cd w') /\
    accCount (cd w') = accCount (cd w) + 1 /\
    fingerprint w' = fingerprint w /\ spectrogram w' = spectrogram w /\
    spectra_of ev = [].
Proof.
  unfold window_step. intros H [Hc Hnan] Hb.
  destruct (analyze_window P (cd w)) as [d| |] eqn:E; cbn [bind] in H;
    [|discriminate H|discriminate H].
  destruct (accumulate (set_cd w d)) as [[f0 ev0]| |] eqn:E0; cbn [bind] in H;
    [|discriminate H|discriminate H].
  apply Done_inj in H. apply pair_equal_spec in H. destruct H as [Hf Hev].
  subst f0 ev.
  pose proof (analyze_window_frame _ _ E) as (_ & _ & _ & _ & _ & Hcount).
  pose proof (analyze_window_silenced _ E Hnan) as Hnan'.
  apply accumulate_silenced in E0;
    [|split; cbn [set_cd cd]; [rewrite Hcount; exact Hc|exact Hnan']
     |cbn [set_cd cd]; rewrite Hcount; exact Hb].
  cbn [set_cd cd fingerprint spectrogram] in E0. rewrite Hcount in E0.
  cbn [spectra_of]. exact E0.
Qed.

Lemma analysis_loop_silenced budget w status w' ev :
  analysis_loop budget w = Done (status, w', ev) ->
  silenced (cd w) -> accCount (cd w) + 1 < 2 ^ 31 ->
  silenced (cd w') /\
  accCount (cd w) <= accCount (cd w') <= accCount (cd w) + 1 /\
  fingerprint w' = fingerprint w /\ spectrogram w' = spectrogram w /\
  spectra_of ev = [].
Proof.
  intros H Hs Hb. destruct budget as [|budget]; cbn [analysis_loop] in H.
  - destruct (startIndex (cd w) <=? s32 (fbIndex (cd w) - windowFrames));
      [discriminate H|]. done_inv H.
    split; [exact Hs|]. repeat split; lia.
  - destruct (startIndex (cd w) <=? s32 (fbIndex (cd w) - windowFrames)).
    2:{ done_inv H. split; [exact Hs|]. repeat split; lia. }
    destruct (window_step w) as [[f ev1]| |] eqn:E; cbn [bind] in H;
      [|discriminate H|discriminate H].
    destruct (window_step_silenced w E Hs Hb)
      as (w1 & Hf & Hs1 & Hc1 & Hfp & Hsp & Hev).
    subst f. done_inv H.
    split; [exact Hs1|]. repeat split; try assumption; lia.
Qed.

Lemma callback_silenced w n render status out w' ev :
  callback w n render = Done (status, out, w', ev) ->
  silenced (cd w) -> accCount (cd w) + 1 < 2 ^ 31 ->
  silenced (cd w') /\
  accCount (cd w) <= accCount (cd w') <= accCount (cd w) + 1 /\
  fingerprint w' = fingerprint w /\ spectrogram w' = spectrogram w /\
  spectra_of ev = [].
Proof.
  unfold callback. intros H Hs Hb. destruct render as [data|].
  - destruct (append_frames (cd w) n data) as [[d out0]| |] eqn:E;
      cbn [bind] in H; [|discriminate H|discriminate H].
    pose proof (append_frames_inv _ _ _ E) as (_ & _ & I3 & I4 & _).
    assert (Hs1 : silenced d)
      by (unfold silenced in *; rewrite I3, I4; exact Hs).
    destruct (fbIndex d <? windowFrames).
    + done_inv H. cbn [set_cd cd fingerprint spectrogram].
      rewrite <- (app_nil_r (if n >? u32 windowFrames then _ else _)).
      rewrite spectra_of_ev0.
      split; [exact Hs1|]. rewrite I4. repeat split; lia.
    + destruct (analysis_loop (loop_budget d) (set_cd w d))
        as [[[st w2] ev2]| |] eqn:E0; cbn [bind] in H; [|discriminate H|discriminate H].
      done_inv H.
      apply analysis_loop_silenced in E0;
        [|exact Hs1|cbn [set_cd cd]; rewrite I4; exact Hb].
      cbn [set_cd cd fingerprint spectrogram] in E0.
      rewrite spectra_of_ev0. rewrite I4 in E0. exact E0.
  - done_inv H. rewrite spectra_of_ev0.
    split; [exact Hs|]. repeat split; lia.
Qed.

Lemma feed_silenced buffers : forall w w' ev,
  feed w buffers = Done (w', ev) ->
  silenced (cd w) -> accCount (cd w) + len buffers < 2 ^ 31 ->
  silenced (cd w') /\
  fingerprint w' = fingerprint w /\ spectrogram w' = spectrogram w /\
  spectra_of ev = [].
Proof.
  induction buffers as [|data rest IH]; intros w w' ev H Hs Hb;
    cbn [feed] in H.
  - done_inv H. split; [exact Hs|]. repeat split.
  - destruct (callback w (len data) (Some data)) as [[[[st out] w1] ev1]| |]
      eqn:E; cbn [bind] in H; [|discriminate H|discriminate H].
    destruct (feed w1 rest) as [[w2 ev2]| |] eqn:E2; cbn [bind] in H;
      [|discriminate H|discriminate H].
    done_inv H.
    assert (Hl : len (data :: rest) = 1 + len rest)
      by (unfold len; cbn [length]; lia).
    rewrite Hl in Hb. pose proof (len_nonneg rest).
    apply callback_silenced in E; [|exact Hs|lia].
    destruct E as (Hs1 & Hc1 & Hfp1 & Hsp1 & Hev1).
    apply IH in E2; [|exact Hs1|lia].
    destruct E2 as (Hs2 & Hfp2 & Hsp2 & Hev2).
    split; [exact Hs2|].
    rewrite spectra_of_app, Hev1, Hev2. repeat split; congruence.
Qed.

(** The not-a-number return leaves the object silenced. *)
Lemma accumulate_nan_silences w st w' ev :
  accumulate w = Done (Return st w', ev) ->
  counter_ok (cd w) ->
  silenced (cd w') /\ accCount (cd w') = accumulationNum.
Proof.
  unfold accumulate, counter_ok, silenced, accumulationNum. intros H Hc.
  rewrite s32_id in H by (unfold int_range; lia).
  rewrite u32_id in H by lia.
  destruct (Z.geb_spec (accCount (cd w) + 1) 10) as [Hge|Hlt].
  - destruct (pthread_mutex_lock (lock w)) as [rc held].
    destruct (vDSP_vdbcon (log10f P) (acc (cd w)) reference (acc (cd w))
                fpLength 1) as [acc2| |] eqn:E1; cbn [bind] in H;
      [|discriminate H|discriminate H].
    destruct (read acc2 0) as [x0| |] eqn:E2; cbn [bind] in H;
      [|discriminate H|discriminate H].
    destruct (nan_test x0) eqn:En.
    + apply nan_test_true in En. subst x0.
      apply (@read_hd _ F32.zero) in E2.
      apply Done_inj in H. apply pair_equal_spec in H. destruct H as [Hf _].
      inversion Hf; subst. cbn [cd set_acc accCount acc].
      split; [split; [lia|congruence]|lia].
    + destruct (load acc2 0 fpLength) as [s| |]; cbn [bind] in H;
        [|discriminate H|discriminate H].
      destruct (store (fingerprint w) 0
                  (getSummary P (update P (spectrogram w) s)))
        as [fp| |]; cbn [bind] in H; [|discriminate H|discriminate H].
      destruct (vDSP_vfill F32.zero acc2 fpLength) as [acc3| |];
        cbn [bind] in H; discriminate H.
  - discriminate H.
Qed.

Lemma accumulate_next_quiet w w' ev :
  accumulate w = Done (Next w', ev) -> ~ nan_reported ev.
Proof.
  unfold accumulate. intros H.
  destruct (u32 (s32 (accCount (cd w) + 1)) >=? accumulationNum).
  - destruct (pthread_mutex_lock (lock w)) as [rc held].
    destruct (vDSP_vdbcon (log10f P) (acc (cd w)) reference (acc (cd w))
                fpLength 1) as [acc2| |] eqn:E1; cbn [bind] in H;
      [|discriminate H|discriminate H].
    destruct (read acc2 0) as [x0| |] eqn:E2; cbn [bind] in H;
      [|discriminate H|discriminate H].
    destruct (nan_test x0).
    + apply Done_inj in H. apply pair_equal_spec in H. destruct H as [Hf _].
      discriminate Hf.
    + destruct (load acc2 0 fpLength) as [s| |]; cbn [bind] in H;
        [|discriminate H|discriminate H].
      destruct (store (fingerprint w) 0
                  (getSummary P (update P (spectrogram w) s)))
        as [fp| |]; cbn [bind] in H; [|discriminate H|discriminate H].
      destruct (vDSP_vfill F32.zero acc2 fpLength) as [acc3| |];
        cbn [bind] in H; [|discriminate H|discriminate H].
      apply Done_inj in H. apply pair_equal_spec in H. destruct H as [_ Hev].
      subst ev. intros Hn. apply nan_reported_app in Hn.
      destruct (lock_events_quiet rc) as [Hq _].
      destruct Hn as [Hn|Hn]; [exact (Hq Hn)|].
      repeat (destruct Hn as [Hn|Hn]; try discriminate Hn). exact Hn.
  - apply Done_inj in H. apply pair_equal_spec in H. destruct H as [_ Hev].
    subst ev. intros Hn. exact Hn.
Qed.

Lemma window_step_nan_silences w f ev :
  window_step w = Done (f, ev) ->
  counter_ok (cd w) ->
  match f with
  | Next w' => counter_ok (cd w') /\ ~ nan_reported ev
  | Return _ w' => silenced (cd w') /\ accCount (cd w') = accumulationNum
  end.
Proof.
  intros H Hc. pose proof (window_step_counter w H Hc) as [_ Hn].
  unfold window_step in H.
  destruct (analyze_window P (cd w)) as [d| |] eqn:E; cbn [bind] in H;
    [|discriminate H|discriminate H].
  destruct (accumulate (set_cd w d)) as [[f0 ev0]| |] eqn:E0; cbn [bind] in H;
    [|discriminate H|discriminate H].
  apply Done_inj in H. apply pair_equal_spec in H. destruct H as [Hf Hev].
  subst f0 ev.
  pose proof (analyze_window_frame _ _ E) as (_ & _ & _ & _ & _ & Hcount).
  destruct f as [w1|st w1].
  - split; [apply Hn|]. apply accumulate_next_quiet in E0.
    intros [Hx|Hx]; [discriminate Hx|exact (E0 Hx)].
  - apply accumulate_nan_silences in E0; [exact E0|].
    unfold counter_ok. cbn [set_cd cd]. rewrite Hcount. exact Hc.
Qed.

Lemma analysis_loop_nan_silences budget : forall w status w' ev,
  analysis_loop budget w = Done (status, w', ev) ->
  counter_ok (cd w) -> nan_reported ev ->
  silenced (cd w') /\ accCount (cd w') = accumulationNum.
Proof.
  induction budget as [|budget IH]; intros w status w' ev H Hc Hnan;
    cbn [analysis_loop] in H.
  - destruct (startIndex (cd w) <=? s32 (fbIndex (cd w) - windowFrames));
      [discriminate H|]. done_inv H. destruct Hnan.
  - destruct (startIndex (cd w) <=? s32 (fbIndex (cd w) - windowFrames)).
    2:{ done_inv H. destruct Hnan. }
    destruct (window_step w) as [[f ev1]| |] eqn:E; cbn [bind] in H;
      [|discriminate H|discriminate H].
    pose proof (window_step_nan_silences w E Hc) as Hf.
    destruct f as [w1|st w1].
    + match type of H with
      | bind ?m _ = _ => destruct m as [[[st2 w2] ev2]| |] eqn:E2
      end; cbn [bind] in H; [|discriminate H|discriminate H].
      done_inv H. destruct Hf as [Hc1 Hq].
      apply nan_reported_app in Hnan. destruct Hnan as [Hnan|Hnan];
        [contradiction|].
      exact (IH _ _ _ _ E2 Hc1 Hnan).
    + done_inv H. exact Hf.
Qed.

Lemma callback_nan_silences w n render status out w' ev :
  callback w n render = Done (status, out, w', ev) ->
  counter_ok (cd w) -> nan_reported ev ->
  silenced (cd w') /\ accCount (cd w') = accumulationNum.
Proof.
  unfold callback. intros H Hc Hnan. destruct render as [data|].
  - destruct (append_frames (cd w) n data) as [[d out0]| |] eqn:E;
      cbn [bind] in H; [|discriminate H|discriminate H].
    pose proof (append_frames_inv _ _ _ E) as (_ & _ & _ & I4 & _).
    destruct (fbIndex d <? windowFrames).
    + done_inv H. exfalso. destruct (n >? u32 windowFrames);
        repeat (destruct Hnan as [Hnan|Hnan]; try discriminate Hnan);
        exact Hnan.
    + destruct (analysis_loop (loop_budget d) (set_cd w d))
        as [[[st w2] ev2]| |] eqn:E0; cbn [bind] in H; [|discriminate H|discriminate H].
      done_inv H.
      apply (analysis_loop_nan_silences _ _ E0);
        [unfold counter_ok; cbn [set_cd cd]; rewrite I4; exact Hc|].
      apply nan_reported_app in Hnan. destruct Hnan as [Hnan|Hnan];
        [|exact Hnan].
      exfalso. destruct (n >? u32 windowFrames);
        repeat (destruct Hnan as [Hnan|Hnan]; try discriminate Hnan);
        exact Hnan.
  - done_inv H. exfalso. apply nan_reported_app in Hnan.
    destruct Hnan as [Hnan|Hnan];
      [destruct (n >? u32 windowFrames)|];
      repeat (destruct Hnan as [Hnan|Hnan]; try discriminate Hnan);
      exact Hnan.
Qed.

(** Once a callback has printed "spectrum is NaN", the callbacks that
    follow and return (the next [2^30] at least) hand no spectrum to the
    history and leave the stored fingerprint as it is, whatever they are
    fed: the early return of line 163 leaves the not-a-number in the
    accumulator and the counter at [accumulationNum], every sum with a
    not-a-number is one, and every later window takes the same return. The
    logarithm is taken to map a not-a-number to a not-a-number. *)
Theorem nan_report_ends_publication w (n : Z) (render : option (list Z))
    status out w1 ev1 (buffers : list (list Z)) w2 ev2 :
  counter_ok (cd w) ->
  callback w n render = Done (status, out, w1, ev1) ->
  nan_reported ev1 ->
  feed w1 buffers = Done (w2, ev2) ->
  len buffers < 2 ^ 30 ->
  count_updates ev2 = 0%nat /\
  fingerprint w2 = fingerprint w1 /\ spectrogram w2 = spectrogram w1.
Proof.
  intros Hc E Hnan E2 Hb.
  apply callback_nan_silences in E; [|exact Hc|exact Hnan].
  destruct E as [Hs Hcount].
  apply feed_silenced in E2;
    [|exact Hs|rewrite Hcount; unfold accumulationNum; lia].
  destruct E2 as (_ & Hfp & Hsp & Hev).
  rewrite count_updates_spectra, Hev. repeat split; assumption.
Qed.

End Silence.

Section Stale.
Variable P : Platform.
Implicit Types w : Fingerprinter P.

(** A shift while [startIndex] is still in the lower half of the frame
    buffer, which is where the not-a-number return leaves it when it recurs
    while the buffer fills: line 113 takes [startIndex] below zero, and the
    first turn of the loop copies its window from before the start of the
    frame buffer. *)
Theorem shift_with_stale_start_reads_before_buffer w (n : Z) (data : list Z)
    (Hall : allocated w)
    (Hn : 0 <= n <= specRes) (Hdata : n <= len data)
    (Hfull : fbLen (cd w) - n <= fbIndex (cd w) <= fbLen (cd w))
    (Hstale : 0 <= startIndex (cd w) < fbLen (cd w) / 2) :
  callback w n (Some data) = Fault.
Proof.
  pose proof Hall as (HA & Hh & Hacc & Hfb & Hlen & Hre & Him & Hfp).
  assert (Hs : 0 <= startIndex (cd w) <= fbIndex (cd w)).
  { rewrite Hlen, fbLen_setup_eq in *. unfold specRes in *.
    change (22050 / 2) with 11025 in Hstale. lia. }
  unfold callback, append_frames.
  rewrite (@make_room_when_full (cd w) n Hfb Hlen Hn Hfull Hs).
  cbn [bind frameBuffer fbIndex startIndex fbLen A hamm acc accCount realp
       imagp].
  rewrite Hlen, fbLen_setup_eq in *. unfold specRes in *.
  change (22050 / 2) with 11025 in *.
  assert (Hh2 : length (firstn (Z.to_nat 11025) (frameBuffer (cd w)))
                = Z.to_nat 11025).
  { rewrite length_firstn. unfold len in Hfb. lia. }
  unfold vDSP_vflt32, vDSP_vfilli.
  rewrite load_ok by lia. cbn [bind].
  assert (Ha : len (firstn (Z.to_nat n) (skipn (Z.to_nat 0) data)) = n).
  { unfold len in *. change (Z.to_nat 0) with O. rewrite skipn_O, length_firstn.
    lia. }
  rewrite store_ok
    by (rewrite ?len_map, ?Ha; unfold len; rewrite ?length_app, ?Hh2; lia).
  cbn [bind].
  rewrite store_ok by (rewrite ?len_repeat by lia; lia).
  cbn [bind fbIndex].
  rewrite windowFrames_eq.
  rewrite s32_id by (unfold int_range; lia).
  replace (fbIndex (cd w) - 11025 + n <? 1024) with false
    by (symmetry; apply Z.ltb_ge; lia).
  unfold loop_budget. cbn [fbIndex startIndex].
  rewrite windowFrames_eq, s32_id by (unfold int_range; lia).
  destruct (Z.to_nat (fbIndex (cd w) - 11025 + n - 1024
                      - (startIndex (cd w) - 11025) + 1)) as [|budget] eqn:Eb;
    [lia|].
  cbn [analysis_loop set_cd cd fbIndex startIndex].
  rewrite windowFrames_eq, s32_id by (unfold int_range; lia).
  replace (startIndex (cd w) - 11025 <=? fbIndex (cd w) - 11025 + n - 1024)
    with true by (symmetry; apply Z.leb_le; lia).
  unfold window_step, analyze_window, memcpy, load.
  cbn [set_cd cd frameBuffer startIndex].
  replace (in_bounds _ (startIndex (cd w) - 11025) specRes) with false.
  2:{ symmetry. unfold in_bounds.
      replace (0 <=? startIndex (cd w) - 11025) with false
        by (symmetry; apply Z.leb_gt; lia).
      reflexivity. }
  reflexivity.
Qed.

End Stale.

(** ** What a callback hands to the history *)

Section HandOver.
Variable P : Platform.
Hypothesis HP : platform_ok P.
Implicit Types w : Fingerprinter P.

(** The return of line 163: the events of the cycle that ends there, and
    the counter. *)
Lemma accumulate_return w st w' ev :
  accumulate w = Done (Return st w', ev) ->
  (exists rc,
      ev = lock_events rc ++ [EvStdout "spectrum is NaN"%string; EvUnlock]) /\
  (counter_ok (cd w) ->
   accCount (cd w) + 1 = accumulationNum /\
   accCount (cd w') = accumulationNum).
Proof.
  unfold accumulate. intros H.
  destruct (u32 (s32 (accCount (cd w) + 1)) >=? accumulationNum) eqn:Hc.
  - destruct (pthread_mutex_lock (lock w)) as [rc held].
    destruct (vDSP_vdbcon (log10f P) (acc (cd w)) reference (acc (cd w))
                fpLength 1) as [acc2| |] eqn:E1; cbn [bind] in H;
      [|discriminate H|discriminate H].
    destruct (read acc2 0) as [x0| |] eqn:E2; cbn [bind] in H;
      [|discriminate H|discriminate H].
    destruct (nan_test x0).
    + apply Done_inj in H. apply pair_equal_spec in H. destruct H as [Hf Hev].
      split; [exists rc; symmetry; exact Hev|].
      intros Hok. unfold counter_ok, accumulationNum in *.
      rewrite s32_id in Hc, Hf by (unfold int_range; lia).
      rewrite u32_id in Hc by lia.
      apply Z.geb_le in Hc.
      assert (Hw : cd w' = set_acc (cd w) acc2 (accCount (cd w) + 1))
        by (injection Hf as _ <-; reflexivity).
      rewrite Hw. cbn [set_acc accCount]. lia.
    + destruct (load acc2 0 fpLength) as [s| |]; cbn [bind] in H;
        [|discriminate H|discriminate H].
      destruct (store (fingerprint w) 0
                  (getSummary P (update P (spectrogram w) s)))
        as [fp| |]; cbn [bind] in H; [|discriminate H|discriminate H].
      destruct (vDSP_vfill F32.zero acc2 fpLength) as [acc3| |];
        cbn [bind] in H; [|discriminate H|discriminate H].
      apply Done_inj in H. apply pair_equal_spec in H. destruct H as [Hf _].
      discriminate Hf.
  - apply Done_inj in H. apply pair_equal_spec in H. destruct H as [Hf _].
    discriminate Hf.
Qed.

Lemma window_step_return w st w' ev :
  window_step w = Done (Return st w', ev) ->
  (exists rc,
      ev = EvWindow (startIndex (cd w))
             :: lock_events rc
             ++ [EvStdout "spectrum is NaN"%string; EvUnlock]) /\
  (counter_ok (cd w) ->
   accCount (cd w) + 1 = accumulationNum /\
   accCount (cd w') = accumulationNum).
Proof.
  unfold window_step. intros H.
  destruct (analyze_window P (cd w)) as [d| |] eqn:E; cbn [bind] in H;
    [|discriminate H|discriminate H].
  destruct (accumulate (set_cd w d)) as [[f0 ev0]| |] eqn:E0; cbn [bind] in H;
    [|discriminate H|discriminate H].
  apply Done_inj in H. apply pair_equal_spec in H. destruct H as [Hf Hev].
  subst f0.
  pose proof (analyze_window_frame _ _ E) as (_ & _ & _ & _ & _ & Hcount).
  destruct (accumulate_return _ E0) as [[rc Hrc] Hk].
  split.
  - exists rc. rewrite <- Hev, Hrc. reflexivity.
  - intros Hok. cbn [set_cd cd] in Hk. unfold counter_ok in Hk.
    rewrite Hcount in Hk. exact (Hk Hok).
Qed.

Lemma window_step_next_quiet w w' ev :
  window_step w = Done (Next w', ev) -> ~ nan_reported ev.
Proof.
  unfold window_step. intros H.
  destruct (analyze_window P (cd w)) as [d| |] eqn:E; cbn [bind] in H;
    [|discriminate H|discriminate H].
  destruct (accumulate (set_cd w d)) as [[f0 ev0]| |] eqn:E0; cbn [bind] in H;
    [|discriminate H|discriminate H].
  apply Done_inj in H. apply pair_equal_spec in H. destruct H as [Hf Hev].
  subst f0. apply accumulate_next_quiet in E0.
  rewrite <- Hev. intros [Hn|Hn]; [discriminate Hn|exact (E0 Hn)].
Qed.

(** A callback that reports a not-a-number ends there: the report and the
    unlock are its last events, and the cycle they close has handed
    nothing over. *)
Lemma analysis_loop_nan_shape budget : forall w status w' ev,
  analysis_loop budget w = Done (status, w', ev) ->
  nan_reported ev ->
  exists ev0 start rc,
    ev = ev0 ++ EvWindow start :: lock_events rc
             ++ [EvStdout "spectrum is NaN"%string; EvUnlock] /\
    ~ nan_reported ev0.
Proof.
  induction budget as [|budget IH]; intros w status w' ev H Hnan;
    cbn [analysis_loop] in H.
  - destruct (startIndex (cd w) <=? s32 (fbIndex (cd w) - windowFrames));
      [discriminate H|]. done_inv H. destruct Hnan.
  - destruct (startIndex (cd w) <=? s32 (fbIndex (cd w) - windowFrames)).
    2:{ done_inv H. destruct Hnan. }
    destruct (window_step w) as [[f ev1]| |] eqn:E; cbn [bind] in H;
      [|discriminate H|discriminate H].
    destruct f as [w1|st w1].
    + match type of H with
      | bind ?m _ = _ => destruct m as [[[st2 w2] ev2]| |] eqn:E2
      end; cbn [bind] in H; [|discriminate H|discriminate H].
      done_inv H.
      pose proof (window_step_next_quiet _ E) as Hq.
      apply nan_reported_app in Hnan. destruct Hnan as [Hnan|Hnan];
        [destruct (Hq Hnan)|].
      destruct (IH _ _ _ _ E2 Hnan) as (ev0 & start & rc & Hev & Hq0).
      exists (ev1 ++ ev0), start, rc. split.
      * rewrite Hev, <- app_assoc. reflexivity.
      * intros Hn. apply nan_reported_app in Hn. tauto.
    + done_inv H. destruct (window_step_return _ E) as [[rc Hrc] _].
      exists [], (startIndex (cd w)), rc. split; [exact Hrc|].
      intros Hn. destruct Hn.
Qed.

(** The windows of one callback are [stepSize] apart below [fbIndex], and
    a not-a-number is reported at the window that completes a cycle. *)
Lemma analysis_loop_nan_count budget : forall w status w' ev,
  analysis_loop budget w = Done (status, w', ev) ->
  counter_ok (cd w) ->
  0 <= startIndex (cd w) -> 0 <= fbIndex (cd w) <= fbLen_setup ->
  stepSize * len (windows_of ev)
    <= Z.max 0 (fbIndex (cd w) - windowFrames - startIndex (cd w) + stepSize) /\
  (nan_reported ev ->
   accumulationNum * (1 + Z.of_nat (count_updates ev))
     = accCount (cd w) + len (windows_of ev)).
Proof.
  induction budget as [|budget IH]; intros w status w' ev H Hc Hs Hf;
    cbn [analysis_loop] in H.
  - destruct (startIndex (cd w) <=? s32 (fbIndex (cd w) - windowFrames));
      [discriminate H|]. done_inv H.
    cbn [windows_of]. unfold len. cbn [length]. rewrite stepSize_eq.
    split; [lia|]. intros Hn. destruct Hn.
  - rewrite fbLen_setup_eq in Hf.
    rewrite windowFrames_eq in *.
    rewrite s32_id in H by (unfold int_range; lia).
    destruct (Z.leb_spec (startIndex (cd w)) (fbIndex (cd w) - 1024))
      as [Hle|Hgt].
    2:{ done_inv H. cbn [windows_of]. unfold len. cbn [length].
        rewrite stepSize_eq. split; [lia|]. intros Hn. destruct Hn. }
    destruct (window_step w) as [[f ev1]| |] eqn:E; cbn [bind] in H;
      [|discriminate H|discriminate H].
    destruct (window_step_counter w E Hc) as [Hw1 Hf1].
    pose proof (window_step_frame w E) as (_ & _ & F2 & F3 & _).
    destruct f as [w1|st w1]; cbn [flow_state] in *.
    + match type of H with
      | bind ?m _ = _ => destruct m as [[[st2 w2] ev2]| |] eqn:E2
      end; cbn [bind] in H; [|discriminate H|discriminate H].
      done_inv H. destruct Hf1 as [Hc1 Hn1].
      assert (Hstep : s32 (startIndex (cd w1) + stepSize)
                      = startIndex (cd w) + 441).
      { rewrite stepSize_eq, F3. apply s32_id. unfold int_range. lia. }
      rewrite Hstep in E2.
      apply IH in E2.
      2:{ exact Hc1. }
      2:{ cbn [set_cd cd set_startIndex startIndex]. lia. }
      2:{ cbn [set_cd cd set_startIndex fbIndex]. rewrite F2, fbLen_setup_eq. lia. }
      cbn [set_cd cd set_startIndex startIndex fbIndex accCount] in E2.
      rewrite F2 in E2. destruct E2 as [Hb2 Hn2].
      rewrite windows_of_app, len_app, Hw1, count_updates_app.
      unfold len at 1 3. cbn [length].
      rewrite stepSize_eq in *. split; [lia|].
      intros Hnan. apply nan_reported_app in Hnan.
      destruct Hnan as [Hnan|Hnan];
        [destruct (window_step_next_quiet _ E Hnan)|].
      specialize (Hn2 Hnan). unfold accumulationNum in *. lia.
    + done_inv H. destruct (window_step_return _ E) as [[rc Hrc] Hk].
      destruct (Hk Hc) as [Hk1 Hk2].
      rewrite Hw1. unfold len. cbn [length]. rewrite stepSize_eq.
      split; [lia|]. intros _.
      rewrite Hrc, count_updates_spectra. cbn [spectra_of].
      rewrite spectra_of_app, spectra_of_lock_events. cbn [spectra_of app length].
      unfold accumulationNum in *. lia.
Qed.

Lemma callback_hand_over w n render status out w' ev :
  callback w n render = Done (status, out, w', ev) ->
  (render = None -> spectra_of ev = []) /\
  (fbIndex (cd w') < windowFrames -> spectra_of ev = []) /\
  (nan_reported ev ->
   exists ev0 start rc,
     ev = ev0 ++ EvWindow start :: lock_events rc
              ++ [EvStdout "spectrum is NaN"%string; EvUnlock] /\
     ~ nan_reported ev0 /\
     spectra_of ev = spectra_of ev0) /\
  (pipeline_ok w -> 0 <= n <= specRes -> nan_reported ev ->
   spectra_of ev = []).
Proof.
  unfold callback. intros H. destruct render as [data|].
  - destruct (append_frames (cd w) n data) as [[d out0]| |] eqn:E;
      cbn [bind] in H; [|discriminate H|discriminate H].
    split; [intros Hr; discriminate Hr|].
    destruct (Z.ltb_spec (fbIndex d) windowFrames) as [Hlt|Hge].
    + done_inv H.
      assert (Hno : forall l,
                 l = (if n >? u32 windowFrames
                      then [EvStderr "Error: buffer is too small."%string]
                      else []) ->
                 spectra_of l = [] /\ ~ nan_reported l).
      { intros l ->. destruct (n >? u32 windowFrames); split;
          try reflexivity; intros Hn;
          repeat (destruct Hn as [Hn|Hn]; try discriminate Hn); exact Hn. }
      destruct (Hno _ eq_refl) as [Hsp Hq].
      split; [intros _; exact Hsp|].
      split; [intros Hn; destruct (Hq Hn)|].
      intros _ _ Hn. destruct (Hq Hn).
    + destruct (analysis_loop (loop_budget d) (set_cd w d))
        as [[[st w2] ev2]| |] eqn:E0; cbn [bind] in H;
        [|discriminate H|discriminate H].
      done_inv H.
      pose proof (analysis_loop_frame _ _ E0) as (_ & _ & Hfb & _).
      cbn [set_cd cd] in Hfb.
      split; [intros Hlt; lia|].
      assert (Hev0 : forall ev, nan_reported
                 ((if n >? u32 windowFrames
                   then [EvStderr "Error: buffer is too small."%string]
                   else []) ++ ev) -> nan_reported ev).
      { intros ev. destruct (n >? u32 windowFrames); [|intros Hn; exact Hn].
        intros [Hn|Hn]; [discriminate Hn|exact Hn]. }
      split.
      * intros Hn. apply Hev0 in Hn.
        destruct (analysis_loop_nan_shape _ _ E0 Hn)
          as (ev0 & start & rc & Hev & Hq).
        exists ((if n >? u32 windowFrames
                 then [EvStderr "Error: buffer is too small."%string]
                 else []) ++ ev0), start, rc.
        split; [rewrite Hev, <- app_assoc; reflexivity|].
        split.
        { destruct (n >? u32 windowFrames); [|exact Hq].
          intros [Hn'|Hn']; [discriminate Hn'|exact (Hq Hn')]. }
        rewrite !spectra_of_ev0, Hev, spectra_of_app. cbn [spectra_of].
        rewrite spectra_of_app, spectra_of_lock_events.
        cbn [spectra_of app]. apply app_nil_r.
      * intros (Hall & Hcur & Hcount) Hn Hnan. apply Hev0 in Hnan.
        pose proof Hall as (HA & Hh & Hacc & Hfr & Hlen & Hre & Him & Hfp).
        pose proof (append_frames_out _ _ _ E) as [Hdata _].
        destruct (@append_frames_ok (cd w) n data Hfr Hlen Hcur Hn)
          as (d1 & out1 & E1 & Hs & Hf & Hc & _); [lia|].
        rewrite E in E1. apply Done_inj in E1.
        apply pair_equal_spec in E1. destruct E1 as [<- _].
        pose proof (append_frames_inv _ _ _ E)
          as (_ & _ & _ & I4 & I5 & _).
        destruct (analysis_loop_nan_count _ _ E0) as [Hb Heq].
        { unfold counter_ok. cbn [set_cd cd]. rewrite I4. exact Hcount. }
        { cbn [set_cd cd]. lia. }
        { cbn [set_cd cd]. rewrite <- Hlen, <- I5. lia. }
        specialize (Heq Hnan). cbn [set_cd cd] in Hb, Heq.
        rewrite I4 in Heq. rewrite spectra_of_ev0.
        rewrite count_updates_spectra in Heq.
        unfold counter_ok, accumulationNum in *.
        rewrite windowFrames_eq, stepSize_eq in *. unfold specRes in *.
        destruct (spectra_of ev2) as [|s l]; [reflexivity|].
        cbn [length] in Heq. lia.
  - done_inv H.
    assert (Hsp : spectra_of
              ((if n >? u32 windowFrames
                then [EvStderr "Error: buffer is too small."%string]
                else []) ++ [EvStderr "Error: Callback: AudioUnitRender"%string])
              = []) by (rewrite spectra_of_ev0; reflexivity).
    assert (Hq : ~ nan_reported
              ((if n >? u32 windowFrames
                then [EvStderr "Error: buffer is too small."%string]
                else []) ++ [EvStderr "Error: Callback: AudioUnitRender"%string])).
    { destruct (n >? u32 windowFrames); intros Hn;
        repeat (destruct Hn as [Hn|Hn]; try discriminate Hn); exact Hn. }
    split; [intros _; exact Hsp|]. split; [intros _; exact Hsp|].
    split; [intros Hn; destruct (Hq Hn)|]. intros _ _ _. exact Hsp.
Qed.

(** Whatever path the callback takes to its return, the history has
    received exactly the spectra its events show, each of [fpLength] floats,
    and the stored fingerprint is afterwards the summary of the history if a
    spectrum was handed over, and is untouched if none was. The render
    error and the too-little-data return (the one taken when [fbIndex]
    stays below [windowFrames]) hand over none. A callback that reports a
    not-a-number ends with the report and the unlock, so that the cycle it
    closes has handed over nothing; and on an object in order, fed at most
    [specRes] samples, such a callback has handed over nothing at all. *)
Theorem callback_publishes_summary w (n : Z) (render : option (list Z))
    status out w' ev
    (Hcall : callback w n render = Done (status, out, w', ev))
    (Hfp : len (fingerprint w) = fpLength) :
  published w ev w' /\
  (render = None -> spectra_of ev = []) /\
  (fbIndex (cd w') < windowFrames -> spectra_of ev = []) /\
  (nan_reported ev ->
   exists ev0 start rc,
     ev = ev0 ++ EvWindow start :: lock_events rc
              ++ [EvStdout "spectrum is NaN"%string; EvUnlock] /\
     ~ nan_reported ev0 /\
     spectra_of ev = spectra_of ev0) /\
  (pipeline_ok w -> 0 <= n <= specRes -> nan_reported ev ->
   spectra_of ev = []).
Proof.
  split.
  - exact (@callback_published P (proj2 HP) w n render status out w' ev
             Hcall Hfp).
  - exact (@callback_hand_over w n render status out w' ev Hcall).
Qed.

End HandOver.

(** ** The threads: every snapshot is one whole version *)

Section SharedLists.
Import Shared.

Local Abbreviation n := (Z.to_nat fpLength).

Lemma thread_eqb_eq a b : thread_eqb a b = true <-> a = b.
Proof.
  destruct a as [|i], b as [|j]; cbn [thread_eqb]; split; intros H;
    try reflexivity; try discriminate H.
  - apply Nat.eqb_eq in H. congruence.
  - injection H as ->. apply Nat.eqb_refl.
Qed.

Lemma thread_eqb_refl a : thread_eqb a a = true.
Proof. apply thread_eqb_eq. reflexivity. Qed.

Lemma thread_eqb_neq a b : a <> b -> thread_eqb a b = false.
Proof.
  intros H. destruct (thread_eqb a b) eqn:E; [|reflexivity].
  apply thread_eqb_eq in E. contradiction.
Qed.

Lemma mem_drop i j l :
  mem j (drop i l) = if Nat.eqb j i then false else mem j l.
Proof.
  unfold mem, drop. induction l as [|x l IH]; simpl.
  - destruct (Nat.eqb j i); reflexivity.
  - destruct (Nat.eqb_spec x i) as [->|Hx]; simpl.
    + rewrite IH. destruct (Nat.eqb_spec j i) as [->|Hj]; simpl.
      * reflexivity.
      * destruct (Nat.eqb_spec j i); [contradiction|reflexivity].
    + rewrite IH. destruct (Nat.eqb_spec j i) as [->|Hj]; simpl.
      * destruct (Nat.eqb_spec i x); [congruence|reflexivity].
      * reflexivity.
Qed.

Lemma mem_bins i : (i < n)%nat -> mem i bins = true.
Proof.
  intros Hi. unfold mem, bins. apply existsb_exists. exists i.
  split; [apply in_seq; lia|apply Nat.eqb_refl].
Qed.

Lemma mem_nil i : mem i [] = false.
Proof. reflexivity. Qed.

Lemma mem_bins_inv i : mem i bins = true -> (i < n)%nat.
Proof.
  unfold mem, bins. intros H. apply existsb_exists in H.
  destruct H as (j & Hj & E). apply Nat.eqb_eq in E. subst j.
  apply in_seq in Hj. lia.
Qed.

Lemma mem_drop_inv i j l : mem j (drop i l) = true -> mem j l = true.
Proof.
  rewrite mem_drop. destruct (Nat.eqb j i); [intros H; discriminate H|].
  intros H. exact H.
Qed.

Lemma skipn_assign l i x m :
  (i < m)%nat -> skipn m (assign l i x) = skipn m l.
Proof.
  revert i m. induction l as [|h l IH]; intros [|i] [|m] H; cbn; try lia;
    try reflexivity.
  apply IH. lia.
Qed.

Lemma assign_length l i x : length (assign l i x) = length l.
Proof.
  revert i. induction l as [|h l IH]; intros [|i]; simpl; auto.
Qed.

Lemma assign_same l i x :
  (i < length l)%nat -> nth_error (assign l i x) i = Some x.
Proof.
  revert i. induction l as [|h l IH]; intros [|i] Hi; simpl in *; try lia; auto.
  apply IH. lia.
Qed.

Lemma assign_other l i j x :
  i <> j -> nth_error (assign l i x) j = nth_error l j.
Proof.
  revert i j. induction l as [|h l IH]; intros [|i] [|j] Hij; simpl; auto.
  congruence.
Qed.

Lemma nth_error_nth_default (l : list spec_float) i d :
  (i < length l)%nat -> nth_error l i = Some (nth i l d).
Proof.
  revert i. induction l as [|h l IH]; intros [|i] Hi; simpl in *; try lia; auto.
  apply IH. lia.
Qed.

Lemma firstn_pointwise (a b : list spec_float) :
  length b = n -> (n <= length a)%nat ->
  (forall i, (i < n)%nat -> nth_error a i = nth_error b i) ->
  firstn n a = b.
Proof.
  generalize n. intros m. revert a b.
  induction m as [|m IH]; intros a b Hb Ha H.
  - destruct b; [reflexivity|discriminate].
  - destruct a as [|x a]; [simpl in Ha; lia|].
    destruct b as [|y b]; [discriminate|].
    simpl. f_equal.
    + specialize (H O). simpl in H. assert (Some x = Some y) by (apply H; lia).
      congruence.
    + apply IH; simpl in *; try lia.
      intros i Hi. apply (H (S i)). lia.
Qed.

Lemma whole_pointwise (a b : list spec_float) :
  length a = n -> length b = n ->
  (forall i, (i < n)%nat -> nth_error a i = nth_error b i) ->
  a = b.
Proof.
  intros Ha Hb H. rewrite <- (firstn_all a), Ha.
  apply firstn_pointwise; [exact Hb|lia|exact H].
Qed.

Lemma last_in (T : Type) (l : list T) (d : T) : In (last l d) (d :: l).
Proof.
  induction l as [|x l IH]; [left; reflexivity|].
  destruct l as [|y l]; [right; left; reflexivity|].
  change (last (x :: y :: l) d) with (last (y :: l) d).
  destruct IH as [IH|IH]; [left; exact IH|right; right; exact IH].
Qed.

Lemma last_snoc (T : Type) (l : list T) (x d : T) : last (l ++ [x]) d = x.
Proof. apply last_last. Qed.

(** What the mutex protocol says of the event at the head. *)
Lemma discipline_head held e r :
  discipline held (e :: r) = Some false ->
  match e with
  | EvLock rc =>
      if rc =? 0 then held = false /\ discipline true r = Some false
      else discipline held r = Some false
  | EvUnlock => held = true /\ discipline false r = Some false
  | EvUpdate _ | EvGetSummary | EvCopyOut =>
      held = true /\ discipline true r = Some false
  | _ => discipline held r = Some false
  end.
Proof.
  destruct e; cbn [discipline]; try (intros H; exact H).
  - destruct (rc =? 0); [|intros H; exact H].
    destruct held; [intros H; discriminate H|intros H; split; [reflexivity|exact H]].
  - destruct held; [intros H; split; [reflexivity|exact H]|intros H; discriminate H].
  - destruct held; [intros H; split; [reflexivity|exact H]|intros H; discriminate H].
  - destruct held; [intros H; split; [reflexivity|exact H]|intros H; discriminate H].
  - destruct held; [intros H; split; [reflexivity|exact H]|intros H; discriminate H].
Qed.

End SharedLists.

Section SharedSteps.
Import Shared.
Variable P : Platform.
Hypothesis Hsummary : forall sp, len (getSummary P sp) = fpLength.
Implicit Types s : System P.

Local Abbreviation n := (Z.to_nat fpLength).

Lemma holds_owner s t : holds s t = true <-> owner s = Some t.
Proof.
  unfold holds. destruct (owner s) as [o|].
  - rewrite thread_eqb_eq. split; congruence.
  - split; intros H; discriminate H.
Qed.

Lemma holds_one s t t' : holds s t = true -> holds s t' = true -> t = t'.
Proof. rewrite !holds_owner. congruence. Qed.

Lemma tasks_set_same s t k : set_task s t k t = k.
Proof. unfold set_task. rewrite thread_eqb_refl. reflexivity. Qed.

Lemma tasks_set_other s t k t' : t' <> t -> set_task s t k t' = tasks s t'.
Proof. intros H. unfold set_task. rewrite (thread_eqb_neq H). reflexivity. Qed.

Lemma summary_length sp : length (getSummary P sp) = n.
Proof. pose proof (Hsummary sp) as H. unfold len in H. lia. Qed.

(** The mutex protocol, thread by thread, is kept by every step. *)
Lemma step_discipline a s s' :
  (forall t, discipline (holds s t) (rest (tasks s t)) = Some false) ->
  step a s = Some s' ->
  forall t, discipline (holds s' t) (rest (tasks s' t)) = Some false.
Proof.
  intros I Hstep t'. destruct a as [t|t i]; cbn [step] in Hstep.
  - pose proof (I t) as Ht.
    destruct (rest (tasks s t)) as [|e r] eqn:Hr; [discriminate Hstep|].
    apply discipline_head in Ht.
    destruct e; cbn [proceed] in Hstep.
    all: try (injection Hstep as <-; unfold holds;
              cbn [owner tasks proceed];
              destruct (thread_eqb t' t) eqn:E;
              [apply thread_eqb_eq in E; subst t';
               rewrite tasks_set_same; cbn [after rest]; exact Ht
              |rewrite tasks_set_other
                 by (intros ->; rewrite thread_eqb_refl in E; discriminate E);
               exact (I t')]).
    + (* lock *)
      destruct (rc =? 0).
      * destruct (owner s) as [o|] eqn:Ho; [discriminate Hstep|].
        injection Hstep as <-. unfold holds. cbn [owner tasks].
        destruct (thread_eqb t' t) eqn:E.
        -- apply thread_eqb_eq in E. subst t'.
           rewrite tasks_set_same. cbn [after rest]. apply Ht.
        -- rewrite tasks_set_other
             by (intros ->; rewrite thread_eqb_refl in E; discriminate E).
           pose proof (I t') as It. unfold holds in It. rewrite Ho in It.
           exact It.
      * injection Hstep as <-. unfold holds. cbn [owner tasks proceed].
        destruct (thread_eqb t' t) eqn:E.
        -- apply thread_eqb_eq in E. subst t'.
           rewrite tasks_set_same. cbn [after rest]. exact Ht.
        -- rewrite tasks_set_other
             by (intros ->; rewrite thread_eqb_refl in E; discriminate E).
           exact (I t').
    + (* unlock *)
      destruct Ht as [Hh Ht]. injection Hstep as <-. rewrite Hh.
      unfold holds. cbn [owner tasks].
      destruct (thread_eqb t' t) eqn:E.
      * apply thread_eqb_eq in E. subst t'.
        rewrite tasks_set_same. cbn [after rest]. exact Ht.
      * rewrite tasks_set_other
          by (intros ->; rewrite thread_eqb_refl in E; discriminate E).
        pose proof (I t') as It. destruct (holds s t') eqn:Hh'; [|exact It].
        rewrite (holds_one _ _ _ Hh' Hh), thread_eqb_refl in E. discriminate E.
    + (* update *)
      destruct Ht as [Hh Ht]. injection Hstep as <-.
      unfold holds. cbn [owner tasks].
      destruct (thread_eqb t' t) eqn:E.
      * apply thread_eqb_eq in E. subst t'.
        rewrite tasks_set_same. cbn [after rest].
        apply holds_owner in Hh. rewrite Hh, thread_eqb_refl. exact Ht.
      * rewrite tasks_set_other
          by (intros ->; rewrite thread_eqb_refl in E; discriminate E).
        exact (I t').
    + (* getSummary *)
      destruct Ht as [Hh Ht].
      destruct (todo (tasks s t)); [|discriminate Hstep].
      injection Hstep as <-. unfold holds. cbn [owner tasks proceed].
      destruct (thread_eqb t' t) eqn:E.
      * apply thread_eqb_eq in E. subst t'.
        rewrite tasks_set_same. cbn [after rest].
        apply holds_owner in Hh. rewrite Hh, thread_eqb_refl. exact Ht.
      * rewrite tasks_set_other
          by (intros ->; rewrite thread_eqb_refl in E; discriminate E).
        exact (I t').
    + (* copy-out *)
      destruct Ht as [Hh Ht].
      destruct (todo (tasks s t)); [|discriminate Hstep].
      injection Hstep as <-. unfold holds. cbn [owner tasks proceed].
      destruct (thread_eqb t' t) eqn:E.
      * apply thread_eqb_eq in E. subst t'.
        rewrite tasks_set_same. cbn [after rest].
        apply holds_owner in Hh. rewrite Hh, thread_eqb_refl. exact Ht.
      * rewrite tasks_set_other
          by (intros ->; rewrite thread_eqb_refl in E; discriminate E).
        exact (I t').
  - cbv zeta in Hstep.
    destruct (rest (tasks s t)) as [|e r] eqn:Hr; [discriminate Hstep|].
    destruct e; try discriminate Hstep.
    all: destruct (mem i (todo (tasks s t))); [|discriminate Hstep];
      injection Hstep as <-; unfold holds; cbn [owner tasks];
      destruct (thread_eqb t' t) eqn:E;
      [apply thread_eqb_eq in E; subst t';
       rewrite tasks_set_same; cbn [rest]; rewrite <- Hr; exact (I t)
      |rewrite tasks_set_other
         by (intros ->; rewrite thread_eqb_refl in E; discriminate E);
       exact (I t')].
Qed.

Lemma snapshot_state_more seen seen' (started : Prop) st c :
  incl seen seen' ->
  snapshot_state seen started st c -> snapshot_state seen' started st c.
Proof.
  intros Hi [H|[H|[H|[Hr H]]]].
  - left. exact H.
  - right. left. exact H.
  - right. right. left. exact H.
  - right. right. right. split; [exact Hr|]. intros Hs. apply Hi, H, Hs.
Qed.

Lemma writer_fresh cur sp st k r :
  st = cur -> writer_state P cur sp st (after k r).
Proof.
  intros ->. unfold writer_state. cbn [after rest todo].
  destruct r as [|e r]; [reflexivity|].
  destruct e; try reflexivity.
  intros i Hi. rewrite (mem_bins Hi). reflexivity.
Qed.

(** A thread whose next event touches the shared data holds the mutex. *)
Lemma data_under_lock s t e r :
  discipline (holds s t) (rest (tasks s t)) = Some false ->
  rest (tasks s t) = e :: r ->
  match e with
  | EvUnlock | EvUpdate _ | EvGetSummary | EvCopyOut => owner s = Some t
  | _ => True
  end.
Proof.
  intros Hd Hr. rewrite Hr in Hd. apply discipline_head in Hd.
  destruct e; try exact I; apply holds_owner; apply Hd.
Qed.

Lemma invariant_step first all started bufs seen a s s' :
  invariant first all started bufs seen s -> step a s = Some s' ->
  exists seen', invariant first all started bufs seen' s' /\ incl seen seen'.
Proof.
  intros I Hstep.
  pose proof (@step_discipline a s s' (inv_discipline I) Hstep) as Hd'.
  pose proof (inv_stored I) as Hw. unfold writer_state in Hw.
  pose proof (inv_versions I) as Hv.
  destruct a as [[|k]|[|k] i]; cbn [step] in Hstep.
  - (* the callback goes on *)
    destruct (rest (tasks s Producer)) as [|e r] eqn:Hr; [discriminate Hstep|].
    assert (Hkeep : forall seen1,
               incl seen seen1 ->
               forall j, snapshot_state (first :: seen1) (started j)
                           (stored s)
                           (set_task s Producer
                              (after (tasks s Producer) r) (Consumer j))).
    { intros seen1 Hi j. unfold set_task. cbn [thread_eqb].
      apply (@snapshot_state_more (first :: seen)); [|apply (inv_consumer I)].
      intros x [Hx|Hx]; [left; exact Hx|right; apply Hi, Hx]. }
    assert (Htail : forall j,
               skipn n (out (set_task s Producer
                               (after (tasks s Producer) r) (Consumer j)))
               = skipn n (bufs j)).
    { intros j. unfold set_task. cbn [thread_eqb]. apply (inv_tail I). }
    assert (Hplain : forall o,
               versions P (history s) (e :: r) = versions P (history s) r ->
               stored s = last seen first ->
               (forall t, discipline
                            (holds {| stored := stored s; owner := o;
                                      history := history s;
                                      tasks := set_task s Producer
                                                 (after (tasks s Producer) r) |} t)
                            (rest (set_task s Producer
                                     (after (tasks s Producer) r) t))
                          = Some false) ->
               invariant first all started bufs seen
                 {| stored := stored s; owner := o; history := history s;
                    tasks := set_task s Producer (after (tasks s Producer) r) |}).
    { intros o Hsame Hcur Hd. constructor; cbn [stored owner history tasks].
      - apply (inv_length I).
      - exact Hd.
      - rewrite tasks_set_same. cbn [after rest]. rewrite <- Hsame. exact Hv.
      - rewrite tasks_set_same. apply writer_fresh. exact Hcur.
      - apply Hkeep, incl_refl.
      - exact Htail. }
    destruct e; cbn [proceed] in Hstep.
    + injection Hstep as <-. exists seen. split; [|apply incl_refl].
      apply Hplain; [reflexivity|exact Hw|exact Hd'].
    + injection Hstep as <-. exists seen. split; [|apply incl_refl].
      apply Hplain; [reflexivity|exact Hw|exact Hd'].
    + destruct (rc =? 0).
      * destruct (owner s) as [o|]; [discriminate Hstep|].
        injection Hstep as <-. exists seen. split; [|apply incl_refl].
        apply Hplain; [reflexivity|exact Hw|exact Hd'].
      * injection Hstep as <-. exists seen. split; [|apply incl_refl].
        apply Hplain; [reflexivity|exact Hw|exact Hd'].
    + injection Hstep as <-. exists seen. split; [|apply incl_refl].
      apply Hplain; [reflexivity|exact Hw|exact Hd'].
    + injection Hstep as <-. exists seen. split; [|apply incl_refl].
      apply Hplain; [reflexivity|exact Hw|exact Hd'].
    + (* update *)
      injection Hstep as <-. exists seen. split; [|apply incl_refl].
      constructor; cbn [stored owner history tasks].
      * apply (inv_length I).
      * exact Hd'.
      * rewrite tasks_set_same. cbn [after rest]. exact Hv.
      * rewrite tasks_set_same. apply writer_fresh. exact Hw.
      * apply Hkeep, incl_refl.
      * exact Htail.
    + (* the summary is written *)
      destruct (todo (tasks s Producer)) eqn:Htodo; [|discriminate Hstep].
      injection Hstep as <-.
      assert (Hall : stored s = getSummary P (history s)).
      { apply whole_pointwise;
          [apply (inv_length I)|apply summary_length|].
        intros i Hi. rewrite (Hw i Hi). reflexivity. }
      exists (seen ++ [getSummary P (history s)]).
      split; [|apply incl_appl, incl_refl].
      constructor; cbn [stored owner history tasks proceed].
      * apply (inv_length I).
      * exact Hd'.
      * rewrite tasks_set_same. cbn [after rest].
        rewrite <- app_assoc. exact Hv.
      * rewrite tasks_set_same. apply writer_fresh.
        rewrite last_snoc. exact Hall.
      * apply Hkeep, incl_appl, incl_refl.
      * exact Htail.
    + destruct (todo (tasks s Producer)); [|discriminate Hstep].
      injection Hstep as <-. exists seen. split; [|apply incl_refl].
      apply Hplain; [reflexivity|exact Hw|exact Hd'].
  - (* a caller goes on *)
    assert (Hprod : forall s1,
               stored s1 = stored s -> history s1 = history s ->
               (exists c, tasks s1 = set_task s (Consumer k) c) ->
               seen ++ versions P (history s1) (rest (tasks s1 Producer)) = all /\
               writer_state P (last seen first) (history s1) (stored s1)
                 (tasks s1 Producer)).
    { intros s1 E1 E2 [c E3]. rewrite E1, E2, E3.
      unfold set_task. cbn [thread_eqb]. split; [exact Hv|apply (inv_stored I)]. }
    assert (Hothers : forall s1 c j,
               stored s1 = stored s ->
               tasks s1 = set_task s (Consumer k) c ->
               j <> k ->
               snapshot_state (first :: seen) (started j) (stored s1)
                 (tasks s1 (Consumer j))).
    { intros s1 c j E1 E2 Hj. rewrite E1, E2.
      rewrite tasks_set_other by congruence. apply (inv_consumer I). }
    assert (Hgo : forall c,
               out c = out (tasks s (Consumer k)) ->
               forall j, skipn n (out (set_task s (Consumer k) c (Consumer j)))
                         = skipn n (bufs j)).
    { intros c Hc j. destruct (Nat.eq_dec j k) as [->|Hj].
      - rewrite tasks_set_same, Hc. apply (inv_tail I).
      - rewrite tasks_set_other by congruence. apply (inv_tail I). }
    destruct (inv_consumer I k)
      as [[Hr Hlen]|[[Hr [Hlen [Hsub Hcopy]]]|[[Hr Hcopy]|[Hr Hfin]]]];
      rewrite Hr in Hstep.
    + (* lock *)
      cbn [Z.eqb] in Hstep.
      destruct (owner s) as [o|] eqn:Ho; [discriminate Hstep|].
      injection Hstep as <-. exists seen. split; [|apply incl_refl].
      match goal with
      | |- invariant _ _ _ _ _ ?s1 =>
          destruct (Hprod s1 eq_refl eq_refl) as [Hv1 Hw1];
            [eexists; reflexivity|]
      end.
      constructor; cbn [stored owner history tasks] in *.
      * apply (inv_length I).
      * exact Hd'.
      * exact Hv1.
      * exact Hw1.
      * intros j. destruct (Nat.eq_dec j k) as [->|Hj].
        -- rewrite tasks_set_same. right. left. cbn [after rest out todo].
           split; [reflexivity|]. split; [exact Hlen|].
           split; [exact mem_bins_inv|].
           intros i Hi Hm. rewrite (mem_bins Hi) in Hm. discriminate Hm.
        -- rewrite tasks_set_other by congruence. apply (inv_consumer I).
      * apply Hgo. reflexivity.
    + (* the copy is complete *)
      destruct (todo (tasks s (Consumer k))) eqn:Htodo; [|discriminate Hstep].
      injection Hstep as <-. exists seen. split; [|apply incl_refl].
      match goal with
      | |- invariant _ _ _ _ _ ?s1 =>
          destruct (Hprod s1 eq_refl eq_refl) as [Hv1 Hw1];
            [eexists; reflexivity|]
      end.
      constructor; cbn [stored owner history tasks proceed] in *.
      * apply (inv_length I).
      * exact Hd'.
      * exact Hv1.
      * exact Hw1.
      * intros j. destruct (Nat.eq_dec j k) as [->|Hj].
        -- rewrite tasks_set_same. right. right. left. cbn [after rest out].
           split; [reflexivity|].
           apply firstn_pointwise; [apply (inv_length I)|exact Hlen|].
           intros i Hi. apply Hcopy; [exact Hi|reflexivity].
        -- rewrite tasks_set_other by congruence. apply (inv_consumer I).
      * apply Hgo. reflexivity.
    + (* unlock *)
      injection Hstep as <-. exists seen. split; [|apply incl_refl].
      match goal with
      | |- invariant _ _ _ _ _ ?s1 =>
          destruct (Hprod s1 eq_refl eq_refl) as [Hv1 Hw1];
            [eexists; reflexivity|]
      end.
      assert (Hcur : stored s = last seen first).
      { pose proof (@data_under_lock s (Consumer k) _ _ (inv_discipline I (Consumer k)) Hr)
          as Hk. cbn in Hk.
        destruct (rest (tasks s Producer)) as [|e r] eqn:Hp; [exact Hw|].
        pose proof (@data_under_lock s Producer _ _ (inv_discipline I Producer) Hp) as Hq.
        destruct e; try exact Hw. rewrite Hk in Hq. discriminate Hq. }
      constructor; cbn [stored owner history tasks] in *.
      * apply (inv_length I).
      * exact Hd'.
      * exact Hv1.
      * exact Hw1.
      * intros j. destruct (Nat.eq_dec j k) as [->|Hj].
        -- rewrite tasks_set_same. right. right. right. cbn [after rest out].
           split; [reflexivity|]. intros _.
           rewrite Hcopy, Hcur. apply last_in.
        -- rewrite tasks_set_other by congruence. apply (inv_consumer I).
      * apply Hgo. reflexivity.
    + discriminate Hstep.
  - (* the callback writes one float of the summary *)
    cbv zeta in Hstep.
    destruct (rest (tasks s Producer)) as [|e r] eqn:Hr; [discriminate Hstep|].
    pose proof (@data_under_lock s Producer _ _ (inv_discipline I Producer) Hr) as Hown.
    destruct e; try discriminate Hstep.
    + destruct (mem i (todo (tasks s Producer))) eqn:Hm; [|discriminate Hstep].
      injection Hstep as <-. exists seen. split; [|apply incl_refl].
      constructor; cbn [stored owner history tasks].
      * rewrite assign_length. apply (inv_length I).
      * exact Hd'.
      * rewrite tasks_set_same. cbn [rest]. exact Hv.
      * rewrite tasks_set_same. unfold writer_state. cbn [rest todo].
        intros j Hj. rewrite mem_drop.
        destruct (Nat.eqb_spec j i) as [->|Hji].
        -- rewrite assign_same by (rewrite (inv_length I); exact Hj).
           symmetry. apply nth_error_nth_default.
           rewrite summary_length. exact Hj.
        -- rewrite assign_other by congruence. apply Hw. exact Hj.
      * intros j. unfold set_task. cbn [thread_eqb].
        destruct (inv_consumer I j) as [H|[[Hj _]|[[Hj _]|H]]].
        -- left. exact H.
        -- pose proof (@data_under_lock s (Consumer j) _ _ (inv_discipline I (Consumer j)) Hj)
             as Hk. cbn in Hk. rewrite Hk in Hown. discriminate Hown.
        -- pose proof (@data_under_lock s (Consumer j) _ _ (inv_discipline I (Consumer j)) Hj)
             as Hk. cbn in Hk. rewrite Hk in Hown. discriminate Hown.
        -- right. right. right. exact H.
      * intros j. unfold set_task. cbn [thread_eqb]. apply (inv_tail I).
    + destruct (mem i (todo (tasks s Producer))) eqn:Hm; [|discriminate Hstep].
      injection Hstep as <-. exists seen. split; [|apply incl_refl].
      constructor; cbn [stored owner history tasks].
      * apply (inv_length I).
      * exact Hd'.
      * rewrite tasks_set_same. cbn [rest]. exact Hv.
      * rewrite tasks_set_same. unfold writer_state. cbn [rest todo].
        exact Hw.
      * intros j. unfold set_task. cbn [thread_eqb]. apply (inv_consumer I).
      * intros j. unfold set_task. cbn [thread_eqb]. apply (inv_tail I).
  - (* a caller copies one float *)
    cbv zeta in Hstep.
    destruct (inv_consumer I k)
      as [[Hr Hlen]|[[Hr [Hlen [Hsub Hcopy]]]|[[Hr Hcopy]|[Hr Hfin]]]];
      rewrite Hr in Hstep; try discriminate Hstep.
    destruct (mem i (todo (tasks s (Consumer k)))) eqn:Hm; [|discriminate Hstep].
    injection Hstep as <-. exists seen. split; [|apply incl_refl].
    constructor; cbn [stored owner history tasks].
    + apply (inv_length I).
    + exact Hd'.
    + unfold set_task. cbn [thread_eqb]. exact Hv.
    + unfold set_task. cbn [thread_eqb]. apply (inv_stored I).
    + intros j. destruct (Nat.eq_dec j k) as [->|Hj].
      * rewrite tasks_set_same. right. left. cbn [rest out todo].
        rewrite assign_length.
        split; [reflexivity|]. split; [exact Hlen|].
        split; [intros j Hj; apply Hsub; exact (mem_drop_inv _ _ _ Hj)|].
        intros j Hj. rewrite mem_drop.
        destruct (Nat.eqb_spec j i) as [->|Hji]; intros Hmj.
        -- rewrite assign_same by lia.
           symmetry. apply nth_error_nth_default.
           rewrite (inv_length I). exact Hj.
        -- rewrite assign_other by congruence. apply Hcopy; assumption.
      * rewrite tasks_set_other by congruence. apply (inv_consumer I).
    + intros j. destruct (Nat.eq_dec j k) as [->|Hj].
      * rewrite tasks_set_same. cbn [out].
        rewrite skipn_assign by (apply Hsub; exact Hm). apply (inv_tail I).
      * rewrite tasks_set_other by congruence. apply (inv_tail I).
Qed.

Lemma invariant_run first all started bufs schedule : forall seen s s',
  invariant first all started bufs seen s ->
  run_schedule schedule s = Some s' ->
  exists seen', invariant first all started bufs seen' s' /\ incl seen seen'.
Proof.
  induction schedule as [|a schedule IH]; intros seen s s' I H;
    cbn [run_schedule] in H.
  - injection H as <-. exists seen. split; [exact I|apply incl_refl].
  - destruct (step a s) as [s1|] eqn:E; [|discriminate H].
    destruct (@invariant_step first all started bufs seen a s s1 I E)
      as (seen1 & I1 & H1).
    destruct (IH _ _ _ I1 H) as (seen2 & I2 & H2).
    exists seen2. split; [exact I2|].
    intros x Hx. apply H2, H1, Hx.
Qed.

End SharedSteps.

(** *** The events of the two calls *)

Section SharedCode.
Import Shared.
Variable P : Platform.
Hypothesis HP : platform_ok P.
Implicit Types w : Fingerprinter P.

Local Abbreviation n := (Z.to_nat fpLength).

(** With a mutex that is free at its entry the callback keeps to the
    protocol: it touches the history and the fingerprint only between a
    lock that succeeded and the unlock. *)
Lemma callback_discipline w m render status o w' ev :
  callback w m render = Done (status, o, w', ev) ->
  lock w = MxFree ->
  discipline false ev = Some false.
Proof.
  unfold callback. intros H Hl. destruct render as [data|].
  - destruct (append_frames (cd w) m data) as [[d out0]| |] eqn:E;
      cbn [bind] in H; [|discriminate H|discriminate H].
    destruct (fbIndex d <? windowFrames).
    + done_inv H. rewrite <- (app_nil_r (if m >? _ then _ else _)).
      apply discipline_ev0.
    + destruct (analysis_loop (loop_budget d) (set_cd w d))
        as [[[st w2] ev2]| |] eqn:E0; cbn [bind] in H;
        [|discriminate H|discriminate H].
      done_inv H. rewrite discipline_ev0.
      apply analysis_loop_lock in E0; [|cbn [set_cd lock]; congruence].
      apply E0. exact Hl.
  - done_inv H. rewrite discipline_ev0. reflexivity.
Qed.

(** [getFingerprint] with a free mutex: it locks, copies and unlocks, or
    it does nothing and does not return true. *)
Lemma getFingerprint_events w (outBuf : list spec_float) :
  lock w = MxFree ->
  (events_of (getFingerprint w outBuf) = [EvLock 0; EvCopyOut; EvUnlock] /\
   (n <= length outBuf)%nat) \/
  (events_of (getFingerprint w outBuf) = [] /\
   forall o w' ev, getFingerprint w outBuf <> Done (true, o, w', ev)).
Proof.
  intros Hl. unfold getFingerprint. destruct (unitIsRunning w).
  - rewrite Hl. cbn [pthread_mutex_lock].
    destruct (memcpy outBuf 0 (fingerprint w) 0 fpLength) as [x| |] eqn:E;
      cbn [bind events_of].
    + left. split; [reflexivity|].
      unfold memcpy in E.
      destruct (load (fingerprint w) 0 fpLength) as [y| |] eqn:E1;
        cbn [bind] in E; [|discriminate E|discriminate E].
      apply load_len in E1. apply store_inv in E. destruct E as [Hb _].
      apply in_bounds_true in Hb. unfold len in *. lia.
    + right. split; [reflexivity|]. intros o w' ev H. discriminate H.
    + right. split; [reflexivity|]. intros o w' ev H. discriminate H.
  - right. split; [reflexivity|]. intros o w' ev H. discriminate H.
Qed.

(** What a [getFingerprint] that returns true hands back: the stored
    fingerprint, followed by what the buffer held behind it. *)
Lemma getFingerprint_buffer w (outBuf : list spec_float) o w' ev :
  getFingerprint w outBuf = Done (true, o, w', ev) ->
  len (fingerprint w) = fpLength ->
  o = fingerprint w ++ skipn n outBuf.
Proof.
  unfold getFingerprint. intros H Hfp.
  destruct (unitIsRunning w); [|discriminate H].
  destruct (pthread_mutex_lock (lock w)) as [rc held].
  destruct (memcpy outBuf 0 (fingerprint w) 0 fpLength) as [x| |] eqn:E;
    cbn [bind] in H; [|discriminate H|discriminate H].
  done_inv H. unfold memcpy in E.
  rewrite <- Hfp, load_all in E. cbn [bind] in E.
  apply store_inv in E. destruct E as [_ E]. subst o.
  change (Z.to_nat 0) with O. cbn [firstn app Nat.add].
  rewrite <- Hfp. unfold len. rewrite Nat2Z.id. reflexivity.
Qed.

Lemma versions_app sp ev1 ev2 :
  versions P sp (ev1 ++ ev2) =
  versions P sp ev1
    ++ versions P (fold_left (update P) (spectra_of ev1) sp) ev2.
Proof.
  revert sp. induction ev1 as [|e ev1 IH]; intros sp; [reflexivity|].
  destruct e; cbn [app versions spectra_of fold_left]; rewrite ?IH;
    reflexivity.
Qed.

Lemma versions_length sp ev : length (versions P sp ev) = writes ev.
Proof.
  unfold writes. revert sp.
  induction ev as [|e ev IH]; intros sp; [reflexivity|].
  destruct e; cbn [versions filter is_summary length]; rewrite ?IH;
    reflexivity.
Qed.

Lemma versions_lock_events sp rc : versions P sp (lock_events rc) = [].
Proof. unfold lock_events. destruct (rc =? 0); reflexivity. Qed.

Lemma versions_ev0 sp (m : Z) (ev : list Event) :
  versions P sp
    ((if m >? u32 windowFrames
      then [EvStderr "Error: buffer is too small."%string] else []) ++ ev)
  = versions P sp ev.
Proof. destruct (m >? u32 windowFrames); reflexivity. Qed.

Lemma last_default (T : Type) (l : list T) (x d d' : T) :
  last (x :: l) d = last (x :: l) d'.
Proof.
  revert x. induction l as [|y l IH]; intros x; [reflexivity|].
  change (last (x :: y :: l) d) with (last (y :: l) d).
  change (last (x :: y :: l) d') with (last (y :: l) d').
  apply IH.
Qed.

Lemma last_app (T : Type) (a b : list T) (d : T) :
  last (a ++ b) d = last b (last a d).
Proof.
  destruct b as [|z b]; [rewrite app_nil_r; reflexivity|].
  induction a as [|x a IH]; [reflexivity|].
  rewrite (last_default b z (last (x :: a) d) (last a d)), <- IH.
  cbn [app]. destruct (a ++ z :: b) eqn:E; [|reflexivity].
  destruct a; discriminate E.
Qed.

(** The versions read off the events of a call are what the call stored:
    one for each spectrum handed over, the last of them being the
    fingerprint the call leaves. *)
Definition tracked w (ev : list Event) w' : Prop :=
  length (versions P (spectrogram w) ev) = count_updates ev /\
  last (versions P (spectrogram w) ev) (fingerprint w) = fingerprint w'.

Lemma tracked_app w ev1 w1 ev2 w2 :
  tracked w ev1 w1 -> published w ev1 w1 -> tracked w1 ev2 w2 ->
  tracked w (ev1 ++ ev2) w2.
Proof.
  intros [L1 F1] (S1 & _) [L2 F2]. unfold tracked.
  rewrite versions_app, <- S1, length_app, count_updates_app, last_app.
  split; [lia|]. rewrite F1. exact F2.
Qed.

Lemma accumulate_tracked w f ev :
  accumulate w = Done (f, ev) ->
  len (fingerprint w) = fpLength ->
  tracked w ev (flow_state f).
Proof.
  unfold accumulate. intros H Hfp.
  destruct (u32 (s32 (accCount (cd w) + 1)) >=? accumulationNum).
  - destruct (pthread_mutex_lock (lock w)) as [rc held].
    destruct (vDSP_vdbcon (log10f P) (acc (cd w)) reference (acc (cd w))
                fpLength 1) as [acc2| |] eqn:E1; cbn [bind] in H;
      [|discriminate H|discriminate H].
    destruct (read acc2 0) as [x0| |] eqn:E2; cbn [bind] in H;
      [|discriminate H|discriminate H].
    destruct (nan_test x0).
    + done_inv H. unfold tracked. cbn [flow_state fingerprint].
      rewrite versions_app, versions_lock_events, count_updates_spectra,
        spectra_of_app, spectra_of_lock_events.
      split; reflexivity.
    + destruct (load acc2 0 fpLength) as [s| |] eqn:E3; cbn [bind] in H;
        [|discriminate H|discriminate H].
      destruct (store (fingerprint w) 0
                  (getSummary P (update P (spectrogram w) s)))
        as [fp| |] eqn:E4; cbn [bind] in H; [|discriminate H|discriminate H].
      destruct (vDSP_vfill F32.zero acc2 fpLength) as [acc3| |] eqn:E5;
        cbn [bind] in H; [|discriminate H|discriminate H].
      rewrite store_all in E4 by (rewrite (proj2 HP), Hfp; reflexivity).
      apply Done_inj in E4. subst fp.
      done_inv H. unfold tracked. cbn [flow_state fingerprint].
      rewrite versions_app, versions_lock_events, count_updates_spectra,
        spectra_of_app, !spectra_of_lock_events.
      split; reflexivity.
  - done_inv H. split; reflexivity.
Qed.

Lemma window_step_tracked w f ev :
  window_step w = Done (f, ev) ->
  len (fingerprint w) = fpLength ->
  tracked w ev (flow_state f).
Proof.
  unfold window_step. intros H Hfp.
  destruct (analyze_window P (cd w)) as [d| |] eqn:E; cbn [bind] in H;
    [|discriminate H|discriminate H].
  destruct (accumulate (set_cd w d)) as [[f0 ev0]| |] eqn:E0; cbn [bind] in H;
    [|discriminate H|discriminate H].
  done_inv H. apply accumulate_tracked in E0; [|exact Hfp]. exact E0.
Qed.

Lemma analysis_loop_tracked budget : forall w status w' ev,
  analysis_loop budget w = Done (status, w', ev) ->
  len (fingerprint w) = fpLength ->
  tracked w ev w'.
Proof.
  induction budget as [|budget IH]; intros w status w' ev H Hfp;
    cbn [analysis_loop] in H.
  - destruct (startIndex (cd w) <=? s32 (fbIndex (cd w) - windowFrames));
      [discriminate H|]. done_inv H. split; reflexivity.
  - destruct (startIndex (cd w) <=? s32 (fbIndex (cd w) - windowFrames)).
    2:{ done_inv H. split; reflexivity. }
    destruct (window_step w) as [[f ev1]| |] eqn:E; cbn [bind] in H;
      [|discriminate H|discriminate H].
    pose proof (window_step_tracked w E Hfp) as H1.
    pose proof (@window_step_published P (proj2 HP) w f ev1 E Hfp) as H2.
    destruct f as [w1|st w1]; cbn [flow_state] in H1, H2.
    + match type of H with
      | bind ?m _ = _ => destruct m as [[[st2 w2] ev2]| |] eqn:E2
      end; cbn [bind] in H; [|discriminate H|discriminate H].
      done_inv H.
      apply IH in E2; [|apply H2].
      exact (tracked_app H1 H2 E2).
    + done_inv H. exact H1.
Qed.

Lemma callback_tracked w m render status o w' ev :
  callback w m render = Done (status, o, w', ev) ->
  len (fingerprint w) = fpLength ->
  tracked w ev w'.
Proof.
  unfold callback. intros H Hfp. destruct render as [data|].
  - destruct (append_frames (cd w) m data) as [[d out0]| |] eqn:E;
      cbn [bind] in H; [|discriminate H|discriminate H].
    destruct (fbIndex d <? windowFrames).
    + done_inv H. unfold tracked.
      rewrite <- (app_nil_r (if m >? _ then _ else _)).
      rewrite versions_ev0, count_updates_spectra, spectra_of_ev0.
      split; reflexivity.
    + destruct (analysis_loop (loop_budget d) (set_cd w d))
        as [[[st w2] ev2]| |] eqn:E0; cbn [bind] in H;
        [|discriminate H|discriminate H].
      done_inv H. apply analysis_loop_tracked in E0; [|exact Hfp].
      unfold tracked in *.
      rewrite versions_ev0, count_updates_spectra, spectra_of_ev0,
        <- count_updates_spectra.
      exact E0.
  - done_inv H. unfold tracked.
    rewrite versions_ev0, count_updates_spectra, spectra_of_ev0.
    split; reflexivity.
Qed.

(** The start: every call has its whole program before it. *)
Lemma invariant_initial w m render (outBufs : nat -> list spec_float)
    status o w' ev :
  lock w = MxFree -> len (fingerprint w) = fpLength ->
  callback w m render = Done (status, o, w', ev) ->
  invariant (fingerprint w) (versions P (spectrogram w) ev)
    (fun k => exists o w' ev,
         getFingerprint w (outBufs k) = Done (true, o, w', ev))
    outBufs [] (initial w m render outBufs).
Proof.
  intros Hl Hfp Hcall.
  constructor; cbn [initial stored owner history tasks rest todo out program].
  - unfold len in Hfp. lia.
  - intros [|k]; unfold holds; cbn [initial owner tasks rest program].
    + rewrite Hcall. cbn [events_of].
      exact (callback_discipline _ _ _ Hcall Hl).
    + destruct (getFingerprint_events w (outBufs k) Hl) as [[-> _]|[-> _]];
        reflexivity.
  - rewrite Hcall. reflexivity.
  - rewrite Hcall. cbn [events_of last].
    exact (@writer_fresh P (fingerprint w) (spectrogram w) (fingerprint w)
             {| rest := []; todo := []; out := [] |} ev eq_refl).
  - intros k.
    destruct (getFingerprint_events w (outBufs k) Hl) as [[E Hlen]|[E Hno]].
    + left. cbn [rest out]. split; [exact E|exact Hlen].
    + right. right. right. cbn [rest out]. split; [exact E|].
      intros (o1 & w1 & ev1 & H). destruct (Hno _ _ _ H).
  - intros k. reflexivity.
Qed.

(** Once the callback has returned nothing is written any more, and a
    caller that returns from then on has copied what the callback left. *)
Lemma late_step first all started bufs seen final k a (s s' : System P) :
  invariant first all started bufs seen s -> late final k s ->
  step a s = Some s' -> late final k s'.
Proof.
  intros I (Hp & Hst & Hk) Hstep.
  destruct a as [[|j]|[|j] i]; cbn [step] in Hstep.
  - rewrite Hp in Hstep. discriminate Hstep.
  - assert (Hgo : forall o c,
               (k = j -> rest c = [] ->
                firstn n (out c) = final) ->
               late final k
                 {| stored := stored s; owner := o; history := history s;
                    tasks := set_task s (Consumer j) c |}).
    { intros o c Hc. unfold late. cbn [stored tasks].
      split; [unfold set_task; cbn [thread_eqb]; exact Hp|].
      split; [exact Hst|].
      destruct (Nat.eq_dec k j) as [->|Hkj].
      - rewrite tasks_set_same. apply Hc. reflexivity.
      - rewrite tasks_set_other by congruence. exact Hk. }
    destruct (inv_consumer I j)
      as [[Hr Hlen]|[[Hr [Hlen [Hsub Hcopy]]]|[[Hr Hcopy]|[Hr Hfin]]]];
      rewrite Hr in Hstep.
    + cbn [Z.eqb] in Hstep.
      destruct (owner s) as [o|]; [discriminate Hstep|].
      injection Hstep as <-. apply Hgo. intros _ H. discriminate H.
    + destruct (todo (tasks s (Consumer j))); [|discriminate Hstep].
      injection Hstep as <-. apply Hgo. intros _ H. discriminate H.
    + injection Hstep as <-. apply Hgo. intros _ _.
      cbn [after out]. rewrite Hcopy. exact Hst.
    + discriminate Hstep.
  - cbv zeta in Hstep. rewrite Hp in Hstep. discriminate Hstep.
  - cbv zeta in Hstep.
    destruct (inv_consumer I j)
      as [[Hr Hlen]|[[Hr [Hlen [Hsub Hcopy]]]|[[Hr Hcopy]|[Hr Hfin]]]];
      rewrite Hr in Hstep; try discriminate Hstep.
    destruct (mem i (todo (tasks s (Consumer j)))); [|discriminate Hstep].
    injection Hstep as <-. unfold late. cbn [stored tasks].
    split; [unfold set_task; cbn [thread_eqb]; exact Hp|].
    split; [exact Hst|].
    destruct (Nat.eq_dec k j) as [->|Hkj].
    + rewrite tasks_set_same. cbn [rest]. intros H. discriminate H.
    + rewrite tasks_set_other by congruence. exact Hk.
Qed.

Lemma late_run first all started bufs final k schedule :
  forall seen (s s' : System P),
  invariant first all started bufs seen s -> late final k s ->
  run_schedule schedule s = Some s' -> late final k s'.
Proof.
  induction schedule as [|a schedule IH]; intros seen s s' I L H;
    cbn [run_schedule] in H.
  - injection H as <-. exact L.
  - destruct (step a s) as [s1|] eqn:E; [|discriminate H].
    destruct (@invariant_step P (proj2 HP) first all started bufs seen
                a s s1 I E) as (seen1 & I1 & _).
    apply (IH seen1 s1 s' I1); [|exact H].
    exact (@late_step first all started bufs seen final k a s s1 I L E).
Qed.

(** What a schedule leads to, for the caller [k] of a [getFingerprint]
    that returns true. *)
Lemma reachable w m render (outBufs : nat -> list spec_float)
    status o w' ev schedule (s : System P) :
  lock w = MxFree -> len (fingerprint w) = fpLength ->
  callback w m render = Done (status, o, w', ev) ->
  run_schedule schedule (initial w m render outBufs) = Some s ->
  exists seen,
    invariant (fingerprint w) (versions P (spectrogram w) ev)
      (fun k => exists o w' ev,
           getFingerprint w (outBufs k) = Done (true, o, w', ev))
      outBufs seen s.
Proof.
  intros Hl Hfp Hcall Hrun.
  pose proof (@invariant_initial w m render outBufs status o w' ev
                Hl Hfp Hcall) as I0.
  destruct (@invariant_run P (proj2 HP) _ _ _ _ schedule [] _ s I0 Hrun)
    as (seen & I & _).
  exists seen. exact I.
Qed.

Lemma returned_snapshot first all (started : nat -> Prop) bufs seen
    (s : System P) k :
  invariant first all started bufs seen s ->
  started k -> rest (tasks s (Consumer k)) = [] ->
  In (firstn n (out (tasks s (Consumer k)))) (first :: seen).
Proof.
  intros I Hs Hdone.
  destruct (inv_consumer I k) as [[Hr _]|[[Hr _]|[[Hr _]|[_ H]]]];
    try (rewrite Hdone in Hr; discriminate Hr).
  exact (H Hs).
Qed.


(** The order of the copies and the callback's writes. A [getFingerprint]
    that returns true and has returned while the callback still has all
    its [getSummary] calls before it holds the fingerprint as it was before
    the callback, and its buffer is the one [getFingerprint] returns; one
    that has not locked yet when the callback has returned holds, once it
    returns, the fingerprint the callback leaves. The steps of the other
    threads may fall anywhere in between. *)
Theorem snapshot_respects_order w (m : Z) (render : option (list Z))
    (outBufs : nat -> list spec_float) status o w' ev
    (before later : list Action) (s1 s2 : System P) (k : nat) o_k w_k ev_k
    (Hlock : lock w = MxFree)
    (Hfp : len (fingerprint w) = fpLength)
    (Hcall : callback w m render = Done (status, o, w', ev))
    (Hget : getFingerprint w (outBufs k) = Done (true, o_k, w_k, ev_k))
    (Hrun1 : run_schedule before (initial w m render outBufs) = Some s1)
    (Hrun2 : run_schedule later s1 = Some s2) :
  (rest (tasks s1 (Consumer k)) = [] ->
   writes (rest (tasks s1 Producer)) = writes ev ->
   firstn (Z.to_nat fpLength) (out (tasks s1 (Consumer k))) = fingerprint w /\
   out (tasks s1 (Consumer k)) = o_k) /\
  (rest (tasks s1 Producer) = [] ->
   rest (tasks s1 (Consumer k)) = [EvLock 0; EvCopyOut; EvUnlock] ->
   rest (tasks s2 (Consumer k)) = [] ->
   firstn (Z.to_nat fpLength) (out (tasks s2 (Consumer k))) = fingerprint w').
Proof.
  destruct (@reachable w m render outBufs status o w' ev before s1
              Hlock Hfp Hcall Hrun1) as (seen & I).
  split.
  - intros Hdone Hw.
    assert (Hold : firstn n (out (tasks s1 (Consumer k))) = fingerprint w).
    { destruct (@returned_snapshot _ _ _ _ _ s1 k I) as [H|H];
        [exists o_k, w_k, ev_k; exact Hget|exact Hdone|symmetry; exact H|].
      pose proof (f_equal (@length _) (inv_versions I)) as Hlen.
      rewrite length_app, !versions_length, Hw in Hlen.
      destruct seen; [destruct H|cbn [length] in Hlen; lia]. }
    split; [exact Hold|].
    rewrite <- (firstn_skipn n (out (tasks s1 (Consumer k)))).
    rewrite Hold, (inv_tail I k).
    symmetry. exact (getFingerprint_buffer _ _ Hget Hfp).
  - intros Hp Hk Hdone.
    destruct (callback_tracked _ _ _ Hcall Hfp) as [_ Hlast].
    assert (L : late (fingerprint w') k s1).
    { unfold late. split; [exact Hp|]. split.
      - pose proof (inv_stored I) as Hw. unfold writer_state in Hw.
        pose proof (inv_versions I) as Hv.
        rewrite Hp in Hw, Hv. cbn [versions] in Hv.
        rewrite app_nil_r in Hv. rewrite Hw, Hv. exact Hlast.
      - rewrite Hk. intros H. discriminate H. }
    destruct (@late_run _ _ _ _ _ k later seen s1 s2 I L Hrun2)
      as (_ & _ & H).
    exact (H Hdone).
Qed.

End SharedCode.

(** ** Audio set-up and the route change *)

Lemma len_new_floats junk n : 0 <= n -> len (new_floats junk n) = n.
Proof.
  intros H. unfold len, new_floats. rewrite length_map, length_seq. lia.
Qed.

Lemma new_CallbackData_value h :
  new_CallbackData h =
  Done {| A := new_floats (heap_A h) (2 * specRes);
          hamm := new_floats (hamm_window h) specRes;
          acc := repeat F32.zero (Z.to_nat fpLength); accCount := 0;
          frameBuffer := new_floats (heap_frameBuffer h) fbLen_setup;
          fbIndex := 0; startIndex := 0; fbLen := fbLen_setup;
          realp := new_floats (heap_realp h) specRes;
          imagp := new_floats (heap_imagp h) specRes |}.
Proof.
  unfold new_CallbackData.
  rewrite vfill_all by (apply len_new_floats; rewrite fpLength_eq; lia).
  reflexivity.
Qed.

Lemma new_CallbackData_fresh h :
  exists d, new_CallbackData h = Done d /\ fresh_data d.
Proof.
  rewrite new_CallbackData_value. eexists. split; [reflexivity|].
  unfold fresh_data. cbn [A hamm acc accCount frameBuffer fbLen fbIndex
                            startIndex realp imagp].
  rewrite !len_new_floats
    by (rewrite ?fbLen_setup_eq; unfold specRes; lia).
  repeat split.
Qed.

Lemma fresh_data_pipeline_ok (P : Platform) (w : Fingerprinter P) d :
  fresh_data d -> len (fingerprint w) = fpLength -> pipeline_ok (set_cd w d).
Proof.
  intros (HA & Hh & Hacc & Hc & Hfb & Hl & Hi & Hs & Hre & Him) Hfp.
  unfold pipeline_ok, allocated, cursors_ok, counter_ok.
  cbn [set_cd cd fingerprint].
  rewrite Hacc, Hc, Hl, Hi, Hs, fbLen_setup_eq.
  rewrite len_repeat by (rewrite fpLength_eq; lia).
  rewrite fbLen_setup_eq in Hfb.
  unfold specRes, accumulationNum. repeat split; try assumption; lia.
Qed.

Ltac setup_case tac_status :=
  do 3 eexists; split; [reflexivity|];
  split; [tac_status|];
  split; [split; [intros Hz; first [discriminate Hz | tauto]
                 |intros K; first [reflexivity | exfalso; tauto]]|];
  split; [intros Hz; first [discriminate Hz
                           | split; [reflexivity|discriminate]]|];
  split; [split; [intros K; first [tauto | exfalso; apply K; reflexivity]
                 |intros K; first [discriminate | exfalso; tauto]]|].

(** The ways through [setupRemoteIO], for callback data of which [Q]
    holds. *)
Lemma setupRemoteIO_cases (Q : CallbackData -> Prop) r h d :
  new_CallbackData h = Done d -> Q d ->
  exists status registered ev,
    setupRemoteIO r h = Done (status, registered, ev) /\
    (status = 0 \/ status = 1) /\
    (status = 0 <-> all_succeed r) /\
    (status = 0 -> ev = [] /\ registered <> None) /\
    (registered <> None <->
     instanceNew r = 0 /\ enableIO r = 0 /\ setRenderCallback r = 0) /\
    forall d', registered = Some d' -> Q d'.
Proof.
  intros E Hd.
  unfold setupRemoteIO, all_succeed. rewrite E. cbn [bind]. clear E.
  destruct (Z.eqb_spec (instanceNew r) 0) as [H1|H1];
    [|setup_case ltac:(right; reflexivity); intros d' Hd'; discriminate Hd'].
  destruct (Z.eqb_spec (enableIO r) 0) as [H2|H2];
    [|setup_case ltac:(right; reflexivity); intros d' Hd'; discriminate Hd'].
  destruct (Z.eqb_spec (setRenderCallback r) 0) as [H3|H3];
    [|setup_case ltac:(right; reflexivity); intros d' Hd'; discriminate Hd'].
  destruct (Z.eqb_spec (setInputFormat r) 0) as [H4|H4];
    [|setup_case ltac:(right; reflexivity);
      intros d' Hd'; inversion Hd'; subst; exact Hd].
  destruct (Z.eqb_spec (setOutputFormat r) 0) as [H5|H5];
    [|setup_case ltac:(right; reflexivity);
      intros d' Hd'; inversion Hd'; subst; exact Hd].
  destruct (Z.eqb_spec (initialize r) 0) as [H6|H6];
    [|setup_case ltac:(right; reflexivity);
      intros d' Hd'; inversion Hd'; subst; exact Hd].
  setup_case ltac:(left; reflexivity).
  intros d' Hd'; inversion Hd'; subst; exact Hd.
Qed.

Lemma setupRemoteIO_outcome_aux r h :
  exists status registered ev,
    setupRemoteIO r h = Done (status, registered, ev) /\
    (status = 0 \/ status = 1) /\
    (status = 0 <-> all_succeed r) /\
    (status = 0 -> ev = [] /\ registered <> None) /\
    (registered <> None <->
     instanceNew r = 0 /\ enableIO r = 0 /\ setRenderCallback r = 0) /\
    forall d, registered = Some d -> fresh_data d.
Proof.
  destruct (new_CallbackData_fresh h) as (d & E & Hd).
  exact (setupRemoteIO_cases fresh_data r E Hd).
Qed.

(** [setupRemoteIO] returns 0 or 1, and 0 exactly when each of its six
    audio-unit calls succeeded, in which case nothing is printed; the render
    callback is registered exactly when the first three succeeded, also when
    the function goes on to fail and returns 1; and the callback data
    registered are new ones: arrays of the sizes the callback relies on, a
    zero accumulator, counter and cursors at zero, the very data a
    constructed object starts with. *)
Theorem setupRemoteIO_outcome (r : SetupReplies) (h : Heap) :
  exists status registered ev,
    setupRemoteIO r h = Done (status, registered, ev) /\
    (status = 0 \/ status = 1) /\
    (status = 0 <-> all_succeed r) /\
    (status = 0 -> ev = [] /\ registered <> None) /\
    (registered <> None <->
     instanceNew r = 0 /\ enableIO r = 0 /\ setRenderCallback r = 0) /\
    forall d, registered = Some d ->
      fresh_data d /\
      forall (P : Platform) (mutex_init_ok : bool) (sp0 : Spectrogram P),
        d = cd (Fingerprinter_new P mutex_init_ok sp0
                  (new_floats (hamm_window h) specRes)
                  (new_floats (heap_A h) (2 * specRes))
                  (new_floats (heap_frameBuffer h) fbLen_setup)
                  (new_floats (heap_realp h) specRes)
                  (new_floats (heap_imagp h) specRes)).
Proof.
  destruct (new_CallbackData_fresh h) as (d & E & Hd).
  apply (@setupRemoteIO_cases
           (fun d =>
              fresh_data d /\
              forall (P : Platform) (mutex_init_ok : bool)
                     (sp0 : Spectrogram P),
                d = cd (Fingerprinter_new P mutex_init_ok sp0
                          (new_floats (hamm_window h) specRes)
                          (new_floats (heap_A h) (2 * specRes))
                          (new_floats (heap_frameBuffer h) fbLen_setup)
                          (new_floats (heap_realp h) specRes)
                          (new_floats (heap_imagp h) specRes)))
           r h d E).
  split; [exact Hd|]. intros P ok sp0.
  rewrite new_CallbackData_value in E. apply Done_inj in E. subst d.
  reflexivity.
Qed.

Section ListenerFacts.
Variable P : Platform.
Implicit Types w : Fingerprinter P.

(** [propListener] returns whatever the audio calls answer (every
    exception is caught), and never touches the running flag, the stored
    fingerprint, the history or the mutex. For a property other than the
    route change, or when the old unit cannot be disposed of, the object is
    as it was. Otherwise the old unit is gone: if the new unit got its
    render callback, the callback data are new ones - the samples buffered
    and the spectra summed so far are dropped - and the object is in order
    for the callbacks to come; if not, no callback is registered and the
    object is as it was. *)
Theorem propListener_keeps_history w (route_change : bool) r h :
  exists w' rc ev,
    propListener w route_change r h = Done (w', rc, ev) /\
    unitIsRunning w' = unitIsRunning w /\
    fingerprint w' = fingerprint w /\
    spectrogram w' = spectrogram w /\
    lock w' = lock w /\
    match rc with
    | Kept => w' = w /\ (route_change = false \/ dispose r <> 0)
    | Replaced =>
        route_change = true /\ dispose r = 0 /\
        fresh_data (cd w') /\
        (len (fingerprint w) = fpLength -> pipeline_ok w')
    | Removed => route_change = true /\ dispose r = 0 /\ w' = w
    end.
Proof.
  unfold propListener. destruct route_change.
  2:{ do 3 eexists. split; [reflexivity|]. repeat split. left. reflexivity. }
  destruct (Z.eqb_spec (dispose r) 0) as [Hd|Hd].
  2:{ do 3 eexists. split; [reflexivity|]. repeat split. right. exact Hd. }
  destruct (setupRemoteIO_outcome_aux (setup r) h)
    as (st & reg & ev1 & E & _ & _ & _ & _ & Hfresh).
  rewrite E. cbn [bind].
  assert (Hres :
    unitIsRunning (match reg with Some d => set_cd w d | None => w end)
      = unitIsRunning w /\
    fingerprint (match reg with Some d => set_cd w d | None => w end)
      = fingerprint w /\
    spectrogram (match reg with Some d => set_cd w d | None => w end)
      = spectrogram w /\
    lock (match reg with Some d => set_cd w d | None => w end) = lock w /\
    match (match reg with Some _ => Replaced | None => Removed end) with
    | Kept => False
    | Replaced =>
        true = true /\ dispose r = 0 /\
        fresh_data (cd (match reg with Some d => set_cd w d | None => w end)) /\
        (len (fingerprint w) = fpLength ->
         pipeline_ok (match reg with Some d => set_cd w d | None => w end))
    | Removed =>
        true = true /\ dispose r = 0 /\
        match reg with Some d => set_cd w d | None => w end = w
    end).
  { destruct reg as [d|].
    - pose proof (Hfresh d eq_refl) as Hf.
      cbn [set_cd unitIsRunning fingerprint spectrogram lock cd].
      do 4 (split; [reflexivity|]).
      split; [reflexivity|]. split; [exact Hd|]. split; [exact Hf|].
      intros Hfp. apply fresh_data_pipeline_ok; assumption.
    - do 4 (split; [reflexivity|]).
      split; [reflexivity|]. split; [exact Hd|reflexivity]. }
  destruct Hres as (R1 & R2 & R3 & R4 & R5).
  destruct (getSampleRate r =? 0);
    [destruct (startUnit r =? 0); [destruct (getRoute r =? 0)|]|];
    do 3 eexists; (split; [reflexivity|]);
    (split; [exact R1|]); (split; [exact R2|]); (split; [exact R3|]);
    (split; [exact R4|]);
    destruct reg; exact R5.
Qed.

End ListenerFacts.


(** ** The evaluation platform meets the platform conditions *)

Lemma butterflies_length stages : forall l,
  length l = (2 ^ stages)%nat -> length (Eval.butterflies stages l) = length l.
Proof.
  induction stages as [|stages IH]; intros l Hl; [reflexivity|].
  cbn [Eval.butterflies].
  assert (Hh : (length l / 2 = 2 ^ stages)%nat).
  { rewrite Hl, Nat.pow_succ_r', Nat.mul_comm. apply Nat.div_mul. lia. }
  rewrite Hh.
  assert (Ha : length (firstn (2 ^ stages) l) = (2 ^ stages)%nat).
  { rewrite length_firstn, Hl, Nat.pow_succ_r'. lia. }
  assert (Hb : length (skipn (2 ^ stages) l) = (2 ^ stages)%nat).
  { rewrite length_skipn, Hl, Nat.pow_succ_r'. lia. }
  rewrite length_app, !zip_with_length; rewrite ?IH; try lia.
  rewrite Ha, Hl, Nat.pow_succ_r'. lia.
Qed.

Lemma transform_length l log2n : length (Eval.transform l log2n) = length l.
Proof.
  unfold Eval.transform. destruct (len l =? 2 ^ log2n) eqn:E; [|reflexivity].
  apply Z.eqb_eq in E.
  destruct (Z.le_gt_cases 0 log2n) as [Hpos|Hneg].
  - apply butterflies_length.
    apply Nat2Z.inj. unfold len in E. rewrite E.
    rewrite <- (Z2Nat.id log2n) at 1 by exact Hpos.
    rewrite Nat2Z.inj_pow. reflexivity.
  - destruct log2n; try lia. reflexivity.
Qed.

Lemma eval_platform_ok : platform_ok Eval.platform.
Proof.
  split.
  - intros re im n. simpl. split; apply transform_length.
  - intros sp. simpl. unfold Eval.hist_summary, Eval.bins, len.
    rewrite length_map, length_seq. rewrite fpLength_eq. reflexivity.
Qed.

(** ** Witnesses

    Each theorem above that has hypotheses, applied to a concrete object
    of the evaluation platform. *)

Lemma accumulate_emits_dB_of_average_witness :
  exists w' ev,
    accumulate Eval.cycle_end = Done (Next w', ev) /\
    ev = lock_events (fst (pthread_mutex_lock (lock Eval.cycle_end)))
           ++ [EvUpdate (map (dB_of_average Eval.platform) (acc (cd Eval.cycle_end)));
               EvGetSummary; EvUnlock] /\
    spectrogram w' =
      update Eval.platform (spectrogram Eval.cycle_end)
        (map (dB_of_average Eval.platform) (acc (cd Eval.cycle_end))) /\
    fingerprint w' = getSummary Eval.platform (spectrogram w') /\
    acc (cd w') = repeat F32.zero (Z.to_nat fpLength) /\
    accCount (cd w') = 0.
Proof.
  apply (@accumulate_emits_dB_of_average Eval.platform Eval.cycle_end).
  - vm_compute. reflexivity.
  - vm_compute. reflexivity.
  - apply (proj2 eval_platform_ok).
  - vm_compute. split; [discriminate|reflexivity].
  - vm_compute. reflexivity.
Defined.

Lemma callback_releases_lock_witness :
  exists status out w' ev,
    callback Eval.cycle_end 1024 (Some (Eval.ramp 0 1024))
      = Done (status, out, w', ev) /\
    lock w' = lock Eval.cycle_end /\
    (lock Eval.cycle_end = MxFree ->
     discipline false ev = Some false /\
     pthread_mutex_lock (lock w') = (0, MxHeld)).
Proof.
  pose (r := callback Eval.cycle_end 1024 (Some (Eval.ramp 0 1024))).
  assert (E : callback Eval.cycle_end 1024 (Some (Eval.ramp 0 1024)) = r)
    by reflexivity.
  assert (Hr : match r with Done _ => True | _ => False end)
    by (vm_compute; exact I).
  clearbody r. rewrite E.
  destruct r as [[[[status out] w'] ev]| |]; try contradiction.
  exists status, out, w', ev. split; [reflexivity|].
  apply (@callback_releases_lock Eval.platform Eval.cycle_end 1024
           (Some (Eval.ramp 0 1024)) status out w' ev).
  - discriminate.
  - exact E.
Defined.

Ltac evaluate_to_done t r E :=
  pose (r := t);
  assert (E : t = r) by reflexivity;
  assert (match r with Done _ => True | _ => False end)
    by (vm_compute; exact I);
  clearbody r.

Lemma getFingerprint_gated_by_running_flag_witness :
  exists obs w',
    run Eval.fresh 0
      [CallGetFingerprint (Eval.zeros fpLength);
       CallAudio 1024 (Some (Eval.ramp 0 1024));
       CallStop 0;
       CallGetFingerprint (Eval.zeros fpLength)] = Done (obs, w') /\
    forallb get_failed obs = true /\
    observations
      (run Eval.fresh 0
         [CallStart Eval.au_running; CallGetFingerprint (Eval.zeros fpLength)]) =
    Done [ObsStart (Returns true);
          ObsGet true (repeat F32.zero (Z.to_nat fpLength)
                         ++ skipn (Z.to_nat fpLength) (Eval.zeros fpLength)) 0].
Proof.
  evaluate_to_done
    (run Eval.fresh 0
       [CallGetFingerprint (Eval.zeros fpLength);
        CallAudio 1024 (Some (Eval.ramp 0 1024));
        CallStop 0;
        CallGetFingerprint (Eval.zeros fpLength)]) r E.
  rewrite E. destruct r as [[obs w']| |]; try contradiction.
  exists obs, w'. split; [reflexivity|].
  apply (@getFingerprint_gated_by_running_flag Eval.platform true []
           (repeat F32.one (Z.to_nat specRes)) (Eval.zeros (2 * specRes))
           (Eval.zeros fbLen_setup) (Eval.zeros specRes) (Eval.zeros specRes)
           [CallGetFingerprint (Eval.zeros fpLength);
            CallAudio 1024 (Some (Eval.ramp 0 1024));
            CallStop 0;
            CallGetFingerprint (Eval.zeros fpLength)]
           obs w' Eval.au_running (Eval.zeros fpLength)).
  - reflexivity.
  - exact E.
  - repeat split; discriminate.
  - vm_compute. discriminate.
Defined.

Ltac decide_Z :=
  vm_compute;
  first [ reflexivity | discriminate
        | let H := fresh in intro H; discriminate H ].

Lemma eval_fresh_allocated : allocated Eval.fresh.
Proof. repeat split; vm_compute; reflexivity. Qed.

Lemma eval_primed_allocated : allocated Eval.primed.
Proof. repeat split; vm_compute; reflexivity. Qed.

Lemma callback_returns_witness :
  exists status out w' ev,
    callback Eval.fresh 1024 (Some (Eval.ramp 0 1024))
      = Done (status, Some out, w', ev) /\
    allocated w' /\
    (nan_reported ev \/ cursors_ok (cd w')).
Proof.
  apply (@callback_returns Eval.platform eval_platform_ok Eval.fresh 1024
           (Eval.ramp 0 1024)).
  - exact eval_fresh_allocated.
  - repeat split; decide_Z.
  - split; decide_Z.
  - decide_Z.
Defined.

Lemma callback_never_times_out_witness :
  int_range (startIndex (cd Eval.fresh)) /\
  callback Eval.fresh 1024 (Some (Eval.ramp 0 1024)) <> Timeout.
Proof.
  assert (H : int_range (startIndex (cd Eval.fresh))) by (split; decide_Z).
  split; [exact H|].
  exact (@callback_never_times_out Eval.platform Eval.fresh 1024
           (Some (Eval.ramp 0 1024)) H).
Defined.

Lemma make_room_copies_front_over_back_witness :
  make_room Eval.nearly_full 1024 =
  Done {| A := A Eval.nearly_full; hamm := hamm Eval.nearly_full;
          acc := acc Eval.nearly_full; accCount := accCount Eval.nearly_full;
          frameBuffer :=
            firstn (Z.to_nat (fbLen Eval.nearly_full / 2))
                   (frameBuffer Eval.nearly_full)
              ++ firstn (Z.to_nat (fbLen Eval.nearly_full / 2))
                        (frameBuffer Eval.nearly_full);
          fbIndex := fbIndex Eval.nearly_full - fbLen Eval.nearly_full / 2;
          startIndex := startIndex Eval.nearly_full - fbLen Eval.nearly_full / 2;
          fbLen := fbLen Eval.nearly_full;
          realp := realp Eval.nearly_full; imagp := imagp Eval.nearly_full |}.
Proof.
  apply (@make_room_copies_front_over_back Eval.nearly_full 1024).
  - unfold Eval.nearly_full, Eval.ramp, len. cbn [frameBuffer fbLen].
    rewrite !length_map, length_seq. rewrite fbLen_setup_eq. reflexivity.
  - reflexivity.
  - unfold specRes. lia.
  - unfold Eval.nearly_full. cbn [fbLen fbIndex].
    rewrite fbLen_setup_eq. lia.
  - unfold Eval.nearly_full. cbn [startIndex fbIndex]. lia.
Defined.

Lemma accumulate_nan_return_witness :
  exists w',
    accumulate Eval.cycle_end_nan =
      Done (Return 0 w',
            lock_events (fst (pthread_mutex_lock (lock Eval.cycle_end_nan)))
              ++ [EvStdout "spectrum is NaN"%string; EvUnlock]) /\
    accCount (cd w') = accCount (cd Eval.cycle_end_nan) + 1 /\
    acc (cd w') =
      map (dB_of_average Eval.platform) (acc (cd Eval.cycle_end_nan)) /\
    spectrogram w' = spectrogram Eval.cycle_end_nan /\
    fingerprint w' = fingerprint Eval.cycle_end_nan.
Proof.
  apply (@accumulate_nan_return Eval.platform Eval.cycle_end_nan).
  - vm_compute. reflexivity.
  - vm_compute. reflexivity.
  - apply (proj2 eval_platform_ok).
  - split; decide_Z.
  - vm_compute. reflexivity.
Defined.

Lemma analysis_loop_ok_witness :
  exists status w' ev,
    analysis_loop (loop_budget (cd Eval.primed)) Eval.primed
      = Done (status, w', ev) /\
    allocated w' /\
    fbIndex (cd w') = fbIndex (cd Eval.primed) /\
    (nan_reported ev \/
     (windows_of ev =
        window_starts (loop_budget (cd Eval.primed))
          (startIndex (cd Eval.primed))
          (fbIndex (cd Eval.primed) - windowFrames) /\
      startIndex (cd w') =
        startIndex (cd Eval.primed) + stepSize * len (windows_of ev) /\
      fbIndex (cd w') - windowFrames < startIndex (cd w') <= fbIndex (cd w'))).
Proof.
  apply (@analysis_loop_ok Eval.platform eval_platform_ok
           (loop_budget (cd Eval.primed)) Eval.primed).
  - exact eval_primed_allocated.
  - split; decide_Z.
  - split; decide_Z.
  - decide_Z.
Defined.

(** [getFingerprint] on an idle and on a running object, and
    [startRecording] with a unit that runs and with one that does not. *)
Example members_on_a_fresh_object :
  observations
    (run Eval.fresh 0
       [CallGetFingerprint Eval.new_fp;
        CallStart Eval.au_not_running;
        CallGetFingerprint Eval.new_fp;
        CallStart Eval.au_running;
        CallGetFingerprint Eval.new_fp;
        CallStart Eval.au_not_running;
        CallStop 0;
        CallStop 0;
        CallGetFingerprint Eval.new_fp]) =
  Done [ObsGet false Eval.new_fp 0;
        ObsStart (Returns false);
        ObsGet false Eval.new_fp 0;
        ObsStart (Returns true);
        ObsGet true Eval.old_fp 0;
        ObsStart (Returns true);
        ObsStop (Returns false);
        ObsStop (Returns false);
        ObsGet false Eval.new_fp 0].
Proof. vm_compute. reflexivity. Qed.

Lemma eval_fresh_pipeline_ok : pipeline_ok Eval.fresh.
Proof.
  split; [exact eval_fresh_allocated|].
  split; [repeat split; decide_Z|split; decide_Z].
Qed.

Lemma eval_ramps_small :
  Forall (fun data => len data <= specRes) (Eval.ramps 2).
Proof. repeat constructor; decide_Z. Qed.

Lemma is_nan_report_sound ev :
  existsb is_nan_report ev = true -> nan_reported ev.
Proof.
  intros H. apply existsb_exists in H. destruct H as (e & Hin & He).
  destruct e; try discriminate He. cbn [is_nan_report] in He.
  apply String.eqb_eq in He. subst msg. exact Hin.
Qed.

Lemma callback_status_and_output_witness :
  exists status out w' ev,
    callback Eval.fresh 1024 (Some (Eval.ramp 0 1024))
      = Done (status, out, w', ev) /\
    status = 0 /\ 0 <= 1024 <= len (Eval.ramp 0 1024) /\
    out = Some (repeat 0 (Z.to_nat 1024)
                  ++ skipn (Z.to_nat 1024) (Eval.ramp 0 1024)).
Proof.
  evaluate_to_done (callback Eval.fresh 1024 (Some (Eval.ramp 0 1024))) r E.
  rewrite E. destruct r as [[[[status out] w'] ev]| |]; try contradiction.
  exists status, out, w', ev. split; [reflexivity|].
  exact (@callback_status_and_output Eval.platform Eval.fresh 1024
           (Some (Eval.ramp 0 1024)) status out w' ev E).
Defined.

Lemma callback_publishes_summary_witness :
  exists status out w' ev,
    callback Eval.cycle_end 1024 (Some (Eval.ramp 0 1024))
      = Done (status, out, w', ev) /\
    published Eval.cycle_end ev w' /\
    (Some (Eval.ramp 0 1024) = None -> spectra_of ev = []) /\
    (fbIndex (cd w') < windowFrames -> spectra_of ev = []) /\
    (nan_reported ev ->
     exists ev0 start rc,
       ev = ev0 ++ EvWindow start :: lock_events rc
                ++ [EvStdout "spectrum is NaN"%string; EvUnlock] /\
       ~ nan_reported ev0 /\
       spectra_of ev = spectra_of ev0) /\
    (pipeline_ok Eval.cycle_end -> 0 <= 1024 <= specRes -> nan_reported ev ->
     spectra_of ev = []).
Proof.
  evaluate_to_done
    (callback Eval.cycle_end 1024 (Some (Eval.ramp 0 1024))) r E.
  rewrite E. destruct r as [[[[status out] w'] ev]| |]; try contradiction.
  exists status, out, w', ev. split; [reflexivity|].
  apply (@callback_publishes_summary Eval.platform eval_platform_ok
           Eval.cycle_end 1024 (Some (Eval.ramp 0 1024)) status out w' ev E).
  vm_compute. reflexivity.
Defined.

Lemma callback_bounded_work_witness :
  exists out w' ev,
    callback Eval.fresh 1024 (Some (Eval.ramp 0 1024))
      = Done (0, Some out, w', ev) /\
    allocated w' /\
    (nan_reported ev \/
     (pipeline_ok w' /\
      (length (windows_of ev) <= 3)%nat /\
      (count_updates ev <= 1)%nat /\
      accCount (cd w') + accumulationNum * Z.of_nat (count_updates ev)
        = accCount (cd Eval.fresh) + len (windows_of ev))).
Proof.
  apply (@callback_bounded_work Eval.platform eval_platform_ok Eval.fresh 1024
           (Eval.ramp 0 1024)).
  - exact eval_fresh_pipeline_ok.
  - split; decide_Z.
  - decide_Z.
Defined.

Lemma feed_keeps_pipeline_in_order_witness :
  (exists w' ev,
     feed Eval.fresh (Eval.ramps 2) = Done (w', ev) /\
     pipeline_ok w' /\
     Z.of_nat (count_updates ev)
       = (accCount (cd Eval.fresh) + len (windows_of ev)) / accumulationNum /\
     accCount (cd w')
       = (accCount (cd Eval.fresh) + len (windows_of ev)) mod accumulationNum) \/
  (exists k w' ev,
     feed Eval.fresh (firstn k (Eval.ramps 2)) = Done (w', ev) /\
     nan_reported ev).
Proof.
  exact (@feed_keeps_pipeline_in_order Eval.platform eval_platform_ok
           Eval.fresh (Eval.ramps 2) eval_fresh_pipeline_ok eval_ramps_small).
Defined.

Lemma feed_assembles_stream_witness :
  (exists w' ev,
     feed Eval.fresh (Eval.ramps 2) = Done (w', ev) /\
     pipeline_ok w' /\
     fbIndex (cd w') = fbIndex (cd Eval.fresh) + len (concat (Eval.ramps 2)) /\
     buffered (cd w') =
       buffered (cd Eval.fresh) ++ map F32.of_Z (concat (Eval.ramps 2)) /\
     windows_of ev =
       eligible_windows (startIndex (cd Eval.fresh))
         (fbIndex (cd w') - windowFrames) /\
     len (windows_of ev) =
       Z.max 0 ((fbIndex (cd w') - windowFrames - startIndex (cd Eval.fresh))
                  / stepSize + 1) /\
     startIndex (cd w') =
       startIndex (cd Eval.fresh) + stepSize * len (windows_of ev)) \/
  (exists k w' ev,
     feed Eval.fresh (firstn k (Eval.ramps 2)) = Done (w', ev) /\
     nan_reported ev).
Proof.
  apply (@feed_assembles_stream Eval.platform eval_platform_ok
           Eval.fresh (Eval.ramps 2) eval_fresh_pipeline_ok eval_ramps_small).
  decide_Z.
Defined.

Lemma analyze_window_adds_autospectrum_witness :
  analyze_window Eval.platform (cd Eval.fresh) =
  Done {| A := autospectrum Eval.platform (cd Eval.fresh)
                 ++ skipn (Z.to_nat specRes) (A (cd Eval.fresh));
          hamm := hamm (cd Eval.fresh);
          acc := zip_with F32.add
                   (firstn (Z.to_nat fpLength)
                      (autospectrum Eval.platform (cd Eval.fresh)))
                   (acc (cd Eval.fresh));
          accCount := accCount (cd Eval.fresh);
          frameBuffer := frameBuffer (cd Eval.fresh);
          fbIndex := fbIndex (cd Eval.fresh);
          startIndex := startIndex (cd Eval.fresh);
          fbLen := fbLen (cd Eval.fresh);
          realp := fst (transformed Eval.platform (cd Eval.fresh));
          imagp := snd (transformed Eval.platform (cd Eval.fresh)) |}.
Proof.
  apply (@analyze_window_adds_autospectrum Eval.platform
           eval_platform_ok (cd Eval.fresh)); decide_Z.
Defined.

Lemma window_step_accumulates_or_emits_witness :
  let sum := zip_with F32.add
               (firstn (Z.to_nat fpLength)
                  (autospectrum Eval.platform (cd Eval.cycle_end)))
               (acc (cd Eval.cycle_end)) in
  let spectrum := map (dB_of_average Eval.platform) sum in
  exists w' ev,
    window_step Eval.cycle_end =
      Done (if (accumulationNum <=? accCount (cd Eval.cycle_end) + 1)
               && nan_test (hd S754_nan spectrum)
            then Return 0 w' else Next w', ev) /\
    windows_of ev = [startIndex (cd Eval.cycle_end)] /\
    (accCount (cd Eval.cycle_end) + 1 < accumulationNum ->
     spectra_of ev = [] /\
     acc (cd w') = sum /\
     accCount (cd w') = accCount (cd Eval.cycle_end) + 1 /\
     fingerprint w' = fingerprint Eval.cycle_end /\
     spectrogram w' = spectrogram Eval.cycle_end) /\
    (accCount (cd Eval.cycle_end) + 1 = accumulationNum ->
     nan_test (hd S754_nan spectrum) = true ->
     spectra_of ev = [] /\ nan_reported ev /\
     acc (cd w') = spectrum /\ accCount (cd w') = accumulationNum /\
     fingerprint w' = fingerprint Eval.cycle_end /\
     spectrogram w' = spectrogram Eval.cycle_end) /\
    (accCount (cd Eval.cycle_end) + 1 = accumulationNum ->
     nan_test (hd S754_nan spectrum) = false ->
     spectra_of ev = [spectrum] /\
     spectrogram w' =
       update Eval.platform (spectrogram Eval.cycle_end) spectrum /\
     fingerprint w' = getSummary Eval.platform (spectrogram w') /\
     acc (cd w') = repeat F32.zero (Z.to_nat fpLength) /\
     accCount (cd w') = 0).
Proof.
  apply (@window_step_accumulates_or_emits Eval.platform eval_platform_ok
           Eval.cycle_end).
  - repeat split; vm_compute; reflexivity.
  - split; decide_Z.
  - decide_Z.
  - decide_Z.
Defined.

Lemma history_fingerprint_is_zeros_or_summary_witness :
  exists obs w',
    run Eval.fresh 0 Eval.session = Done (obs, w') /\
    initial_or_summary w' /\ zeros_or_a_summary Eval.platform obs.
Proof.
  evaluate_to_done (run Eval.fresh 0 Eval.session) r E.
  rewrite E. destruct r as [[obs w']| |]; try contradiction.
  exists obs, w'. split; [reflexivity|].
  exact (@history_fingerprint_is_zeros_or_summary Eval.platform
           (proj2 eval_platform_ok) true []
           (repeat F32.one (Z.to_nat specRes)) (Eval.zeros (2 * specRes))
           (Eval.zeros fbLen_setup) (Eval.zeros specRes) (Eval.zeros specRes)
           Eval.session 0%nat obs w' E).
Defined.

Lemma history_leaves_mutex_free_witness :
  exists obs w',
    run Eval.fresh 0 Eval.session = Done (obs, w') /\
    lock w' = MxFree /\ pthread_mutex_lock (lock w') = (0, MxHeld).
Proof.
  evaluate_to_done (run Eval.fresh 0 Eval.session) r E.
  rewrite E. destruct r as [[obs w']| |]; try contradiction.
  exists obs, w'. split; [reflexivity|].
  destruct (@history_leaves_mutex_free Eval.platform true []
              (repeat F32.one (Z.to_nat specRes)) (Eval.zeros (2 * specRes))
              (Eval.zeros fbLen_setup) (Eval.zeros specRes)
              (Eval.zeros specRes) Eval.session 0%nat obs w' E) as [H1 H2].
  split; [exact H1|exact (H2 eq_refl)].
Defined.

Lemma nan_report_ends_publication_witness :
  exists status out w1 ev1 w2 ev2,
    callback Eval.cycle_end_nan 1024 (Some (Eval.ramp 0 1024))
      = Done (status, out, w1, ev1) /\
    nan_reported ev1 /\
    feed w1 (Eval.ramps 1) = Done (w2, ev2) /\
    count_updates ev2 = 0%nat /\
    fingerprint w2 = fingerprint w1 /\ spectrogram w2 = spectrogram w1.
Proof.
  pose (r := callback Eval.cycle_end_nan 1024 (Some (Eval.ramp 0 1024))).
  assert (E : callback Eval.cycle_end_nan 1024 (Some (Eval.ramp 0 1024)) = r)
    by reflexivity.
  assert (Hr : match r with
               | Done (_, _, w1, ev1) =>
                   existsb is_nan_report ev1 = true /\
                   match feed w1 (Eval.ramps 1) with
                   | Done _ => True
                   | _ => False
                   end
               | _ => False
               end) by (vm_compute; split; [reflexivity|exact I]).
  clearbody r. rewrite E.
  destruct r as [[[[status out] w1] ev1]| |]; try contradiction.
  destruct Hr as [Hnan Hfeed]. apply is_nan_report_sound in Hnan.
  destruct (feed w1 (Eval.ramps 1)) as [[w2 ev2]| |] eqn:E2;
    try contradiction.
  exists status, out, w1, ev1, w2, ev2.
  split; [reflexivity|]. split; [exact Hnan|]. split; [exact E2|].
  apply (@nan_report_ends_publication Eval.platform eq_refl Eval.cycle_end_nan
           1024 (Some (Eval.ramp 0 1024)) status out w1 ev1
           (Eval.ramps 1) w2 ev2).
  - split; decide_Z.
  - exact E.
  - exact Hnan.
  - exact E2.
  - decide_Z.
Defined.

Lemma shift_with_stale_start_reads_before_buffer_witness :
  exists w ev,
    feed Eval.fresh_dirty (Eval.ramps 21) = Done (w, ev) /\
    nan_reported ev /\
    callback w 1024 (Some (Eval.ramp 21504 1024)) = Fault.
Proof.
  pose (r := feed Eval.fresh_dirty (Eval.ramps 21)).
  assert (E : feed Eval.fresh_dirty (Eval.ramps 21) = r) by reflexivity.
  assert (Hr : match r with
               | Done (w, ev) =>
                   existsb is_nan_report ev = true /\
                   Eval.full_with_stale_start w = true
               | _ => False
               end) by (vm_compute; split; reflexivity).
  clearbody r. rewrite E. destruct r as [[w ev]| |]; try contradiction.
  destruct Hr as [Hnan Hw]. apply is_nan_report_sound in Hnan.
  exists w, ev. split; [reflexivity|]. split; [exact Hnan|].
  unfold Eval.full_with_stale_start in Hw.
  repeat (apply andb_true_iff in Hw; let H := fresh "C" in destruct Hw as [Hw H]).
  apply Z.eqb_eq in Hw.
  apply Z.eqb_eq in C9, C8, C7, C6, C5, C4, C3.
  apply Z.leb_le in C2, C1, C0. apply Z.ltb_lt in C.
  apply (@shift_with_stale_start_reads_before_buffer Eval.platform w 1024
           (Eval.ramp 21504 1024)).
  - repeat split; assumption.
  - unfold specRes. lia.
  - decide_Z.
  - split; assumption.
  - split; assumption.
Defined.


Lemma snapshot_respects_order_witness :
  exists s1 s2 status o w' ev o_k w_k ev_k,
    callback Eval.live 1024 (Some (Eval.ramp 0 1024))
      = Done (status, o, w', ev) /\
    getFingerprint Eval.live (Eval.callers 1%nat)
      = Done (true, o_k, w_k, ev_k) /\
    Shared.run_schedule Eval.schedule_before
      (Shared.initial Eval.live 1024 (Some (Eval.ramp 0 1024)) Eval.callers)
      = Some s1 /\
    Shared.run_schedule Eval.schedule_after s1 = Some s2 /\
    (Shared.rest (Shared.tasks s1 (Shared.Consumer 1)) = [] ->
     Shared.writes (Shared.rest (Shared.tasks s1 Shared.Producer))
       = Shared.writes ev ->
     firstn (Z.to_nat fpLength)
       (Shared.out (Shared.tasks s1 (Shared.Consumer 1)))
       = fingerprint Eval.live /\
     Shared.out (Shared.tasks s1 (Shared.Consumer 1)) = o_k) /\
    (Shared.rest (Shared.tasks s1 Shared.Producer) = [] ->
     Shared.rest (Shared.tasks s1 (Shared.Consumer 1))
       = [EvLock 0; EvCopyOut; EvUnlock] ->
     Shared.rest (Shared.tasks s2 (Shared.Consumer 1)) = [] ->
     firstn (Z.to_nat fpLength)
       (Shared.out (Shared.tasks s2 (Shared.Consumer 1)))
       = fingerprint w').
Proof.
  evaluate_to_done
    (callback Eval.live 1024 (Some (Eval.ramp 0 1024))) r E.
  destruct r as [[[[status o] w'] ev]| |]; try contradiction.
  pose (g := getFingerprint Eval.live (Eval.callers 1%nat)).
  assert (Eg : getFingerprint Eval.live (Eval.callers 1%nat) = g)
    by reflexivity.
  assert (Hg : match g with
               | Done (true, _, _, _) => True
               | _ => False
               end) by (vm_compute; exact I).
  clearbody g.
  destruct g as [[[[[|] o_k] w_k] ev_k]| |]; try contradiction.
  pose (r1 := Shared.run_schedule Eval.schedule_before
                (Shared.initial Eval.live 1024 (Some (Eval.ramp 0 1024))
                   Eval.callers)).
  assert (E1 : Shared.run_schedule Eval.schedule_before
                 (Shared.initial Eval.live 1024 (Some (Eval.ramp 0 1024))
                    Eval.callers) = r1) by reflexivity.
  assert (H1 : match r1 with
               | Some s1 =>
                   match Shared.run_schedule Eval.schedule_after s1 with
                   | Some _ => True
                   | None => False
                   end
               | None => False
               end) by (vm_compute; exact I).
  clearbody r1. destruct r1 as [s1|]; [|contradiction].
  destruct (Shared.run_schedule Eval.schedule_after s1) as [s2|] eqn:E2;
    [|contradiction].
  exists s1, s2, status, o, w', ev, o_k, w_k, ev_k.
  split; [exact E|]. split; [exact Eg|]. split; [exact E1|].
  split; [exact E2|].
  apply (@snapshot_respects_order Eval.platform eval_platform_ok Eval.live
           1024 (Some (Eval.ramp 0 1024)) Eval.callers status o w' ev
           Eval.schedule_before Eval.schedule_after s1 s2 1%nat
           o_k w_k ev_k).
  - vm_compute. reflexivity.
  - vm_compute. reflexivity.
  - exact E.
  - exact Eg.
  - exact E1.
  - exact E2.
Defined.

(** ** The code run on concrete inputs *)

(** C3 (the gate on completed cycles is missing; line 396 has it as a
    TODO): on a fresh object, [startRecording] (the unit reporting that it
    runs) followed at once by [getFingerprint] returns success although no
    audio callback has run, let alone a cycle of [accumulationNum] windows;
    the caller receives the zeros of the constructor. *)
Theorem snapshot_succeeds_before_any_cycle :
  observations
    (run Eval.fresh 0
       [CallStart Eval.au_running; CallGetFingerprint (Eval.zeros fpLength)]) =
  Done [ObsStart (Returns true); ObsGet true (Eval.zeros fpLength) 0] /\
  ~ snapshot_needs_cycle
      [ObsStart (Returns true); ObsGet true (Eval.zeros fpLength) 0].
Proof.
  split.
  - vm_compute. reflexivity.
  - intros H. specialize (H _ _ (or_intror (or_introl eq_refl))). lia.
Qed.

(** C1 (the code copies the wrong way): a fresh object is fed 22 buffers
    of 1024 samples, sample number [k] of the stream having the value [k].
    The 22nd callback finds [fbIndex = 21504 >= 22050 - 1024] and makes room.
    The window analysed last before that started at 20286, so the samples
    from 20727 on were still to be analysed; the next windows start at
    [9702 = 20727 - 11025] and 10143, but the buffer there still holds the
    samples 9702 to 10478 of the stream, already analysed, followed by the
    new samples from 21504 on. *)
Theorem full_buffer_shift_keeps_stale_samples :
  Eval.probe 3 [9702; 10478; 10479] (feed Eval.fresh (Eval.ramps 22)) =
  Some (11503, 10584, [20286; 9702; 10143],
        [F32.of_Z 9702; F32.of_Z 10478; F32.of_Z 21504]).
Proof. vm_compute. reflexivity. Qed.

(** C2 (the code does not reset): a fresh object whose uninitialised scratch
    memory holds one not-a-number pattern is fed five buffers of 1024
    samples. The tenth window ends the first cycle on the early return of
    line 163: the counter stays at 10 and the accumulator keeps a
    not-a-number, neither is reset. A sixth buffer takes the counter to 11. *)
Theorem nan_return_keeps_counter_and_sum :
  Eval.digest (feed Eval.fresh_dirty (Eval.ramps 5)) =
    Some (5120, 3969, 10, S754_nan,
          [0; 441; 882; 1323; 1764; 2205; 2646; 3087; 3528; 3969], MxFree) /\
  Eval.digest (feed Eval.fresh_dirty (Eval.ramps 6)) =
    Some (6144, 3969, 11, S754_nan,
          [0; 441; 882; 1323; 1764; 2205; 2646; 3087; 3528; 3969; 3969],
          MxFree).
Proof. split; vm_compute; reflexivity. Qed.

(** C8 (the early return cuts the loop short): in the run above the sixth
    callback enters the loop with [startIndex = 3969] and [fbIndex = 6144];
    the windows at 3969, 4410 and 4851 satisfy the loop condition, but the
    callback analyses the one at 3969 and no other, and [startIndex] is
    still 3969 when it returns. *)
Theorem nan_return_skips_eligible_windows :
  Eval.probe 10 [] (feed Eval.fresh_dirty (Eval.ramps 5)) =
    Some (5120, 3969,
          [0; 441; 882; 1323; 1764; 2205; 2646; 3087; 3528; 3969], []) /\
  Eval.probe 11 [] (feed Eval.fresh_dirty (Eval.ramps 6)) =
    Some (6144, 3969,
          [0; 441; 882; 1323; 1764; 2205; 2646; 3087; 3528; 3969; 3969], []) /\
  window_starts 4 3969 (6144 - windowFrames) = [3969; 4410; 4851].
Proof. repeat split; vm_compute; reflexivity. Qed.

(** C5 (the conversion uses the amplitude factor): a cycle ends with a sum
    of 160 in every bin. The average is 16, whose logarithm to base 10 the
    platform gives as 1.20412. The comment of line 157 and the claim have
    the power convention, [10 * log10(16) = 12.0412]; the flag passed is
    [1], for which [vDSP_vdbcon] applies the factor 20, and what the history
    receives is [24.0824] in every bin. The sum and the counter are reset
    as claimed. *)
Theorem cycle_end_emits_amplitude_dB :
  Eval.emission (accumulate Eval.cycle_end) =
    Some (true,
          [repeat (S754_finite false 12626114 (-19)) (Z.to_nat fpLength)],
          repeat F32.zero (Z.to_nat fpLength), 0) /\
  map (power_dB_of_average Eval.platform) (acc (cd Eval.cycle_end)) =
    repeat (S754_finite false 12626114 (-20)) (Z.to_nat fpLength) /\
  Eval.coarse_log10 (F32.of_Z 16) = S754_finite false 10100891 (-23).
Proof. repeat split; vm_compute; reflexivity. Qed.

(** The schedules of the witnesses, looked at: caller 0, which returned
    before the callback took the mutex, holds the zeros stored before, and
    caller 1, which locked after the callback's unlock, holds the summary
    the callback wrote. *)
Lemma callers_before_and_after :
  Eval.glimpse 0
    (Shared.run_schedule Eval.schedule_before
       (Shared.initial Eval.live 1024 (Some (Eval.ramp 0 1024)) Eval.callers))
  = Some ([], [S754_zero false; S754_zero false],
          [S754_finite false 13020680 (-16);
           S754_finite false 11836981 (-17)], None) /\
  Eval.glimpse 1
    (Shared.run_schedule (Eval.schedule_before ++ Eval.schedule_after)
       (Shared.initial Eval.live 1024 (Some (Eval.ramp 0 1024)) Eval.callers))
  = Some ([], [S754_finite false 13020680 (-16);
               S754_finite false 11836981 (-17)],
          [S754_finite false 13020680 (-16);
           S754_finite false 11836981 (-17)], None).
Proof. split; vm_compute; reflexivity. Qed.

(** Without a valid mutex nothing keeps the two calls apart. On the object
    whose [pthread_mutex_init] failed every [pthread_mutex_lock] is refused;
    both calls print "lock failed!" and go on. In the schedule
    [Eval.schedule_mixed] the caller copies the first float, the callback
    then stores its summary, and the caller copies the rest: the buffer it
    returns with begins with a float of the old fingerprint followed by a
    float of the new one. *)
Theorem failed_lock_admits_mixed_snapshot :
  Eval.snapshot_events Eval.broken
    = [EvLock 22; EvStdout "lock failed!"%string; EvCopyOut; EvUnlock] /\
  map is_update (Eval.audio_events Eval.broken)
    = [false; false; false; true; false; false] /\
  discipline false (Eval.audio_events Eval.broken) = None /\
  firstn 2 (fingerprint Eval.broken) = [S754_zero false; S754_zero false] /\
  Eval.glimpse 0
    (Shared.run_schedule Eval.schedule_mixed
       (Shared.initial Eval.broken 1024 (Some (Eval.ramp 0 1024))
          Eval.callers))
  = Some ([], [S754_zero false; S754_finite false 11836981 (-17)],
          [S754_finite false 13020680 (-16);
           S754_finite false 11836981 (-17)], None).
Proof. repeat split; vm_compute; reflexivity. Qed.
